(** * MWPL-NSE dashboard: the response pipeline of [index.tsx]

    A shallow embedding of the fetch / extract / parse / render cycle of
    [fetchNews] and of the renderers it calls, with the properties of the
    specification proved about it.

    Conventions of the embedding.
    - A JavaScript string is a sequence of code units; the embedding covers
      the code units below 256, one [ascii] each.
    - A JavaScript number is an IEEE 754 double: a [spec_float] of the
      Standard Library at 53 bits of mantissa, with its two zeros, its
      infinities and NaN, the operations rounding to nearest, ties to even.
    - The page is a record of the mount points the script holds references
      to; a function that mutates the page takes and returns that record. *)

From Stdlib Require Import String Ascii List Bool Arith Lia.
From Stdlib Require Import ZArith SpecFloat.
Import ListNotations.

Open Scope nat_scope.
Open Scope bool_scope.
Open Scope string_scope.

(* ================================================================== *)
(** * Strings *)

Module Str.

(** The line feed, written [\n] in the source. *)
Definition LF : string := String "010"%char "".

(** [strip_prefix p s] is the rest of [s] after a leading [p]. *)
Fixpoint strip_prefix (p s : string) : option string :=
  match p with
  | EmptyString => Some s
  | String a p' =>
      match s with
      | EmptyString => None
      | String b s' => if Ascii.eqb a b then strip_prefix p' s' else None
      end
  end.

(** [String.prototype.startsWith]. *)
Definition startsWith (s p : string) : bool :=
  match strip_prefix p s with Some _ => true | None => false end.

(** [String.prototype.endsWith]: [p] is [s] itself or ends the tail of [s]. *)
Fixpoint endsWith (s p : string) : bool :=
  String.eqb s p ||
  match s with
  | EmptyString => false
  | String _ s' => endsWith s' p
  end.

(** White space of [String.prototype.trim] among the code units below 256:
    TAB, LF, VT, FF, CR, SP and NBSP. *)
Definition isWhiteSpace (c : ascii) : bool :=
  let n := nat_of_ascii c in
  (((9 <=? n) && (n <=? 13)) || (n =? 32) || (n =? 160))%nat.

Fixpoint trimStart (s : string) : string :=
  match s with
  | EmptyString => EmptyString
  | String c s' => if isWhiteSpace c then trimStart s' else s
  end.

Fixpoint trimEnd (s : string) : string :=
  match s with
  | EmptyString => EmptyString
  | String c s' =>
      match trimEnd s' with
      | EmptyString => if isWhiteSpace c then EmptyString else String c EmptyString
      | r => String c r
      end
  end.

(** [String.prototype.trim]. *)
Definition trim (s : string) : string := trimEnd (trimStart s).

(** JavaScript truthiness of a string: every string but the empty one. *)
Definition truthy (s : string) : bool :=
  match s with EmptyString => false | _ => true end.

End Str.

(* ================================================================== *)
(** * The regular expression of [fetchNews]

  [responseText.match(/```json\n([\s\S]*?)\n```/)]: no flag, one capture
  group.  The matcher tries the start positions from the left; at a start
  position the literal opener must follow, then the lazy group takes as
  few characters as possible for the literal closer to follow. *)

Module Fence.

Definition opener : string := "```json" ++ Str.LF.
Definition closer : string := Str.LF ++ "```".

(** The lazy group followed by [close]: the shortest prefix of [s] after
    which [close] occurs. *)
Fixpoint lazy_until (close s : string) : option string :=
  match Str.strip_prefix close s with
  | Some _ => Some EmptyString
  | None =>
      match s with
      | EmptyString => None
      | String c s' =>
          match lazy_until close s' with
          | Some r => Some (String c r)
          | None => None
          end
      end
  end.

(** The whole pattern tried at the first position of [s]. *)
Definition match_here (s : string) : option string :=
  match Str.strip_prefix opener s with
  | Some rest => lazy_until closer rest
  | None => None
  end.

(** [s.match(re)]: [None] is [null], [Some c] a match whose group 1 is [c]. *)
Fixpoint match_fence (s : string) : option string :=
  match match_here s with
  | Some c => Some c
  | None =>
      match s with
      | EmptyString => None
      | String _ s' => match_fence s'
      end
  end.

(** [t] holds a fenced block with content [c]. *)
Definition fenced (t c : string) : Prop :=
  exists pre post, t = pre ++ opener ++ c ++ closer ++ post.

(** [c] is the content of the first fenced block of [t], taken lazily:
    no block starts earlier, and none starting there is shorter. *)
Definition first_fenced (t c : string) : Prop :=
  exists pre post,
    t = pre ++ opener ++ c ++ closer ++ post /\
    forall pre' c' post',
      t = pre' ++ opener ++ c' ++ closer ++ post' ->
      (String.length pre < String.length pre')%nat \/
      (String.length pre = String.length pre' /\
       (String.length c <= String.length c')%nat).

End Fence.

(* ================================================================== *)
(** * Exceptions *)

(** An error object: its [name] and its [message]. *)
Record exn : Type := mkExn { exn_name : string; exn_message : string }.

(** [new Error(message)]. *)
Definition Error (message : string) : exn := mkExn "Error" message.

(** Raised by [JSON.parse]; the wording of the message is the engine's. *)
Definition SyntaxError (message : string) : exn := mkExn "SyntaxError" message.

(** Raised by the engine when a value lacks the property or method that is
    used on it; the wording of the message is the engine's (V8's here). *)
Definition TypeError (message : string) : exn := mkExn "TypeError" message.

(** [Error.prototype.toString], which the template literal [`${error}`]
    calls. *)
Definition exn_toString (e : exn) : string :=
  match exn_name e, exn_message e with
  | EmptyString, m => m
  | n, EmptyString => n
  | n, m => n ++ ": " ++ m
  end.

(* ================================================================== *)
(** * Numbers *)

(** A Number of the script: a double. *)
Definition number : Type := spec_float.

Module Number.

Definition prec : Z := 53.
Definition emax : Z := 1024.

(** The Number nearest to the integer [z]; an integer too large for a
    double gives an infinity, as a literal that overflows does. *)
Definition of_Z (z : Z) : number := binary_normalize prec emax z 0 false.

Definition NaN : number := S754_nan.

(** [x / y] and [x * y]. *)
Definition div (x y : number) : number := SFdiv prec emax x y.
Definition mul (x y : number) : number := SFmul prec emax x y.

(** The Number of a decimal literal [m / 10^k]: the quotient of two
    integers that are doubles, rounded once ([m] below [2^53], [k] at
    most 22). *)
Definition decimal (m : Z) (k : nat) : number :=
  div (of_Z m) (of_Z (10 ^ Z.of_nat k)).

(** [Math.abs] on a Number. *)
Definition abs (x : number) : number := SFabs x.

(** [x >= y] and [x > y]: false as soon as one of the two is NaN; the two
    zeros are equal. *)
Definition ge (x y : number) : bool :=
  match SFcompare x y with
  | Some Gt | Some Eq => true
  | _ => false
  end.

Definition gt (x y : number) : bool :=
  match SFcompare x y with
  | Some Gt => true
  | _ => false
  end.

Definition isNaN (x : number) : bool :=
  match x with S754_nan => true | _ => false end.

Definition isFinite (x : number) : bool :=
  match x with
  | S754_zero _ | S754_finite _ _ _ => true
  | _ => false
  end.

(** The literals [0], [1] and [100]. *)
Definition zero : number := S754_zero false.
Definition one : number := Eval vm_compute in of_Z 1.
Definition hundred : number := Eval vm_compute in of_Z 100.

End Number.

(* ================================================================== *)
(** * The document

    Only the elements that the script creates or holds a reference to are
    represented, each by a record of the properties the script assigns. *)

(** [<a>] as created for a stock label or a source. *)
Record Anchor : Type := mkAnchor {
  a_href : string;
  a_textContent : string;
  a_target : string;
  a_rel : string
}.

(** The text of a bar: [`${value.toFixed(digits)}%`], kept as the number
    and the count of decimals it is printed with. *)
Record FixedPercent : Type :=
  mkFixedPercent { fp_value : number; fp_digits : nat }.

(** A bar.  [bar_id] is the identity of the element, by which the timer
    scheduled at its creation finds it; [bar_style_width] is the
    percentage that [style.width] holds, [None] while it holds none. *)
Record Bar : Type := mkBar {
  bar_id : nat;
  bar_className : string;
  bar_textContent : FixedPercent;
  bar_style_width : option number
}.

(** [bar.style.width = `${barWidth}%`].  A style keeps a declaration only
    when its value is valid, and a percentage is a valid width when its
    number is finite and not negative: [NaN%] and [Infinity%] are dropped,
    and the width stays what it was. *)
Definition valid_width (barWidth : number) : bool :=
  Number.isFinite barWidth && Number.ge barWidth Number.zero.

Definition set_style_width (barWidth : number) (b : Bar) : Bar :=
  if valid_width barWidth
  then mkBar (bar_id b) (bar_className b) (bar_textContent b) (Some barWidth)
  else b.

Record BarWrapper : Type := mkBarWrapper {
  wrapper_className : string;
  wrapper_bar : Bar
}.

Record BarsGroup : Type := mkBarsGroup {
  group_className : string;
  group_children : list BarWrapper
}.

Inductive LabelContent : Type :=
| LabelText (textContent : string)
| LabelLink (link : Anchor).

Record Label : Type := mkLabel {
  label_className : string;
  label_content : LabelContent
}.

(** The [div] of one item: its label, then its group of bars. *)
Record ItemContainer : Type := mkItemContainer {
  item_className : string;
  item_label : Label;
  item_barsGroup : BarsGroup
}.

Record Legend : Type := mkLegend {
  legend_className : string;
  legend_innerHTML : string
}.

(** A child of a result container: markup assigned through [innerHTML]
    (kept as the assigned string), the legend, or an item of a chart. *)
Inductive Node : Type :=
| Markup (html : string)
| LegendNode (legend : Legend)
| ItemNode (item : ItemContainer).

Record Container : Type := mkContainer {
  children : list Node;
  style_display : string
}.

(** A pending [setTimeout] callback of a renderer:
    [() => { bar.style.width = `${barWidth}%`; }], by the bar it closes
    over and the width it assigns. *)
Record Timer : Type := mkTimer { timer_bar : nat; timer_barWidth : number }.

(** The mount points of the script, and what the run time keeps for it:
    the identity of the next element created, the pending timers and the
    number of requests sent to the service. *)
Record Page : Type := mkPage {
  fetchBtn_disabled : bool;
  loader_display : string;
  newsContainer : Container;
  performanceContainer : Container;
  mwplContainer : Container;
  sourcesList : list Anchor;
  sourcesContainer_display : string;
  errorMessage_textContent : string;
  errorMessage_display : string;
  next_id : nat;
  timers : list Timer;
  requests : nat
}.

(** The page as the HTML document gives it to the script: nothing rendered,
    no inline style, the button enabled. *)
Definition initialPage : Page :=
  mkPage false "" (mkContainer [] "") (mkContainer [] "") (mkContainer [] "")
         [] "" "" "" 0 [] 0.

(** ** Assignments to the page *)

Definition set_fetchBtn_disabled (v : bool) (p : Page) : Page :=
  mkPage v (loader_display p) (newsContainer p) (performanceContainer p)
         (mwplContainer p) (sourcesList p) (sourcesContainer_display p)
         (errorMessage_textContent p) (errorMessage_display p)
         (next_id p) (timers p) (requests p).

Definition set_loader_display (v : string) (p : Page) : Page :=
  mkPage (fetchBtn_disabled p) v (newsContainer p) (performanceContainer p)
         (mwplContainer p) (sourcesList p) (sourcesContainer_display p)
         (errorMessage_textContent p) (errorMessage_display p)
         (next_id p) (timers p) (requests p).

Definition upd_newsContainer (f : Container -> Container) (p : Page) : Page :=
  mkPage (fetchBtn_disabled p) (loader_display p) (f (newsContainer p))
         (performanceContainer p) (mwplContainer p) (sourcesList p)
         (sourcesContainer_display p) (errorMessage_textContent p)
         (errorMessage_display p) (next_id p) (timers p) (requests p).

Definition upd_performanceContainer (f : Container -> Container) (p : Page) : Page :=
  mkPage (fetchBtn_disabled p) (loader_display p) (newsContainer p)
         (f (performanceContainer p)) (mwplContainer p) (sourcesList p)
         (sourcesContainer_display p) (errorMessage_textContent p)
         (errorMessage_display p) (next_id p) (timers p) (requests p).

Definition upd_mwplContainer (f : Container -> Container) (p : Page) : Page :=
  mkPage (fetchBtn_disabled p) (loader_display p) (newsContainer p)
         (performanceContainer p) (f (mwplContainer p)) (sourcesList p)
         (sourcesContainer_display p) (errorMessage_textContent p)
         (errorMessage_display p) (next_id p) (timers p) (requests p).

Definition set_sourcesList (v : list Anchor) (p : Page) : Page :=
  mkPage (fetchBtn_disabled p) (loader_display p) (newsContainer p)
         (performanceContainer p) (mwplContainer p) v
         (sourcesContainer_display p) (errorMessage_textContent p)
         (errorMessage_display p) (next_id p) (timers p) (requests p).

Definition set_sourcesContainer_display (v : string) (p : Page) : Page :=
  mkPage (fetchBtn_disabled p) (loader_display p) (newsContainer p)
         (performanceContainer p) (mwplContainer p) (sourcesList p) v
         (errorMessage_textContent p) (errorMessage_display p)
         (next_id p) (timers p) (requests p).

Definition set_errorMessage_textContent (v : string) (p : Page) : Page :=
  mkPage (fetchBtn_disabled p) (loader_display p) (newsContainer p)
         (performanceContainer p) (mwplContainer p) (sourcesList p)
         (sourcesContainer_display p) v (errorMessage_display p)
         (next_id p) (timers p) (requests p).

Definition set_errorMessage_display (v : string) (p : Page) : Page :=
  mkPage (fetchBtn_disabled p) (loader_display p) (newsContainer p)
         (performanceContainer p) (mwplContainer p) (sourcesList p)
         (sourcesContainer_display p) (errorMessage_textContent p) v
         (next_id p) (timers p) (requests p).

Definition set_next_id (v : nat) (p : Page) : Page :=
  mkPage (fetchBtn_disabled p) (loader_display p) (newsContainer p)
         (performanceContainer p) (mwplContainer p) (sourcesList p)
         (sourcesContainer_display p) (errorMessage_textContent p)
         (errorMessage_display p) v (timers p) (requests p).

Definition set_timers (v : list Timer) (p : Page) : Page :=
  mkPage (fetchBtn_disabled p) (loader_display p) (newsContainer p)
         (performanceContainer p) (mwplContainer p) (sourcesList p)
         (sourcesContainer_display p) (errorMessage_textContent p)
         (errorMessage_display p) (next_id p) v (requests p).

Definition set_requests (v : nat) (p : Page) : Page :=
  mkPage (fetchBtn_disabled p) (loader_display p) (newsContainer p)
         (performanceContainer p) (mwplContainer p) (sourcesList p)
         (sourcesContainer_display p) (errorMessage_textContent p)
         (errorMessage_display p) (next_id p) (timers p) v.

(** [container.innerHTML = html]: the children are replaced by what the
    markup stands for; the empty markup leaves no child. *)
Definition set_innerHTML (html : string) (c : Container) : Container :=
  mkContainer (match html with EmptyString => [] | _ => [Markup html] end)
              (style_display c).

(** [container.appendChild(node)], and the same for a fragment of nodes. *)
Definition appendChildren (nodes : list Node) (c : Container) : Container :=
  mkContainer (children c ++ nodes)%list (style_display c).

(** [container.style.display = v]. *)
Definition set_display (v : string) (c : Container) : Container :=
  mkContainer (children c) v.

(** The items of a chart container, and the bars of an item, in document
    order. *)
Definition items_of (c : Container) : list ItemContainer :=
  flat_map (fun n => match n with ItemNode i => [i] | _ => [] end) (children c).

Definition bars_of (i : ItemContainer) : list Bar :=
  map wrapper_bar (group_children (item_barsGroup i)).

(* ================================================================== *)
(** * Computations on the page that may throw *)

Inductive result (A : Type) : Type :=
| Ok (a : A) (p : Page)
| Throw (e : exn) (p : Page).
Arguments Ok {A} a p.
Arguments Throw {A} e p.

Definition M (A : Type) : Type := Page -> result A.

Definition ret {A} (a : A) : M A := fun p => Ok a p.

Definition bind {A B} (m : M A) (k : A -> M B) : M B :=
  fun p => match m p with
           | Ok a p' => k a p'
           | Throw e p' => Throw e p'
           end.

Definition throw {A} (e : exn) : M A := fun p => Throw e p.

(** A statement that assigns to the page and cannot throw. *)
Definition exec (f : Page -> Page) : M unit := fun p => Ok tt (f p).

Notation "x <- m ;; k" := (bind m (fun x => k))
  (at level 61, m at next level, right associativity).
Notation "m ;;; k" := (bind m (fun _ => k))
  (at level 61, right associativity).

(** [array.forEach(f)], collecting what each call hands back. *)
Fixpoint forEach {A B} (f : A -> M B) (l : list A) : M (list B) :=
  match l with
  | [] => ret []
  | a :: l' => b <- f a ;; bs <- forEach f l' ;; ret (b :: bs)
  end.

(** An expression that touches nothing of the page: its value, or the
    exception it throws. *)
Definition lift {A} (r : exn + A) : M A :=
  match r with
  | inl e => throw e
  | inr a => ret a
  end.

(** The page a computation leaves, whether it returned or threw. *)
Definition page_of {A} (r : result A) : Page :=
  match r with Ok _ p => p | Throw _ p => p end.
(* ================================================================== *)
(** * The data of a response

    The annotations of the source are erased at run time and the values
    come out of [JSON.parse]: a key that a type declares can be missing from
    an object, and reading it gives [undefined].  A field that the script
    tests or dereferences is an [option], [None] standing for [undefined];
    a section can moreover hold a value that is not an array ([anyArray]),
    and a period object can hold any key, each with a value that is a number
    or not ([anyNumber]).  Beyond that the values have the kinds that the
    types declare: a label or a field of the summary is a string. *)

(** A value found where a number is declared.  A value that is not a
    number is [null], or a boolean, a string, an array or an object, of
    which the script can only observe the number that [ToNumber] makes of
    it: [toNumber], [None] when the conversion throws (an object whose
    [valueOf] and [toString] give no primitive). *)
Inductive anyNumber : Type :=
| IsNumber (x : number)
| IsNull
| NotANumber (toNumber : option number).

(** A period object, by its entries: the three keys that the type
    declares can be missing, and other keys can be there. *)
Definition PeriodPerformance : Type := list (string * anyNumber).

(** [object.key]: [None] is [undefined]. *)
Fixpoint Object_get (key : string) (object : PeriodPerformance)
    : option anyNumber :=
  match object with
  | [] => None
  | (k, v) :: rest => if String.eqb k key then Some v else Object_get key rest
  end.

Definition current (p : PeriodPerformance) : option anyNumber :=
  Object_get "current" p.
Definition oneWeekAgo (p : PeriodPerformance) : option anyNumber :=
  Object_get "oneWeekAgo" p.
Definition twoWeeksAgo (p : PeriodPerformance) : option anyNumber :=
  Object_get "twoWeeksAgo" p.

Record SectorPerformance : Type := mkSectorPerformance {
  sector : string;
  performance : option PeriodPerformance
}.

Record MWPLStockPerformance : Type := mkMWPLStockPerformance {
  stock : string;
  url : option string;
  mwpl : option PeriodPerformance
}.

Record Summary : Type := mkSummary {
  marketOverview : string;
  keySectorNews : string;
  majorCorporateAnnouncements : string;
  economicPolicyFactors : string
}.

(** A truthy value found where an array is declared: an array, or a value
    of another kind (an object, a string, a number, [true]), which has
    neither [flatMap] nor [forEach]. *)
Inductive anyArray (T : Type) : Type :=
| NotAnArray
| IsArray (elements : list T).
Arguments NotAnArray {T}.
Arguments IsArray {T} elements.

(** The top-level object.  [None] is a key whose value is falsy: missing,
    [null], [false], [0] or the empty string. *)
Record Data : Type := mkData {
  summary : option Summary;
  sectorPerformance : option (anyArray SectorPerformance);
  mwplPerformance : option (anyArray MWPLStockPerformance)
}.

(** What [JSON.parse] returns: [null], or a value whose properties can be
    read.  A value that is not an object has none of the three keys and
    reads as [mkData None None None]. *)
Inductive anyData : Type :=
| DataNull
| DataValue (data : Data).

(* ================================================================== *)
(** * [Math], [Object] and the conversions of the language *)

(** [ToNumber], which [Math.abs] and [>=] apply to their operand: [null]
    is [0]. *)
Definition ToNumber (v : anyNumber) : exn + number :=
  match v with
  | IsNumber x => inr x
  | IsNull => inr Number.zero
  | NotANumber (Some x) => inr x
  | NotANumber None =>
      inl (TypeError "Cannot convert object to primitive value")
  end.

(** [Math.abs(v)]. *)
Definition Math_abs (v : anyNumber) : exn + number :=
  match ToNumber v with
  | inl e => inl e
  | inr x => inr (Number.abs x)
  end.

(** [values.map(v => Math.abs(v))]: the first conversion that throws
    ends it. *)
Fixpoint map_Math_abs (values : list anyNumber) : exn + list number :=
  match values with
  | [] => inr []
  | v :: rest =>
      match Math_abs v with
      | inl e => inl e
      | inr a =>
          match map_Math_abs rest with
          | inl e => inl e
          | inr magnitudes => inr (a :: magnitudes)
          end
      end
  end.

(** [Math.max(...args)] on Numbers: NaN as soon as an argument is NaN,
    else the largest, [+0] counting as larger than [-0]; [highest] starts
    at minus infinity. *)
Fixpoint Math_max_from (highest : number) (args : list number) : number :=
  match args with
  | [] => highest
  | x :: rest =>
      if Number.isNaN x then Number.NaN
      else
        match x, highest with
        | S754_zero false, S754_zero true => Math_max_from x rest
        | _, _ =>
            if Number.gt x highest then Math_max_from x rest
            else Math_max_from highest rest
        end
  end.

Definition Math_max (args : list number) : number :=
  Math_max_from (S754_infinity true) args.

Definition present {A} (o : option A) : list A :=
  match o with Some a => [a] | None => [] end.

(** [Object.values(performance)]: the value of every key that the object
    has, in the order of the entries; the script takes their maximum, which
    does not depend on the order. *)
Definition Object_values (p : PeriodPerformance) : list anyNumber :=
  map snd p.

(* ================================================================== *)
(** * [displayError] and [setLoading] *)

Definition displayError (message : string) (p : Page) : Page :=
  let p := upd_newsContainer (set_display "none") p in
  let p := set_sourcesContainer_display "none" p in
  let p := upd_performanceContainer (set_display "none") p in
  let p := upd_mwplContainer (set_display "none") p in
  let p := set_errorMessage_textContent message p in
  set_errorMessage_display "block" p.

Definition setLoading (isLoading : bool) (p : Page) : Page :=
  if isLoading then
    let p := set_loader_display "block" p in
    let p := set_fetchBtn_disabled true p in
    let p := upd_newsContainer (set_innerHTML "") p in
    let p := upd_newsContainer (set_display "none") p in
    let p := upd_performanceContainer (set_innerHTML "") p in
    let p := upd_performanceContainer (set_display "none") p in
    let p := upd_mwplContainer (set_innerHTML "") p in
    let p := upd_mwplContainer (set_display "none") p in
    let p := set_sourcesList [] p in
    let p := set_sourcesContainer_display "none" p in
    set_errorMessage_display "none" p
  else
    let p := set_loader_display "none" p in
    set_fetchBtn_disabled false p.

(* ================================================================== *)
(** * The two charts *)

(** The double quote of the markup. *)
Definition DQ : string := String "034"%char "".

Definition legend_item (box caption : string) : string :=
  "<div class=" ++ DQ ++ "legend-item" ++ DQ ++ "><span class=" ++ DQ ++
  "legend-color-box " ++ box ++ DQ ++ "></span>" ++ caption ++ "</div>".

(** The template literal assigned to [legend.innerHTML]; the two charts
    differ by the classes of the three boxes. *)
Definition legend_markup (box1 box2 box3 : string) : string :=
  Str.LF ++ "        " ++ legend_item box1 "Current" ++
  Str.LF ++ "        " ++ legend_item box2 "1 Week Ago" ++
  Str.LF ++ "        " ++ legend_item box3 "2 Weeks Ago" ++
  Str.LF ++ "    ".

(** An entry of the array [periods] of a renderer. *)
Record Period : Type := mkPeriod {
  period_key : string;
  period_value : option anyNumber;
  period_className : string
}.

Definition periods_of (p : PeriodPerformance) : list Period :=
  [ mkPeriod "current" (current p) "current";
    mkPeriod "oneWeekAgo" (oneWeekAgo p) "one-week";
    mkPeriod "twoWeeksAgo" (twoWeeksAgo p) "two-weeks" ].

(** [document.createElement('div')] for a bar: the next identity. *)
Definition createBar : M nat :=
  fun p => Ok (next_id p) (set_next_id (S (next_id p)) p).

(** [setTimeout(() => { bar.style.width = `${barWidth}%`; }, 10)]. *)
Definition setTimeout (bar : nat) (barWidth : number) : M unit :=
  exec (fun p => set_timers (timers p ++ [mkTimer bar barWidth])%list p).

(** [value.toFixed(digits)]: a Number has the method; reading it on
    [null] throws, and on a value of another kind it reads [undefined],
    which cannot be called. *)
Definition toFixed (value : anyNumber) (digits : nat) : exn + FixedPercent :=
  match value with
  | IsNumber x => inr (mkFixedPercent x digits)
  | IsNull =>
      inl (TypeError "Cannot read properties of null (reading 'toFixed')")
  | NotANumber _ => inl (TypeError "period.value.toFixed is not a function")
  end.

(** The body of the loop over [periods], after the test for [undefined];
    shared by the two renderers, which differ by the class of the bar
    ([className]), the decimals of its text and [maxPerformance].  The
    width is computed as the source writes it: the quotient first, then
    the product by 100. *)
Definition renderBar (className : anyNumber -> string -> exn + string)
    (digits : nat) (maxPerformance : number) (period_class : string)
    (value : anyNumber) : M BarWrapper :=
  bar <- createBar ;;
  bar_class <- lift (className value period_class) ;;
  textContent <- lift (toFixed value digits) ;;
  magnitude <- lift (Math_abs value) ;;
  let barWidth :=
    Number.mul (Number.div magnitude maxPerformance) Number.hundred in
  setTimeout bar barWidth ;;;
  ret (mkBarWrapper "chart-bar-wrapper" (mkBar bar bar_class textContent None)).

(** [for (const period of periods)]: an entry whose value is [undefined]
    is skipped, and no other; the wrappers come back in the order they are
    appended to [barsGroup]. *)
Fixpoint forPeriods (mk : string -> anyNumber -> M BarWrapper)
    (periods : list Period) : M (list BarWrapper) :=
  match periods with
  | [] => ret []
  | period :: rest =>
      match period_value period with
      | None => forPeriods mk rest
      | Some value =>
          w <- mk (period_className period) value ;;
          ws <- forPeriods mk rest ;;
          ret (w :: ws)
      end
  end.

(** ** [renderSectorGraphs] *)

Definition sector_bar_class (value : number) (period_class : string) : string :=
  let isPositive := Number.ge value Number.zero in
  "chart-bar " ++ (if isPositive then "positive" else "negative") ++ " " ++
  period_class.

(** Lines 130 and 131: [period.value >= 0] converts its operand. *)
Definition sector_className (value : anyNumber) (period_class : string)
    : exn + string :=
  match ToNumber value with
  | inl e => inl e
  | inr x => inr (sector_bar_class x period_class)
  end.

(** [performanceData.flatMap(d => Object.values(d.performance))]. *)
Fixpoint sector_allValues (performanceData : list SectorPerformance)
    : exn + list anyNumber :=
  match performanceData with
  | [] => inr []
  | d :: rest =>
      match performance d with
      | None => inl (TypeError "Cannot convert undefined or null to object")
      | Some p =>
          match sector_allValues rest with
          | inl e => inl e
          | inr vs => inr (Object_values p ++ vs)%list
          end
      end
  end.

(** The callback of [performanceData.forEach]. *)
Definition renderSectorItem (maxPerformance : number) (data : SectorPerformance)
    : M ItemContainer :=
  let label := mkLabel "chart-label" (LabelText (sector data)) in
  match performance data with
  | None =>
      throw (TypeError "Cannot read properties of undefined (reading 'current')")
  | Some perf =>
      bars <- forPeriods (renderBar sector_className 2 maxPerformance)
                         (periods_of perf) ;;
      ret (mkItemContainer "chart-bar-container" label
                           (mkBarsGroup "chart-bars-group" bars))
  end.

Definition renderSectorGraphs (performanceData : anyArray SectorPerformance)
    : M unit :=
  exec (upd_performanceContainer
          (set_innerHTML "<h2>Sector Performance (%)</h2>")) ;;;
  let legend :=
    mkLegend "chart-legend" (legend_markup "current" "one-week" "two-weeks") in
  exec (upd_performanceContainer (appendChildren [LegendNode legend])) ;;;
  match performanceData with
  | NotAnArray => throw (TypeError "performanceData.flatMap is not a function")
  | IsArray performanceData =>
      match sector_allValues performanceData with
      | inl e => throw e
      | inr allValues =>
          match map_Math_abs allValues with
          | inl e => throw e
          | inr magnitudes =>
              let maxPerformance := Math_max (magnitudes ++ [Number.one]) in
              chartFragment <-
                forEach (renderSectorItem maxPerformance) performanceData ;;
              exec (upd_performanceContainer
                      (appendChildren (map ItemNode chartFragment))) ;;;
              exec (upd_performanceContainer (set_display "block"))
          end
      end
  end.

(** ** [renderMWPLChart] *)

Definition mwpl_bar_class (value : number) (period_class : string) : string :=
  "chart-bar " ++ period_class.

(** Line 206: the class does not read the value. *)
Definition mwpl_className (value : anyNumber) (period_class : string)
    : exn + string :=
  inr ("chart-bar " ++ period_class).

(** The label of a stock: a link when [data.url] is truthy, its text
    otherwise. *)
Definition mwpl_label (data : MWPLStockPerformance) : Label :=
  mkLabel "chart-label"
    (match url data with
     | Some u =>
         if Str.truthy u
         then LabelLink (mkAnchor u (stock data) "_blank" "noopener noreferrer")
         else LabelText (stock data)
     | None => LabelText (stock data)
     end).

(** The callback of [mwplData.forEach]. *)
Definition renderMWPLItem (data : MWPLStockPerformance) : M ItemContainer :=
  let maxPerformance := Number.hundred in
  let label := mwpl_label data in
  match mwpl data with
  | None =>
      throw (TypeError "Cannot read properties of undefined (reading 'current')")
  | Some perf =>
      bars <- forPeriods (renderBar mwpl_className 1 maxPerformance)
                         (periods_of perf) ;;
      ret (mkItemContainer "chart-bar-container" label
                           (mkBarsGroup "chart-bars-group" bars))
  end.

Definition renderMWPLChart (mwplData : anyArray MWPLStockPerformance) : M unit :=
  exec (upd_mwplContainer
          (set_innerHTML "<h2>Top 10 Stocks by MWPL (%)</h2>")) ;;;
  let legend :=
    mkLegend "chart-legend"
             (legend_markup "mwpl-current" "mwpl-one-week" "mwpl-two-weeks") in
  exec (upd_mwplContainer (appendChildren [LegendNode legend])) ;;;
  match mwplData with
  | NotAnArray => throw (TypeError "mwplData.forEach is not a function")
  | IsArray mwplData =>
      chartFragment <- forEach renderMWPLItem mwplData ;;
      exec (upd_mwplContainer (appendChildren (map ItemNode chartFragment))) ;;;
      exec (upd_mwplContainer (set_display "block"))
  end.

(** ** The timers of the bars *)

(** The callback of a timer, on a bar: it assigns to the bar it closes
    over and leaves every other bar alone. *)
Definition fire_bar (t : Timer) (b : Bar) : Bar :=
  if Nat.eqb (bar_id b) (timer_bar t)
  then set_style_width (timer_barWidth t) b
  else b.

Definition fire_item (t : Timer) (i : ItemContainer) : ItemContainer :=
  mkItemContainer (item_className i) (item_label i)
    (mkBarsGroup (group_className (item_barsGroup i))
       (map (fun w => mkBarWrapper (wrapper_className w)
                                   (fire_bar t (wrapper_bar w)))
            (group_children (item_barsGroup i)))).

Definition fire_node (t : Timer) (n : Node) : Node :=
  match n with
  | ItemNode i => ItemNode (fire_item t i)
  | _ => n
  end.

Definition fire_container (t : Timer) (c : Container) : Container :=
  mkContainer (map (fire_node t) (children c)) (style_display c).

(** One timer fires: its bar, if it is still in the document, gets its
    width. *)
Definition fire (t : Timer) (p : Page) : Page :=
  upd_mwplContainer (fire_container t)
    (upd_performanceContainer (fire_container t) p).

(** The pending timers fire, in the order they were scheduled. *)
Definition runTimers (p : Page) : Page :=
  set_timers [] (fold_left (fun p t => fire t p) (timers p) p).

(** ** [renderSummary] *)

Definition renderSummary (summary : Summary) : M unit :=
  exec (upd_newsContainer (set_innerHTML (
    Str.LF ++ "    <h2>Market Summary</h2>" ++
    Str.LF ++ "    <h3>Market Overview</h3>" ++
    Str.LF ++ "    <p>" ++ marketOverview summary ++ "</p>" ++
    Str.LF ++ "    <h3>Key Sector News</h3>" ++
    Str.LF ++ "    <p>" ++ keySectorNews summary ++ "</p>" ++
    Str.LF ++ "    <h3>Major Corporate Announcements</h3>" ++
    Str.LF ++ "    <p>" ++ majorCorporateAnnouncements summary ++ "</p>" ++
    Str.LF ++ "    <h3>Economic/Policy Factors</h3>" ++
    Str.LF ++ "    <p>" ++ economicPolicyFactors summary ++ "</p>" ++
    Str.LF ++ "  "))) ;;;
  exec (upd_newsContainer (set_display "block")).
(* ================================================================== *)
(** * The sources: [JSON.stringify] and [JSON.parse] of a [{uri, title}] *)

Module Json.

Definition hexdigit (n : nat) : ascii :=
  match n with
  | 0 => "0" | 1 => "1" | 2 => "2" | 3 => "3" | 4 => "4" | 5 => "5"
  | 6 => "6" | 7 => "7" | 8 => "8" | 9 => "9" | 10 => "a" | 11 => "b"
  | 12 => "c" | 13 => "d" | 14 => "e" | _ => "f"
  end%char.

(** One code unit as [JSON.stringify] writes it inside a string. *)
Definition quote_char (c : ascii) : string :=
  let n := nat_of_ascii c in
  match n with
  | 8 => "\b" | 9 => "\t" | 10 => "\n" | 12 => "\f" | 13 => "\r"
  | 34 => String "\"%char DQ
  | 92 => "\\"
  | _ =>
      if (n <? 32)%nat
      then "\u00" ++ String (hexdigit (n / 16)) (String (hexdigit (n mod 16)) "")
      else String c ""
  end.

Fixpoint quote_chars (s : string) : string :=
  match s with
  | EmptyString => EmptyString
  | String c s' => quote_char c ++ quote_chars s'
  end.

(** [JSON.stringify] of a string. *)
Definition quote (s : string) : string := DQ ++ quote_chars s ++ DQ.

(** [JSON.stringify({uri: uri, title: title})]: a key whose value is
    [undefined] is left out. *)
Definition stringify_source (uri : string) (title : option string) : string :=
  "{" ++ quote "uri" ++ ":" ++ quote uri ++
  match title with
  | Some t => "," ++ quote "title" ++ ":" ++ quote t
  | None => ""
  end ++ "}".

Definition hexvalue (c : ascii) : option nat :=
  let n := nat_of_ascii c in
  if ((48 <=? n) && (n <=? 57))%nat then Some (n - 48)
  else if ((97 <=? n) && (n <=? 102))%nat then Some (n - 87)
  else if ((65 <=? n) && (n <=? 70))%nat then Some (n - 55)
  else None.

(** The character that a one-letter escape stands for. *)
Definition unescape (c : ascii) : option ascii :=
  match nat_of_ascii c with
  | 34 => Some "034" | 92 => Some "092" | 47 => Some "047"
  | 98 => Some "008" | 102 => Some "012" | 110 => Some "010"
  | 114 => Some "013" | 116 => Some "009"
  | _ => None
  end%char.

(** A JSON string after its opening quote: the string it denotes and what
    follows its closing quote.  A [\u] escape of a code unit from 256 on is
    outside the embedding and refused. *)
Fixpoint unquote_from (s : string) : option (string * string) :=
  match s with
  | EmptyString => None
  | String c r =>
      match nat_of_ascii c with
      | 34 => Some (EmptyString, r)
      | 92 =>
          match r with
          | EmptyString => None
          | String e r' =>
              if Ascii.eqb e "u" then
                match r' with
                | String h1 (String h2 (String h3 (String h4 r''))) =>
                    match hexvalue h1, hexvalue h2, hexvalue h3, hexvalue h4 with
                    | Some 0, Some 0, Some d3, Some d4 =>
                        match unquote_from r'' with
                        | Some (t, k) =>
                            Some (String (ascii_of_nat (16 * d3 + d4)) t, k)
                        | None => None
                        end
                    | _, _, _, _ => None
                    end
                | _ => None
                end
              else
                match unescape e with
                | Some x =>
                    match unquote_from r' with
                    | Some (t, k) => Some (String x t, k)
                    | None => None
                    end
                | None => None
                end
          end
      | n =>
          if (n <? 32)%nat then None
          else match unquote_from r with
               | Some (t, k) => Some (String c t, k)
               | None => None
               end
      end
  end.

(** A JSON string at the head of [s]. *)
Definition unquote (s : string) : option (string * string) :=
  match Str.strip_prefix DQ s with
  | Some r => unquote_from r
  | None => None
  end.

(** The object that a source string is parsed to. *)
Record Source : Type := mkSource { source_uri : string; source_title : option string }.

(** [JSON.parse] on the texts that [stringify_source] writes: an object
    with the key [uri], then possibly the key [title], both strings, and no
    white space.  [None] is a [SyntaxError]. *)
Definition parse_source (s : string) : option Source :=
  match Str.strip_prefix ("{" ++ quote "uri" ++ ":") s with
  | None => None
  | Some r =>
      match unquote r with
      | None => None
      | Some (u, k) =>
          if String.eqb k "}" then Some (mkSource u None)
          else
            match Str.strip_prefix ("," ++ quote "title" ++ ":") k with
            | None => None
            | Some r' =>
                match unquote r' with
                | Some (t, k') =>
                    if String.eqb k' "}" then Some (mkSource u (Some t)) else None
                | None => None
                end
            end
      end
  end.

End Json.

(** [new Set<string>()] keeps its members in the order they were first
    added. *)
Definition Set_add (member : string) (set : list string) : list string :=
  if existsb (String.eqb member) set then set else (set ++ [member])%list.

(* ================================================================== *)
(** * The response of the service *)

Record Web : Type := mkWeb { uri : option string; title : option string }.

(** A grounding chunk, with its web reference if it carries one. *)
Record GroundingChunk : Type := mkGroundingChunk { web : option Web }.

(** What [fetchNews] reads of a response: [result.text], [undefined] when
    the response has no text, and
    [result.candidates?.[0]?.groundingMetadata?.groundingChunks], [None]
    when any link of that chain is missing. *)
Record GenerateContentResponse : Type := mkResponse {
  text : option string;
  groundingChunks : option (list GroundingChunk)
}.

(** How the promise of [generateContent] settles. *)
Inductive Settled : Type :=
| Fulfilled (result : GenerateContentResponse)
| Rejected (error : exn).

(** The client; [let ai] holds [undefined] ([None]) until it is assigned. *)
Inductive GoogleGenAI : Type := client.

(** Lines 23 to 29: the client is constructed, and a constructor that
    throws leaves [ai] unassigned and the error displayed. *)
Definition initialize (constructed : exn + GoogleGenAI) (p : Page)
    : option GoogleGenAI * Page :=
  match constructed with
  | inr c => (Some c, p)
  | inl _ =>
      (None,
       displayError
         "Failed to initialize the AI client. Please ensure the API key is set correctly."
         p)
  end.

(* ================================================================== *)
(** * [fetchNews] *)

(** Lines 296 to 308: the JSON text of a trimmed response. *)
Definition locate_jsonString (responseText : string) : exn + string :=
  let fallback :=
    if Str.startsWith responseText "{" && Str.endsWith responseText "}"
    then inr responseText
    else inl (Error "Could not find a valid JSON block in the response.") in
  match Fence.match_fence responseText with
  | Some group1 => if Str.truthy group1 then inr group1 else fallback
  | None => fallback
  end.

(** The callback of [groundingChunks.forEach]. *)
Definition add_source (sources : list string) (chunk : GroundingChunk)
    : list string :=
  match web chunk with
  | Some w =>
      match uri w with
      | Some u =>
          if Str.truthy u
          then Set_add (Json.stringify_source u (title w)) sources
          else sources
      | None => sources
      end
  | None => sources
  end.

Definition collect_sources (chunks : list GroundingChunk) : list string :=
  fold_left add_source chunks [].

(** [source.title || source.uri]. *)
Definition link_text (source : Json.Source) : string :=
  match Json.source_title source with
  | Some t => if Str.truthy t then t else Json.source_uri source
  | None => Json.source_uri source
  end.

(** The callback of [sources.forEach]. *)
Definition renderSource (sourceStr : string) : M unit :=
  match Json.parse_source sourceStr with
  | None => throw (SyntaxError "Unexpected token")
  | Some source =>
      let link :=
        mkAnchor (Json.source_uri source) (link_text source)
                 "_blank" "noopener noreferrer" in
      exec (fun p => set_sourcesList (sourcesList p ++ [link])%list p)
  end.

(** Lines 323 to 347. *)
Definition displaySources (chunks : option (list GroundingChunk)) : M unit :=
  match chunks with
  | None => ret tt
  | Some chunks =>
      exec (set_sourcesList []) ;;;
      let sources := collect_sources chunks in
      match sources with
      | [] => ret tt
      | _ =>
          forEach renderSource sources ;;;
          exec (set_sourcesContainer_display "block")
      end
  end.

Definition when {A} (o : option A) (f : A -> M unit) : M unit :=
  match o with Some a => f a | None => ret tt end.

Section FetchNews.

(** [JSON.parse] on the text of the response: the message of the
    [SyntaxError] it throws, or the value. *)
Variable JSON_parse : string -> string + anyData.

(** The [try] block, from the point where the promise has settled. *)
Definition fetchNews_try (settled : Settled) : M unit :=
  match settled with
  | Rejected error => throw error
  | Fulfilled result =>
      match text result with
      | None =>
          throw (TypeError "Cannot read properties of undefined (reading 'trim')")
      | Some t =>
          let responseText := Str.trim t in
          match locate_jsonString responseText with
          | inl e => throw e
          | inr jsonString =>
              match JSON_parse jsonString with
              | inl message => throw (SyntaxError message)
              | inr DataNull =>
                  throw (TypeError
                    "Cannot read properties of null (reading 'summary')")
              | inr (DataValue data) =>
                  when (summary data) renderSummary ;;;
                  when (sectorPerformance data) renderSectorGraphs ;;;
                  when (mwplPerformance data) renderMWPLChart ;;;
                  displaySources (groundingChunks result)
              end
          end
      end
  end.

(** The page while the request is out: [setLoading(true)] has run and
    the request has been sent. *)
Definition fetchNews_loading (p : Page) : Page :=
  let p := setLoading true p in
  set_requests (S (requests p)) p.

(** [fetchNews], given how the request settles: the page when the
    function is done.  The lines written to the console are left out. *)
Definition fetchNews (ai : option GoogleGenAI) (settled : Settled) (p : Page)
    : Page :=
  match ai with
  | None => displayError "AI client is not initialized." p
  | Some _ =>
      let p := fetchNews_loading p in
      let p :=
        match fetchNews_try settled p with
        | Ok _ p' => p'
        | Throw error p' =>
            displayError
              ("An error occurred while fetching news: " ++ exn_toString error) p'
        end in
      setLoading false p
  end.

End FetchNews.
(* ================================================================== *)
(** * Notions of the specification *)

(** The entries of a period object under the three period keys, those
    that are there, in the order current, one week ago, two weeks ago,
    each with the class of its period. *)
Definition samples (perf : PeriodPerformance) : list (string * anyNumber) :=
  (map (pair "current") (present (current perf)) ++
   map (pair "one-week") (present (oneWeekAgo perf)) ++
   map (pair "two-weeks") (present (twoWeeksAgo perf)))%list.

(** The entries whose value is a number. *)
Definition numbers (ss : list (string * anyNumber)) : list (string * number) :=
  flat_map (fun s => match snd s with
                     | IsNumber x => [(fst s, x)]
                     | _ => []
                     end) ss.

(** Every value is a number. *)
Definition numeric (values : list anyNumber) : Prop :=
  Forall (fun v => exists x, v = IsNumber x) values.

(** The values of a list that are numbers. *)
Definition number_values (values : list anyNumber) : list number :=
  flat_map (fun v => match v with IsNumber x => [x] | _ => [] end) values.

(** All the values of the period objects of the sector items, under the
    three period keys and under any other key. *)
Definition sector_values (data : list SectorPerformance) : list anyNumber :=
  flat_map (fun d => match performance d with
                     | Some perf => Object_values perf
                     | None => []
                     end) data.

(** [m] is the largest magnitude among [values], floored at 1. *)
Definition relative_max (values : list number) (m : number) : Prop :=
  Number.ge m Number.one = true /\
  (forall v, In v values -> Number.ge m (Number.abs v) = true) /\
  (m = Number.one \/ exists v, In v values /\ m = Number.abs v).

(** No pending timer targets an element that does not exist yet. *)
Definition timers_fresh (p : Page) : Prop :=
  Forall (fun t => timer_bar t < next_id p) (timers p).

(** [ToNumber] does not throw on the value. *)
Definition convertible (v : anyNumber) : Prop := v <> NotANumber None.

(** The sections that are present have the declared shape as far as the
    renderers rely on it: a section is an array, every item has its period
    object, and in it every value that is there under one of the three
    period keys is a number; in the sector chart, which converts the value
    of every key, no value is one that cannot be converted. *)
Definition sector_item_shaped (d : SectorPerformance) : Prop :=
  exists perf,
    performance d = Some perf /\
    Forall convertible (Object_values perf) /\
    numeric (map snd (samples perf)).

Definition mwpl_item_shaped (d : MWPLStockPerformance) : Prop :=
  exists perf, mwpl d = Some perf /\ numeric (map snd (samples perf)).

Definition sector_shaped (a : anyArray SectorPerformance) : Prop :=
  match a with
  | NotAnArray => False
  | IsArray l => Forall sector_item_shaped l
  end.

Definition mwpl_shaped (a : anyArray MWPLStockPerformance) : Prop :=
  match a with
  | NotAnArray => False
  | IsArray l => Forall mwpl_item_shaped l
  end.

Definition well_shaped (data : Data) : Prop :=
  (forall a, sectorPerformance data = Some a -> sector_shaped a) /\
  (forall a, mwplPerformance data = Some a -> mwpl_shaped a).

(** An item of the sector chart whose period object holds numbers only,
    under every key: numbers as [JSON.parse] gives them, none of them
    NaN. *)
Definition sector_item_numbers (d : SectorPerformance) : Prop :=
  exists perf,
    performance d = Some perf /\
    Forall (fun v => exists x, v = IsNumber x /\ Number.isNaN x = false)
           (Object_values perf).

(** A candidate carries the pair [(u, t)]: it has a web reference whose uri
    is [u] and whose title is [t]. *)
Definition carries (c : GroundingChunk) (u : string) (t : option string) : Prop :=
  web c = Some (mkWeb (Some u) t).

(** The link shown for a pair: the title when there is a non-empty one,
    the uri otherwise. *)
Definition source_link (s : string * option string) : Anchor :=
  mkAnchor (fst s)
           (match snd s with
            | Some (String c t) => String c t
            | _ => fst s
            end)
           "_blank" "noopener noreferrer".
(* ================================================================== *)
(** * What a renderer builds, written without the page

    Used to state what the loops of the renderers return: the elements
    they build out of the samples, numbered from the identity of the first
    one, and the timers they schedule. *)

Definition samples_of_periods (periods : list Period)
    : list (string * anyNumber) :=
  flat_map (fun pd => map (pair (period_className pd))
                          (present (period_value pd))) periods.

(** The width that a renderer computes for a value. *)
Definition bar_width (value maxPerformance : number) : number :=
  Number.mul (Number.div (Number.abs value) maxPerformance) Number.hundred.

(** The width that a bar without one holds after the assignment of
    [barWidth]. *)
Definition applied_width (barWidth : number) : option number :=
  if valid_width barWidth then Some barWidth else None.

(** The magnitudes that line 104 computes. *)
Definition magnitudes (values : list anyNumber) : list number :=
  flat_map (fun v => match Math_abs v with
                     | inr a => [a]
                     | inl _ => []
                     end) values.

(** [maxPerformance] of the sector chart. *)
Definition sector_max (data : list SectorPerformance) : number :=
  Math_max (magnitudes (sector_values data) ++ [Number.one]).

Fixpoint bars_from (className : number -> string -> string) (digits : nat)
    (id0 : nat) (ss : list (string * number)) : list BarWrapper :=
  match ss with
  | [] => []
  | s :: ss' =>
      mkBarWrapper "chart-bar-wrapper"
        (mkBar id0 (className (snd s) (fst s))
               (mkFixedPercent (snd s) digits) None)
      :: bars_from className digits (S id0) ss'
  end.

Fixpoint timers_from (maxPerformance : number) (id0 : nat)
    (ss : list (string * number)) : list Timer :=
  match ss with
  | [] => []
  | s :: ss' =>
      mkTimer id0 (bar_width (snd s) maxPerformance)
      :: timers_from maxPerformance (S id0) ss'
  end.

(** An item, as its label and its samples. *)
Definition Row : Type := (Label * list (string * number))%type.

Definition row_samples (rows : list Row) : list (string * number) :=
  flat_map snd rows.

Fixpoint items_from (className : number -> string -> string) (digits : nat)
    (id0 : nat) (rows : list Row) : list ItemContainer :=
  match rows with
  | [] => []
  | r :: rows' =>
      mkItemContainer "chart-bar-container" (fst r)
        (mkBarsGroup "chart-bars-group"
                     (bars_from className digits id0 (snd r)))
      :: items_from className digits (List.length (snd r) + id0) rows'
  end.

Definition period_samples (o : option PeriodPerformance)
    : list (string * number) :=
  match o with Some perf => numbers (samples perf) | None => [] end.

Definition sector_rows (data : list SectorPerformance) : list Row :=
  map (fun d => (mkLabel "chart-label" (LabelText (sector d)),
                 period_samples (performance d))) data.

Definition mwpl_rows (data : list MWPLStockPerformance) : list Row :=
  map (fun d => (mwpl_label d, period_samples (mwpl d))) data.

(** The page after [n] elements were created and [ts] timers scheduled. *)
Definition advance (n : nat) (ts : list Timer) (p : Page) : Page :=
  set_timers (timers p ++ ts)%list (set_next_id (n + next_id p) p).

(** A bar, and an item, after the timers [ts] have fired in order. *)
Definition settle_bar (ts : list Timer) (b : Bar) : Bar :=
  fold_left (fun b t => fire_bar t b) ts b.

Definition settle_item (ts : list Timer) (i : ItemContainer) : ItemContainer :=
  fold_left (fun i t => fire_item t i) ts i.

(** What is stated of a bar against the sample it is drawn for: its text,
    its class and its width once its timer has fired. *)
Definition bar_drawn (className : number -> string -> string) (digits : nat)
    (maxPerformance : number) (s : string * number) (b : Bar) : Prop :=
  bar_className b = className (snd s) (fst s) /\
  bar_textContent b = mkFixedPercent (snd s) digits /\
  bar_style_width b = applied_width (bar_width (snd s) maxPerformance).

Definition item_drawn (className : number -> string -> string) (digits : nat)
    (maxPerformance : number) (r : Row) (i : ItemContainer) : Prop :=
  item_className i = "chart-bar-container" /\
  item_label i = fst r /\
  group_className (item_barsGroup i) = "chart-bars-group" /\
  Forall2 (bar_drawn className digits maxPerformance) (snd r) (bars_of i).

(** A magnitude: what [Math.abs] gives of a Number that is not NaN. *)
Definition is_magnitude (x : number) : Prop :=
  match x with
  | S754_zero false | S754_infinity false | S754_finite false _ _ => True
  | _ => False
  end.

(** The place of a magnitude in the order of the Numbers: zero, then the
    finite ones by exponent and mantissa, then infinity. *)
Definition magnitude_key (x : number) : Z * Z * Z :=
  match x with
  | S754_zero _ => (0, 0, 0)%Z
  | S754_finite _ m e => (1, e, Zpos m)%Z
  | S754_infinity _ => (2, 0, 0)%Z
  | S754_nan => (3, 0, 0)%Z
  end.

Definition key_ge (a b : Z * Z * Z) : Prop :=
  (fst (fst a) > fst (fst b) \/
   (fst (fst a) = fst (fst b) /\
    (snd (fst a) > snd (fst b) \/
     (snd (fst a) = snd (fst b) /\ snd a >= snd b))))%Z.

(** The page once a renderer has put the heading and the legend in its
    container. *)
Definition sector_opened (p : Page) : Page :=
  upd_performanceContainer
    (appendChildren
       [LegendNode (mkLegend "chart-legend"
                             (legend_markup "current" "one-week" "two-weeks"))])
    (upd_performanceContainer
       (set_innerHTML "<h2>Sector Performance (%)</h2>") p).

Definition mwpl_opened (p : Page) : Page :=
  upd_mwplContainer
    (appendChildren
       [LegendNode (mkLegend "chart-legend"
                             (legend_markup "mwpl-current" "mwpl-one-week"
                                            "mwpl-two-weeks"))])
    (upd_mwplContainer (set_innerHTML "<h2>Top 10 Stocks by MWPL (%)</h2>") p).

(** An item of the sector chart has its period object, with numbers
    under the period keys that are there. *)
Definition sector_item_periods (d : SectorPerformance) : Prop :=
  exists perf, performance d = Some perf /\ numeric (map snd (samples perf)).
(* ================================================================== *)
(** * The sources, as pairs

    The set of serialized sources, read as the list of the pairs
    [(uri, title)] that the strings stand for. *)

Definition pair_eqb (a b : string * option string) : bool :=
  String.eqb (fst a) (fst b) &&
  match snd a, snd b with
  | Some x, Some y => String.eqb x y
  | None, None => true
  | _, _ => false
  end.

Definition add_pair (pairs : list (string * option string))
    (chunk : GroundingChunk) : list (string * option string) :=
  match web chunk with
  | Some w =>
      match uri w with
      | Some u =>
          if Str.truthy u
          then if existsb (pair_eqb (u, title w)) pairs
               then pairs
               else (pairs ++ [(u, title w)])%list
          else pairs
      | None => pairs
      end
  | None => pairs
  end.

Definition kept_pairs (chunks : list GroundingChunk)
    : list (string * option string) :=
  fold_left add_pair chunks [].

Definition stringify_pair (s : string * option string) : string :=
  Json.stringify_source (fst s) (snd s).

(** The page after the sources of a response have been displayed. *)
Definition sources_page (chunks : option (list GroundingChunk)) (p : Page)
    : Page :=
  match chunks with
  | None => p
  | Some cs =>
      match kept_pairs cs with
      | [] => set_sourcesList [] p
      | pairs =>
          set_sourcesContainer_display "block"
            (set_sourcesList (map source_link pairs) p)
      end
  end.

(** The values 10, -20 and 5 of the specification, in two sectors. *)
Definition sector_sample : list SectorPerformance :=
  [ mkSectorPerformance "NIFTY IT"
      (Some [("current", IsNumber (Number.of_Z 10));
             ("twoWeeksAgo", IsNumber (Number.of_Z (-20)))]);
    mkSectorPerformance "NIFTY BANK"
      (Some [("oneWeekAgo", IsNumber (Number.of_Z 5))]) ].

(** A stock within the range of the metric at one date, above it at
    another. *)
Definition mwpl_sample : list MWPLStockPerformance :=
  [ mkMWPLStockPerformance "RBLBANK" (Some "https://www.moneycontrol.com/rbl")
      (Some [("current", IsNumber (Number.of_Z 45));
             ("twoWeeksAgo", IsNumber (Number.of_Z 150))]) ].
(* ================================================================== *)
(** * The responses of the examples *)

Definition demo_summary : Summary :=
  mkSummary "Flat." "IT up." "None." "Rates held.".

Definition demo_summary_json : string :=
  "{" ++ Json.quote "marketOverview" ++ ":" ++ Json.quote "Flat." ++ "," ++
  Json.quote "keySectorNews" ++ ":" ++ Json.quote "IT up." ++ "," ++
  Json.quote "majorCorporateAnnouncements" ++ ":" ++ Json.quote "None." ++ "," ++
  Json.quote "economicPolicyFactors" ++ ":" ++ Json.quote "Rates held." ++ "}".

(** [{"summary":{...}}]: the summary alone. *)
Definition summary_only_json : string :=
  "{" ++ Json.quote "summary" ++ ":" ++ demo_summary_json ++ "}".

(** [{"summary":{...},"sectorPerformance":"n/a"}]: a string where the
    array of sectors is declared. *)
Definition sectors_not_array_json : string :=
  "{" ++ Json.quote "summary" ++ ":" ++ demo_summary_json ++ "," ++
  Json.quote "sectorPerformance" ++ ":" ++ Json.quote "n/a" ++ "}".

(** [{"summary":{...},"mwplPerformance":[{"stock":"RBLBANK"}]}]: a stock
    without its [mwpl] object. *)
Definition stock_without_mwpl_json : string :=
  "{" ++ Json.quote "summary" ++ ":" ++ demo_summary_json ++ "," ++
  Json.quote "mwplPerformance" ++ ":[{" ++ Json.quote "stock" ++ ":" ++
  Json.quote "RBLBANK" ++ "}]}".

Definition number_field (key value : string) : string :=
  Json.quote key ++ ":" ++ value.

(** The three sections: the sectors of [sector_sample] and the stock of
    [mwpl_sample]. *)
Definition three_sections_json : string :=
  "{" ++ Json.quote "summary" ++ ":" ++ demo_summary_json ++ "," ++
  Json.quote "sectorPerformance" ++ ":[{" ++
    Json.quote "sector" ++ ":" ++ Json.quote "NIFTY IT" ++ "," ++
    Json.quote "performance" ++ ":{" ++ number_field "current" "10" ++ "," ++
    number_field "twoWeeksAgo" "-20" ++ "}},{" ++
    Json.quote "sector" ++ ":" ++ Json.quote "NIFTY BANK" ++ "," ++
    Json.quote "performance" ++ ":{" ++ number_field "oneWeekAgo" "5" ++ "}}]," ++
  Json.quote "mwplPerformance" ++ ":[{" ++
    Json.quote "stock" ++ ":" ++ Json.quote "RBLBANK" ++ "," ++
    Json.quote "url" ++ ":" ++ Json.quote "https://www.moneycontrol.com/rbl" ++ "," ++
    Json.quote "mwpl" ++ ":{" ++ number_field "current" "45" ++ "," ++
    number_field "twoWeeksAgo" "150" ++ "}}]}".

(** [JSON.parse] on the texts above; any other text is refused. *)
Definition demo_parse (jsonString : string) : string + anyData :=
  if String.eqb jsonString summary_only_json then
    inr (DataValue (mkData (Some demo_summary) None None))
  else if String.eqb jsonString three_sections_json then
    inr (DataValue (mkData (Some demo_summary) (Some (IsArray sector_sample))
                           (Some (IsArray mwpl_sample))))
  else if String.eqb jsonString sectors_not_array_json then
    inr (DataValue (mkData (Some demo_summary) (Some NotAnArray) None))
  else if String.eqb jsonString stock_without_mwpl_json then
    inr (DataValue
           (mkData (Some demo_summary) None
                   (Some (IsArray [mkMWPLStockPerformance "RBLBANK" None None]))))
  else inl "Unexpected token".

(** A response that wraps [jsonString] in a fenced block after prose. *)
Definition fenced_response (jsonString : string) : GenerateContentResponse :=
  mkResponse
    (Some ("Here is the summary. ```json" ++ Str.LF ++ jsonString ++ Str.LF ++
           "```"))
    None.
(* ================================================================== *)
(** * The pages that the script reaches *)

(** A computation keeps the pending timers on elements that exist. *)
Definition keeps_fresh {A} (m : M A) : Prop :=
  forall p, timers_fresh p -> timers_fresh (page_of (m p)).

(** The pages reached from the page of the document by cycles of
    [fetchNews] and by the firing of the pending timers. *)
Inductive reachable (JSON_parse : string -> string + anyData) : Page -> Prop :=
| reach_initial : reachable JSON_parse initialPage
| reach_fetchNews (ai : option GoogleGenAI) (settled : Settled) (p : Page) :
    reachable JSON_parse p ->
    reachable JSON_parse (fetchNews JSON_parse ai settled p)
| reach_runTimers (p : Page) :
    reachable JSON_parse p -> reachable JSON_parse (runTimers p).
(* ================================================================== *)
(** * Further notions *)

(** A string of white space only. *)
Fixpoint all_ws (s : string) : bool :=
  match s with
  | EmptyString => true
  | String c s' => Str.isWhiteSpace c && all_ws s'
  end.

(** A computation leaves a part of the page as it found it, whether it
    returns or throws. *)
Definition keeps {A T} (f : Page -> T) (m : M A) : Prop :=
  forall p, f (page_of (m p)) = f p.

(** The rows of a section, when it is present and an array. *)
Definition sector_section_rows (o : option (anyArray SectorPerformance))
    : list Row :=
  match o with
  | Some (IsArray data) => sector_rows data
  | _ => []
  end.

Definition mwpl_section_rows (o : option (anyArray MWPLStockPerformance))
    : list Row :=
  match o with
  | Some (IsArray data) => mwpl_rows data
  | _ => []
  end.

(** The values of the sector section, under every key, and its
    [maxPerformance]. *)
Definition sector_section_values (o : option (anyArray SectorPerformance))
    : list anyNumber :=
  match o with
  | Some (IsArray data) => sector_values data
  | _ => []
  end.

Definition sector_section_max (o : option (anyArray SectorPerformance))
    : number :=
  match o with
  | Some (IsArray data) => sector_max data
  | _ => Number.one
  end.

(** All the bars of a chart container. *)
Definition all_bars (c : Container) : list Bar :=
  flat_map bars_of (items_of c).

(* ================================================================== *)
(** * [fetchNews] in two steps

    [fetchNews] is suspended once, at the [await] of the request.  The
    first step is [fetchNews_loading]; the second step runs from the page
    at the time the request settles. *)

Definition fetchNews_settled (JSON_parse : string -> string + anyData)
    (settled : Settled) (p : Page) : Page :=
  let p :=
    match fetchNews_try JSON_parse settled p with
    | Ok _ p' => p'
    | Throw error p' =>
        displayError
          ("An error occurred while fetching news: " ++ exn_toString error) p'
    end in
  setLoading false p.

(** The events of the dashboard: a click on the trigger, the request
    settling, the pending timers firing. *)
Inductive AppEvent : Type :=
| FetchClick
| RequestSettled (settled : Settled)
| TimersFire.

(** The page, and the number of calls of [fetchNews] that are suspended
    at their [await]. *)
Record App : Type := mkApp { app_page : Page; app_inflight : nat }.

Definition initialApp : App := mkApp initialPage 0.

(** One event.  The listener of line 393 is [fetchNews]; a button that is
    disabled gets no click; a request settles only if one is out. *)
Definition app_step (JSON_parse : string -> string + anyData)
    (ai : option GoogleGenAI) (a : App) (ev : AppEvent) : App :=
  match ev with
  | FetchClick =>
      if fetchBtn_disabled (app_page a) then a
      else
        match ai with
        | None =>
            mkApp (displayError "AI client is not initialized." (app_page a))
                  (app_inflight a)
        | Some _ =>
            mkApp (fetchNews_loading (app_page a)) (S (app_inflight a))
        end
  | RequestSettled settled =>
      match app_inflight a with
      | 0 => a
      | S n => mkApp (fetchNews_settled JSON_parse settled (app_page a)) n
      end
  | TimersFire => mkApp (runTimers (app_page a)) (app_inflight a)
  end.

Definition app_run (JSON_parse : string -> string + anyData)
    (ai : option GoogleGenAI) (evs : list AppEvent) (a : App) : App :=
  fold_left (app_step JSON_parse ai) evs a.

Definition is_FetchClick (ev : AppEvent) : bool :=
  match ev with
  | FetchClick => true
  | _ => false
  end.

(* ================================================================== *)
(** * The installation banner (lines 358 to 390) *)

(** The variable [deferredPrompt]: [undefined] until an event is stashed,
    the event, or [null] once it has been used. *)
Inductive Stash : Type :=
| StashUndefined
| StashNull
| StashEvent (e : nat).

(** The banner and the variable, and what the handlers do to the outside:
    the events on which [preventDefault()] and [prompt()] were called, the
    events whose [userChoice] a suspended click handler awaits, the lines
    written by [console.log], and the exceptions that a click handler threw
    (its promise is rejected and nobody handles it).  An event is named by
    a number; [prompt()] is taken to return. *)
Record Install : Type := mkInstall {
  installBanner_display : string;
  deferredPrompt : Stash;
  prevented : list nat;
  prompted : list nat;
  awaiting : list nat;
  console_log : list string;
  unhandled : list exn
}.

Definition initialInstall : Install :=
  mkInstall "" StashUndefined [] [] [] [] [].

(** The listener of [beforeinstallprompt]. *)
Definition on_beforeinstallprompt (e : nat) (s : Install) : Install :=
  mkInstall "flex" (StashEvent e) (prevented s ++ [e]) (prompted s)
            (awaiting s) (console_log s) (unhandled s).

(** The click listener of [installBtn], up to its [await]: the banner is
    hidden, then [deferredPrompt.prompt()] is called, which throws when the
    variable holds no event. *)
Definition on_install_click (s : Install) : Install :=
  match deferredPrompt s with
  | StashEvent e =>
      mkInstall "none" (deferredPrompt s) (prevented s) (prompted s ++ [e])
                (awaiting s ++ [e]) (console_log s) (unhandled s)
  | StashUndefined =>
      mkInstall "none" (deferredPrompt s) (prevented s) (prompted s)
                (awaiting s) (console_log s)
                (unhandled s ++
                 [TypeError "Cannot read properties of undefined (reading 'prompt')"])
  | StashNull =>
      mkInstall "none" (deferredPrompt s) (prevented s) (prompted s)
                (awaiting s) (console_log s)
                (unhandled s ++
                 [TypeError "Cannot read properties of null (reading 'prompt')"])
  end.

(** The rest of a click listener, once the [userChoice] it awaits is
    resolved with [outcome]. *)
Definition install_resume (outcome : string) (s : Install) : Install :=
  mkInstall (installBanner_display s) StashNull (prevented s) (prompted s)
            (awaiting s)
            (console_log s ++
             ["User response to the install prompt: " ++ outcome])
            (unhandled s).

(** The [userChoice] of the event [e] is resolved: every click listener
    that awaits it resumes, in the order they were suspended. *)
Definition on_userChoice (e : nat) (outcome : string) (s : Install) : Install :=
  let resumed := filter (Nat.eqb e) (awaiting s) in
  let s := fold_left (fun s _ => install_resume outcome s) resumed s in
  mkInstall (installBanner_display s) (deferredPrompt s) (prevented s)
            (prompted s)
            (filter (fun x => negb (Nat.eqb e x)) (awaiting s))
            (console_log s) (unhandled s).

(** The click listener of [dismissBtn]. *)
Definition on_dismiss_click (s : Install) : Install :=
  mkInstall "none" (deferredPrompt s) (prevented s) (prompted s)
            (awaiting s) (console_log s) (unhandled s).

(** The listener of [appinstalled]. *)
Definition on_appinstalled (s : Install) : Install :=
  mkInstall "none" StashNull (prevented s) (prompted s) (awaiting s)
            (console_log s ++ ["PWA was installed"]) (unhandled s).

Inductive InstallEvent : Type :=
| BeforeInstallPrompt (e : nat)
| InstallClick
| UserChoice (e : nat) (outcome : string)
| DismissClick
| AppInstalled.

Definition install_step (s : Install) (ev : InstallEvent) : Install :=
  match ev with
  | BeforeInstallPrompt e => on_beforeinstallprompt e s
  | InstallClick => on_install_click s
  | UserChoice e outcome => on_userChoice e outcome s
  | DismissClick => on_dismiss_click s
  | AppInstalled => on_appinstalled s
  end.

Definition install_run (evs : list InstallEvent) (s : Install) : Install :=
  fold_left install_step evs s.

(** A sequence of events in which the choice of the user follows at once
    each click that prompts: no other event comes between a click and the
    resolution it awaits. *)
Inductive Flow : Type :=
| FlowBeforeInstallPrompt (e : nat)
| FlowInstall (outcome : string)
| FlowDismiss
| FlowAppInstalled.

Definition flow_step (s : Install) (f : Flow) : Install :=
  match f with
  | FlowBeforeInstallPrompt e => install_step s (BeforeInstallPrompt e)
  | FlowInstall outcome =>
      match deferredPrompt s with
      | StashEvent e =>
          install_step (install_step s InstallClick) (UserChoice e outcome)
      | _ => install_step s InstallClick
      end
  | FlowDismiss => install_step s DismissClick
  | FlowAppInstalled => install_step s AppInstalled
  end.

Definition flow_run (fs : list Flow) (s : Install) : Install :=
  fold_left flow_step fs s.
(* ================================================================== *)
(** * Facts about strings *)

Section StringFacts.

Lemma append_assoc (a b c : string) : (a ++ b) ++ c = a ++ (b ++ c).
Proof. induction a as [|x a IH]; simpl; [reflexivity | now rewrite IH]. Qed.

Lemma append_nil_r (a : string) : a ++ "" = a.
Proof. induction a as [|x a IH]; simpl; [reflexivity | now rewrite IH]. Qed.

Lemma length_append (a b : string) :
  String.length (a ++ b) = (String.length a + String.length b)%nat.
Proof. induction a as [|x a IH]; simpl; [reflexivity | now rewrite IH]. Qed.

Lemma length_zero (a : string) : String.length a = 0%nat -> a = "".
Proof. destruct a; simpl; [reflexivity | discriminate]. Qed.

(** Two splits of one string at the same length are the same split. *)
Lemma append_same_length (a b c d : string) :
  a ++ b = c ++ d -> String.length a = String.length c -> a = c /\ b = d.
Proof.
  revert c; induction a as [|x a IH]; intros [|y c] H L;
    simpl in *; try discriminate.
  - now split.
  - injection H as -> H. injection L as L.
    destruct (IH _ H L) as [-> ->]. now split.
Qed.

Lemma strip_prefix_spec (p s r : string) :
  Str.strip_prefix p s = Some r <-> s = p ++ r.
Proof.
  revert s; induction p as [|a p IH]; intros s; simpl.
  - split; [now intros [= ->] | now intros ->].
  - destruct s as [|b s].
    + split; discriminate.
    + destruct (Ascii.eqb_spec a b) as [->|N].
      * rewrite IH. split; [now intros -> | now intros [= ->]].
      * split; [discriminate | intros [= E _]; now elim N].
Qed.

Lemma strip_prefix_none (p s : string) :
  Str.strip_prefix p s = None <-> forall r, s <> p ++ r.
Proof.
  split.
  - intros H r E. apply strip_prefix_spec in E. congruence.
  - intros H. destruct (Str.strip_prefix p s) as [r|] eqn:E; [|reflexivity].
    apply strip_prefix_spec in E. now elim (H r).
Qed.

Lemma startsWith_spec (s p : string) :
  Str.startsWith s p = true <-> exists r, s = p ++ r.
Proof.
  unfold Str.startsWith.
  destruct (Str.strip_prefix p s) as [r|] eqn:E.
  - apply strip_prefix_spec in E. split; [now exists r | reflexivity].
  - split; [discriminate | intros [r Hr]].
    apply strip_prefix_spec in Hr. congruence.
Qed.

Lemma endsWith_spec (s p : string) :
  Str.endsWith s p = true <-> exists q, s = q ++ p.
Proof.
  induction s as [|c s IH]; cbn [Str.endsWith].
  - rewrite orb_false_r, String.eqb_eq. split.
    + intros <-. now exists "".
    + intros [[|x q] H]; simpl in H; [now symmetry | discriminate].
  - rewrite orb_true_iff, String.eqb_eq, IH. split.
    + intros [<- | [q ->]]; [now exists "" | now exists (String c q)].
    + intros [[|x q] H]; simpl in H.
      * left. now symmetry.
      * injection H as -> ->. right. now exists q.
Qed.

End StringFacts.
(* ================================================================== *)
(** * The regular expression finds the first fenced block, lazily *)

Section FenceFacts.

Import Fence.

Lemma lazy_until_unfold (cl s : string) :
  lazy_until cl s =
  match Str.strip_prefix cl s with
  | Some _ => Some ""
  | None =>
      match s with
      | "" => None
      | String c s' =>
          match lazy_until cl s' with
          | Some r => Some (String c r)
          | None => None
          end
      end
  end.
Proof. destruct s; reflexivity. Qed.

Lemma lazy_until_sound (cl s c : string) :
  lazy_until cl s = Some c -> exists post, s = c ++ cl ++ post.
Proof.
  revert c; induction s as [|a s IH]; intros c; rewrite lazy_until_unfold.
  - destruct (Str.strip_prefix cl "") as [r|] eqn:E; [|discriminate].
    intros [= <-]. apply strip_prefix_spec in E. now exists r.
  - destruct (Str.strip_prefix cl (String a s)) as [r|] eqn:E.
    + intros [= <-]. apply strip_prefix_spec in E. now exists r.
    + destruct (lazy_until cl s) as [r|]; [|discriminate].
      intros [= <-]. destruct (IH r eq_refl) as [post ->]. now exists post.
Qed.

Lemma lazy_until_least (cl s c : string) :
  lazy_until cl s = Some c ->
  forall c' post', s = c' ++ cl ++ post' -> String.length c <= String.length c'.
Proof.
  revert c; induction s as [|a s IH]; intros c; rewrite lazy_until_unfold.
  - destruct (Str.strip_prefix cl ""); [|discriminate].
    intros [= <-] c' post' _. apply Nat.le_0_l.
  - destruct (Str.strip_prefix cl (String a s)) as [r|] eqn:E.
    + intros [= <-] c' post' _. apply Nat.le_0_l.
    + destruct (lazy_until cl s) as [r|] eqn:L; [|discriminate].
      intros [= <-] [|b c'] post' H; simpl in H.
      * rewrite strip_prefix_none in E. now elim (E post').
      * injection H as _ H. simpl. apply le_n_S. now apply (IH r eq_refl c' post').
Qed.

Lemma lazy_until_none (cl s : string) :
  lazy_until cl s = None -> forall c' post', s <> c' ++ cl ++ post'.
Proof.
  induction s as [|a s IH]; rewrite lazy_until_unfold.
  - destruct (Str.strip_prefix cl "") eqn:E; [discriminate|].
    intros _ [|b c'] post' H; simpl in H; [|discriminate].
    rewrite strip_prefix_none in E. now elim (E post').
  - destruct (Str.strip_prefix cl (String a s)) eqn:E; [discriminate|].
    destruct (lazy_until cl s) eqn:L; [discriminate|].
    intros _ [|b c'] post' H; simpl in H.
    + rewrite strip_prefix_none in E. now elim (E post').
    + injection H as _ H. now apply (IH eq_refl c' post').
Qed.

Lemma match_here_sound (s c : string) :
  match_here s = Some c ->
  (exists post, s = opener ++ c ++ closer ++ post) /\
  forall c' post', s = opener ++ c' ++ closer ++ post' ->
                   String.length c <= String.length c'.
Proof.
  unfold match_here.
  destruct (Str.strip_prefix opener s) as [rest|] eqn:E; [|discriminate].
  apply strip_prefix_spec in E. subst s. intros L. split.
  - destruct (lazy_until_sound _ _ _ L) as [post ->]. now exists post.
  - intros c' post' H.
    apply append_same_length in H as [_ H]; [|reflexivity].
    now apply (lazy_until_least _ _ _ L c' post').
Qed.

Lemma match_here_none (s : string) :
  match_here s = None -> forall c' post', s <> opener ++ c' ++ closer ++ post'.
Proof.
  unfold match_here. intros M c' post' H.
  destruct (Str.strip_prefix opener s) as [rest|] eqn:E.
  - apply strip_prefix_spec in E. subst s.
    apply append_same_length in H as [_ H]; [|reflexivity].
    now apply (lazy_until_none _ _ M c' post').
  - rewrite strip_prefix_none in E. now elim (E (c' ++ closer ++ post')).
Qed.

Lemma match_fence_unfold (s : string) :
  match_fence s =
  match match_here s with
  | Some c => Some c
  | None => match s with "" => None | String _ s' => match_fence s' end
  end.
Proof. destruct s; reflexivity. Qed.

Lemma match_fence_sound (s c : string) :
  match_fence s = Some c -> first_fenced s c.
Proof.
  revert c; induction s as [|a s IH]; intros c; rewrite match_fence_unfold.
  - destruct (match_here "") as [c0|] eqn:M; [|discriminate].
    intros [= <-]. destruct (match_here_sound _ _ M) as [[post E] _].
    discriminate E.
  - destruct (match_here (String a s)) as [c0|] eqn:M.
    + intros [= <-]. destruct (match_here_sound _ _ M) as [[post E] Least].
      exists "", post. split; [exact E|].
      intros [|b pre'] c' post' H.
      * right. split; [reflexivity|]. now apply (Least c' post').
      * left. simpl. lia.
    + intros F. destruct (IH c F) as (pre & post & E & Least).
      exists (String a pre), post. split; [simpl; now rewrite E|].
      intros [|b pre'] c' post' H.
      * now elim (match_here_none _ M c' post').
      * simpl in H. injection H as _ H.
        destruct (Least pre' c' post' H) as [L | [L1 L2]]; simpl.
        -- left. lia.
        -- right. split; [now f_equal | exact L2].
Qed.

Lemma match_fence_none (s : string) :
  match_fence s = None -> forall c, ~ fenced s c.
Proof.
  induction s as [|a s IH]; rewrite match_fence_unfold.
  - destruct (match_here "") eqn:M; [discriminate|].
    intros _ c ([|b pre] & post & H); simpl in H; [|discriminate].
    now elim (match_here_none _ M c post).
  - destruct (match_here (String a s)) eqn:M; [discriminate|].
    intros F c ([|b pre] & post & H); simpl in H.
    + now elim (match_here_none _ M c post).
    + injection H as _ H. apply (IH F c). now exists pre, post.
Qed.

Lemma first_fenced_fenced (t c : string) : first_fenced t c -> fenced t c.
Proof. intros (pre & post & E & _). now exists pre, post. Qed.

(** The first fenced block of a text is unique. *)
Lemma first_fenced_unique (t c c' : string) :
  first_fenced t c -> first_fenced t c' -> c = c'.
Proof.
  intros (p1 & q1 & E1 & L1) (p2 & q2 & E2 & L2).
  destruct (L1 _ _ _ E2) as [A | [A1 A2]];
    destruct (L2 _ _ _ E1) as [B | [B1 B2]]; try lia.
  assert (Len : String.length c = String.length c') by lia.
  rewrite E1 in E2.
  apply append_same_length in E2 as [_ E2]; [|exact A1].
  apply append_same_length in E2 as [_ E2]; [|reflexivity].
  now apply append_same_length in E2 as [E2 _].
Qed.

Lemma match_fence_iff (t c : string) :
  match_fence t = Some c <-> first_fenced t c.
Proof.
  split; [apply match_fence_sound|].
  intros H. destruct (match_fence t) as [c0|] eqn:M.
  - f_equal. apply (first_fenced_unique t); [now apply match_fence_sound | exact H].
  - elim (match_fence_none _ M c). now apply first_fenced_fenced.
Qed.

Lemma match_fence_none_iff (t : string) :
  match_fence t = None <-> forall c, ~ fenced t c.
Proof.
  split; [apply match_fence_none|].
  intros H. destruct (match_fence t) as [c|] eqn:M; [|reflexivity].
  elim (H c). apply first_fenced_fenced. now apply match_fence_sound.
Qed.

End FenceFacts.
(* ================================================================== *)
(** * The cycle of [fetchNews]: loading, failure, release *)

Section Controller.

Variable JSON_parse : string -> string + anyData.

(** [displayError] and [setLoading false] leave the content of the page
    alone. *)
Lemma displayError_content (m : string) (p : Page) :
  children (newsContainer (displayError m p)) = children (newsContainer p) /\
  children (performanceContainer (displayError m p)) =
    children (performanceContainer p) /\
  children (mwplContainer (displayError m p)) = children (mwplContainer p) /\
  sourcesList (displayError m p) = sourcesList p.
Proof. repeat split. Qed.

Lemma displayError_hides (m : string) (p : Page) :
  style_display (newsContainer (displayError m p)) = "none" /\
  style_display (performanceContainer (displayError m p)) = "none" /\
  style_display (mwplContainer (displayError m p)) = "none" /\
  sourcesContainer_display (displayError m p) = "none" /\
  errorMessage_display (displayError m p) = "block" /\
  errorMessage_textContent (displayError m p) = m.
Proof. repeat split. Qed.

(** What the page is while the request is out. *)
Lemma fetchNews_loading_page (p : Page) :
  fetchNews_loading p =
  mkPage true "block" (mkContainer [] "none") (mkContainer [] "none")
         (mkContainer [] "none") [] "none" (errorMessage_textContent p) "none"
         (next_id p) (timers p) (S (requests p)).
Proof. reflexivity. Qed.

(** A cycle whose [try] block throws ends in the failed state. *)
Lemma fetchNews_throw (settled : Settled) (p q : Page) (e : exn) :
  fetchNews_try JSON_parse settled (fetchNews_loading p) = Throw e q ->
  fetchNews JSON_parse (Some client) settled p =
  setLoading false
    (displayError ("An error occurred while fetching news: " ++ exn_toString e) q).
Proof. intros H. unfold fetchNews. now rewrite H. Qed.

Lemma fetchNews_ok (settled : Settled) (p q : Page) :
  fetchNews_try JSON_parse settled (fetchNews_loading p) = Ok tt q ->
  fetchNews JSON_parse (Some client) settled p = setLoading false q.
Proof. intros H. unfold fetchNews. now rewrite H. Qed.

(** The two failures of the extraction are told apart by their text,
    whatever the message of the engine. *)
Lemma syntax_error_text_differs (message : string) :
  exn_toString (SyntaxError message) <>
  exn_toString (Error "Could not find a valid JSON block in the response.").
Proof. destruct message; discriminate. Qed.

(** C8. Every cycle that enters the loading state, in which the trigger is
    disabled and the loader shown, ends with the trigger enabled again and
    the loader hidden, however the request settles and whatever the [try]
    block does after it: success, no JSON located, invalid JSON, a
    rejected request, an exception while rendering. *)
Theorem trigger_released_on_every_exit (settled : Settled) (p : Page) :
  (fetchBtn_disabled (fetchNews_loading p) = true /\
   loader_display (fetchNews_loading p) = "block") /\
  (fetchBtn_disabled (fetchNews JSON_parse (Some client) settled p) = false /\
   loader_display (fetchNews JSON_parse (Some client) settled p) = "none").
Proof. repeat split. Qed.

(** C10. When the construction of the client has thrown, [ai] is
    unassigned and every call of [fetchNews] displays that the client is
    not initialized and returns at once: the loader, the content of the
    result containers and of the list of sources, the count of requests and
    the state of the trigger are what they were, and a further call leaves
    the same page. *)
Theorem uninitialized_client_returns_early
    (e : exn) (p0 : Page) (settled : Settled) (p : Page) :
  let ai := fst (initialize (inl e) p0) in
  let p' := fetchNews JSON_parse ai settled p in
  ai = None /\
  errorMessage_textContent p' = "AI client is not initialized." /\
  errorMessage_display p' = "block" /\
  loader_display p' = loader_display p /\
  children (newsContainer p') = children (newsContainer p) /\
  children (performanceContainer p') = children (performanceContainer p) /\
  children (mwplContainer p') = children (mwplContainer p) /\
  sourcesList p' = sourcesList p /\
  requests p' = requests p /\
  fetchBtn_disabled p' = fetchBtn_disabled p /\
  fetchNews JSON_parse ai settled p' = p'.
Proof. repeat split. Qed.

End Controller.

(** The page after a failed start of the client and two clicks. *)
Example uninitialized_client_two_clicks :
  let ai_p := initialize (inl (Error "An API Key must be set")) initialPage in
  let click := fetchNews (fun _ => inl "unused") (fst ai_p)
                         (Rejected (Error "unused")) in
  fetchBtn_disabled (click (click (snd ai_p))) = false /\
  loader_display (click (click (snd ai_p))) = "" /\
  requests (click (click (snd ai_p))) = 0 /\
  errorMessage_textContent (click (click (snd ai_p))) =
    "AI client is not initialized.".
Proof. repeat split. Qed.

(* ================================================================== *)
(** * [renderSummary] *)

(** C9. The markup assigned to the summary container is a fixed template
    into which the four fields are spliced as they are: whatever markup a
    field holds is part of the markup that the container parses. *)
Theorem summary_fields_spliced_verbatim :
  exists t0 t1 t2 t3 t4 : string,
    forall (s : Summary) (p : Page),
      exists p',
        renderSummary s p = Ok tt p' /\
        children (newsContainer p') =
          [Markup (t0 ++ marketOverview s ++ t1 ++ keySectorNews s ++ t2 ++
                   majorCorporateAnnouncements s ++ t3 ++
                   economicPolicyFactors s ++ t4)] /\
        style_display (newsContainer p') = "block".
Proof.
  exists (Str.LF ++ "    <h2>Market Summary</h2>" ++
          Str.LF ++ "    <h3>Market Overview</h3>" ++ Str.LF ++ "    <p>"),
         ("</p>" ++ Str.LF ++ "    <h3>Key Sector News</h3>" ++
          Str.LF ++ "    <p>"),
         ("</p>" ++ Str.LF ++ "    <h3>Major Corporate Announcements</h3>" ++
          Str.LF ++ "    <p>"),
         ("</p>" ++ Str.LF ++ "    <h3>Economic/Policy Factors</h3>" ++
          Str.LF ++ "    <p>"),
         ("</p>" ++ Str.LF ++ "  ").
  intros s p. eexists. split; [reflexivity|]. split; [|reflexivity].
  reflexivity.
Qed.

(** A field that holds an element is spliced as an element. *)
Example summary_markup_in_field :
  let s := mkSummary "<img src=x onerror=alert(1)>" "b" "c" "d" in
  exists pre post,
    children (newsContainer (page_of (renderSummary s initialPage))) =
    [Markup (pre ++ "<p><img src=x onerror=alert(1)></p>" ++ post)].
Proof.
  exists (Str.LF ++ "    <h2>Market Summary</h2>" ++
          Str.LF ++ "    <h3>Market Overview</h3>" ++ Str.LF ++ "    "),
         (Str.LF ++ "    <h3>Key Sector News</h3>" ++
          Str.LF ++ "    <p>b</p>" ++
          Str.LF ++ "    <h3>Major Corporate Announcements</h3>" ++
          Str.LF ++ "    <p>c</p>" ++
          Str.LF ++ "    <h3>Economic/Policy Factors</h3>" ++
          Str.LF ++ "    <p>d</p>" ++ Str.LF ++ "  ").
  reflexivity.
Qed.
(* ================================================================== *)
(** * Locating and parsing the payload *)

Section Extraction.

Import Fence.

Lemma locate_no_match (t : string) :
  (forall c, ~ fenced t c) \/ first_fenced t "" ->
  locate_jsonString t =
  if Str.startsWith t "{" && Str.endsWith t "}"
  then inr t
  else inl (Error "Could not find a valid JSON block in the response.").
Proof.
  unfold locate_jsonString. intros [H | H].
  - apply match_fence_none_iff in H. now rewrite H.
  - apply match_fence_iff in H. now rewrite H.
Qed.

(** The only failure of the extraction is the one error of line 307. *)
Lemma locate_error (t : string) (e : exn) :
  locate_jsonString t = inl e ->
  e = Error "Could not find a valid JSON block in the response.".
Proof.
  unfold locate_jsonString.
  destruct (match_fence t) as [[|a c]|]; cbn [Str.truthy];
    destruct (Str.startsWith t "{" && Str.endsWith t "}"); congruence.
Qed.

(** C1, as the code has it. For every raw text, on its trimmed form: when
    the first fenced block, taken lazily, has a content that is not empty,
    that content is returned; when there is no fenced block, or the first
    one is empty, the trimmed text is returned if it starts with an opening
    brace and ends with a closing one, and the extraction fails with the
    error of line 307 otherwise. *)
Theorem payload_located (raw : string) :
  let t := Str.trim raw in
  (forall c, first_fenced t c -> c <> "" -> locate_jsonString t = inr c) /\
  ((forall c, ~ fenced t c) \/ first_fenced t "" ->
   (exists r, t = "{" ++ r) /\ (exists q, t = q ++ "}") ->
   locate_jsonString t = inr t) /\
  ((forall c, ~ fenced t c) \/ first_fenced t "" ->
   ~ ((exists r, t = "{" ++ r) /\ (exists q, t = q ++ "}")) ->
   locate_jsonString t =
   inl (Error "Could not find a valid JSON block in the response.")).
Proof.
  intros t. repeat split.
  - intros c F N. apply match_fence_iff in F.
    unfold locate_jsonString. rewrite F.
    destruct c; [now elim N | reflexivity].
  - intros H [S E]. rewrite (locate_no_match _ H).
    apply startsWith_spec in S. apply endsWith_spec in E.
    now rewrite S, E.
  - intros H N. rewrite (locate_no_match _ H).
    destruct (Str.startsWith t "{") eqn:S; [|reflexivity].
    destruct (Str.endsWith t "}") eqn:E; [|reflexivity].
    elim N. split; [now apply startsWith_spec | now apply endsWith_spec].
Qed.

(** A fenced block after prose, with text after it. *)
Lemma payload_located_witness :
  locate_jsonString
    (Str.trim ("  Here it is: ```json" ++ Str.LF ++ "{}" ++ Str.LF ++
               "``` and more.  ")) = inr "{}".
Proof.
  apply (proj1 (payload_located _)).
  - apply match_fence_iff. reflexivity.
  - discriminate.
Defined.

(** C1 as stated fails on a fenced block that is empty: the block is
    there, and its content is not what the extraction gives. *)
Lemma empty_fence_is_not_returned :
  let raw := "```json" ++ Str.LF ++ Str.LF ++ "```" in
  first_fenced (Str.trim raw) "" /\
  locate_jsonString (Str.trim raw) <> inr "".
Proof.
  split.
  - apply match_fence_iff. reflexivity.
  - discriminate.
Qed.

(** With braces around it, an empty fenced block gives the whole text. *)
Example empty_fence_falls_back :
  let raw := "{ ```json" ++ Str.LF ++ Str.LF ++ "``` }" in
  first_fenced (Str.trim raw) "" /\
  locate_jsonString (Str.trim raw) = inr raw.
Proof. split; [apply match_fence_iff|]; reflexivity. Qed.

(** Of two fenced blocks the first is taken, and it ends at the first
    closing marker. *)
Example first_fence_is_taken :
  locate_jsonString
    (Str.trim ("```json" ++ Str.LF ++ "{1}" ++ Str.LF ++ "``` then {2}" ++
               Str.LF ++ "``` and ```json" ++ Str.LF ++ "{3}" ++ Str.LF ++
               "```")) = inr "{1}".
Proof. reflexivity. Qed.

Example trim_both_ends :
  Str.trim (Str.LF ++ "  a b " ++ String "160"%char (String "009"%char "")) =
  "a b".
Proof. reflexivity. Qed.

Example bare_json_located :
  locate_jsonString (Str.trim (Str.LF ++ "  {} " ++ Str.LF)) = inr "{}".
Proof. reflexivity. Qed.

Example no_json_here :
  locate_jsonString (Str.trim "no json here") =
  inl (Error "Could not find a valid JSON block in the response.").
Proof. reflexivity. Qed.

Variable JSON_parse : string -> string + anyData.

(** A response in which no payload is located: the cycle fails with the
    text of the error of line 307. *)
Lemma no_payload_fails (result : GenerateContentResponse) (t : string)
    (e : exn) (p : Page) :
  text result = Some t ->
  locate_jsonString (Str.trim t) = inl e ->
  errorMessage_textContent
    (fetchNews JSON_parse (Some client) (Fulfilled result) p) =
  "An error occurred while fetching news: " ++
  exn_toString (Error "Could not find a valid JSON block in the response.").
Proof.
  intros T L. rewrite (locate_error _ _ L) in L.
  rewrite (fetchNews_throw JSON_parse _ p (fetchNews_loading p)
             (Error "Could not find a valid JSON block in the response.")).
  - reflexivity.
  - unfold fetchNews_try. now rewrite T, L.
Qed.

(** C7. When a payload is located and [JSON.parse] rejects it, the [try]
    block throws a [SyntaxError], which is not the error thrown when no
    payload is located; the text displayed differs from the text displayed
    by any cycle in which no payload is located; and nothing is rendered:
    the three result containers and the list of sources are empty and
    hidden. *)
Theorem invalid_json_fails_distinctly
    (result : GenerateContentResponse) (t jsonString message : string)
    (p : Page) :
  text result = Some t ->
  locate_jsonString (Str.trim t) = inr jsonString ->
  JSON_parse jsonString = inl message ->
  let p' := fetchNews JSON_parse (Some client) (Fulfilled result) p in
  fetchNews_try JSON_parse (Fulfilled result) (fetchNews_loading p) =
    Throw (SyntaxError message) (fetchNews_loading p) /\
  SyntaxError message <>
    Error "Could not find a valid JSON block in the response." /\
  errorMessage_display p' = "block" /\
  errorMessage_textContent p' =
    "An error occurred while fetching news: " ++
    exn_toString (SyntaxError message) /\
  (forall result0 t0 e0 p0,
      text result0 = Some t0 ->
      locate_jsonString (Str.trim t0) = inl e0 ->
      errorMessage_textContent
        (fetchNews JSON_parse (Some client) (Fulfilled result0) p0) <>
      errorMessage_textContent p') /\
  newsContainer p' = mkContainer [] "none" /\
  performanceContainer p' = mkContainer [] "none" /\
  mwplContainer p' = mkContainer [] "none" /\
  sourcesList p' = [] /\
  sourcesContainer_display p' = "none".
Proof.
  intros T L P p'.
  assert (Try : fetchNews_try JSON_parse (Fulfilled result) (fetchNews_loading p) =
                Throw (SyntaxError message) (fetchNews_loading p)).
  { unfold fetchNews_try. now rewrite T, L, P. }
  assert (E : p' = setLoading false
                     (displayError ("An error occurred while fetching news: " ++
                                    exn_toString (SyntaxError message))
                                   (fetchNews_loading p))).
  { apply fetchNews_throw. exact Try. }
  split; [exact Try|]. split; [discriminate|].
  rewrite E. split; [reflexivity|]. split; [reflexivity|].
  split; [|repeat split].
  intros result0 t0 e0 p0 T0 L0.
  rewrite (no_payload_fails _ _ _ p0 T0 L0). cbn [errorMessage_textContent
    setLoading set_fetchBtn_disabled set_loader_display displayError
    set_errorMessage_display set_errorMessage_textContent].
  intros H. apply append_same_length in H as [_ H]; [|reflexivity].
  now apply (syntax_error_text_differs message).
Qed.

End Extraction.

(** A fenced block that is not JSON, with an engine that says so. *)
Lemma invalid_json_fails_distinctly_witness :
  let result :=
    mkResponse (Some ("```json" ++ Str.LF ++ "{oops" ++ Str.LF ++ "```")) None in
  let p' := fetchNews (fun _ => inl "Unexpected token o")
                      (Some client) (Fulfilled result) initialPage in
  errorMessage_textContent p' =
    "An error occurred while fetching news: SyntaxError: Unexpected token o" /\
  newsContainer p' = mkContainer [] "none".
Proof.
  pose proof (invalid_json_fails_distinctly (fun _ => inl "Unexpected token o")
                (mkResponse (Some ("```json" ++ Str.LF ++ "{oops" ++ Str.LF ++ "```")) None)
                _ "{oops" "Unexpected token o" initialPage
                eq_refl eq_refl eq_refl) as H.
  split; [apply H | apply H].
Defined.
(* ================================================================== *)
(** * The charts *)

Section MathMax.

Lemma abs_is_magnitude (x : number) :
  Number.isNaN x = false -> is_magnitude (Number.abs x).
Proof. destruct x; cbn; intros H; (exact I || discriminate H). Qed.

Lemma one_is_magnitude : is_magnitude Number.one.
Proof. exact I. Qed.

Lemma magnitude_not_NaN (x : number) : is_magnitude x -> Number.isNaN x = false.
Proof. destruct x as [[|]|[|]| |[|] m e]; cbn; intros H; (reflexivity || elim H). Qed.

(** The order of the Numbers on magnitudes, read on their keys. *)
Lemma ge_key (x y : number) :
  is_magnitude x -> is_magnitude y ->
  (Number.ge x y = true <-> key_ge (magnitude_key x) (magnitude_key y)).
Proof.
  destruct x as [[|]|[|]| |[|] m e]; cbn; intros Hx; try elim Hx;
  destruct y as [[|]|[|]| |[|] m' e']; cbn; intros Hy; try elim Hy;
    unfold Number.ge, key_ge; cbn;
    try (split; [intros _; lia | reflexivity]);
    try (split; [discriminate | lia]).
  change (Pos.compare_cont Eq m m') with (Pos.compare m m').
  destruct (Z.compare_spec e e') as [He|He|He],
           (Pos.compare_spec m m') as [Hm|Hm|Hm];
    split; intros K; try reflexivity; try discriminate; lia.
Qed.

Lemma gt_key (x y : number) :
  is_magnitude x -> is_magnitude y ->
  (Number.gt x y = true <-> ~ key_ge (magnitude_key y) (magnitude_key x)).
Proof.
  destruct x as [[|]|[|]| |[|] m e]; cbn; intros Hx; try elim Hx;
  destruct y as [[|]|[|]| |[|] m' e']; cbn; intros Hy; try elim Hy;
    unfold Number.gt, key_ge; cbn;
    try (split; [intros _; lia | reflexivity]);
    try (split; [discriminate | lia]).
  change (Pos.compare_cont Eq m m') with (Pos.compare m m').
  destruct (Z.compare_spec e e') as [He|He|He],
           (Pos.compare_spec m m') as [Hm|Hm|Hm];
    split; intros K; try reflexivity; try discriminate; lia.
Qed.

Lemma ge_refl (x : number) : is_magnitude x -> Number.ge x x = true.
Proof. intros H. apply ge_key; [exact H | exact H |]. unfold key_ge. lia. Qed.

Lemma ge_trans (x y z : number) :
  is_magnitude x -> is_magnitude y -> is_magnitude z ->
  Number.ge x y = true -> Number.ge y z = true -> Number.ge x z = true.
Proof.
  intros Hx Hy Hz A B.
  apply ge_key in A; [|assumption..]. apply ge_key in B; [|assumption..].
  apply ge_key; [assumption..|]. unfold key_ge in *. lia.
Qed.

(** The loop of [Math.max] from a magnitude, over magnitudes: it ends on
    [highest] or on an argument, which is at least [highest] and at least
    every argument. *)
Lemma Math_max_from_magnitudes (args : list number) (highest : number) :
  is_magnitude highest -> Forall is_magnitude args ->
  let m := Math_max_from highest args in
  is_magnitude m /\
  Number.ge m highest = true /\
  Forall (fun x => Number.ge m x = true) args /\
  (m = highest \/ In m args).
Proof.
  intros Hh Ha. revert highest Hh.
  induction Ha as [|x args Hx _ IH]; intros highest Hh.
  - cbn. repeat split; [exact Hh | now apply ge_refl | constructor | now left].
  - cbn [Math_max_from]. rewrite (magnitude_not_NaN _ Hx).
    assert (E : match x, highest with
                | S754_zero false, S754_zero true => Math_max_from x args
                | _, _ => if Number.gt x highest then Math_max_from x args
                          else Math_max_from highest args
                end =
                if Number.gt x highest then Math_max_from x args
                else Math_max_from highest args).
    { destruct x as [[|]|[|]| |[|] m e]; try reflexivity;
        destruct highest as [[|]|[|]| |[|] m' e']; try reflexivity; elim Hh. }
    rewrite E. clear E.
    destruct (Number.gt x highest) eqn:G.
    + destruct (IH x Hx) as (M & G1 & G2 & G3).
      apply gt_key in G; [|assumption..].
      assert (Gxh : Number.ge x highest = true).
      { apply ge_key; [assumption..|]. unfold key_ge in *. lia. }
      split; [exact M|]. split; [now apply (ge_trans _ x)|].
      split; [now constructor|].
      destruct G3 as [-> | G3]; right; [now left | now right].
    + destruct (IH highest Hh) as (M & G1 & G2 & G3).
      assert (Ghx : Number.ge highest x = true).
      { apply ge_key; [assumption..|].
        destruct (Number.ge highest x) eqn:Ghx.
        - now apply ge_key in Ghx.
        - assert (N : ~ key_ge (magnitude_key highest) (magnitude_key x)).
          { intros K. apply ge_key in K; [congruence | assumption..]. }
          apply gt_key in N; [congruence | assumption..]. }
      split; [exact M|]. split; [exact G1|].
      split; [constructor; [now apply (ge_trans _ highest)| exact G2]|].
      destruct G3 as [-> | G3]; [now left | right; now right].
Qed.

(** [Math.max] of magnitudes and of 1 at the end. *)
Lemma Math_max_magnitudes (args : list number) :
  Forall is_magnitude args ->
  let m := Math_max (args ++ [Number.one]) in
  is_magnitude m /\
  Forall (fun x => Number.ge m x = true) (args ++ [Number.one]) /\
  In m (args ++ [Number.one]).
Proof.
  intros Ha.
  assert (F : Forall is_magnitude (args ++ [Number.one])).
  { apply Forall_app. split; [exact Ha | repeat constructor]. }
  destruct (args ++ [Number.one])%list as [|x rest] eqn:E.
  - now destruct args.
  - inversion F as [|? ? Hx Hr]; subst.
    assert (S : Math_max (x :: rest) = Math_max_from x rest).
    { unfold Math_max. cbn [Math_max_from].
      rewrite (magnitude_not_NaN _ Hx).
      destruct x as [[|]|[|]| |[|] m e]; try reflexivity; elim Hx. }
    cbv zeta. rewrite S.
    destruct (Math_max_from_magnitudes rest x Hx Hr) as (M & G1 & G2 & G3).
    split; [exact M|]. split; [now constructor|].
    destruct G3 as [-> | G3]; [now left | now right].
Qed.

(** The magnitudes of values that are numbers. *)
Lemma magnitudes_numbers (values : list anyNumber) :
  numeric values ->
  magnitudes values = map Number.abs (number_values values).
Proof.
  induction 1 as [|v values (x & ->) _ IH]; [reflexivity|].
  cbn [magnitudes number_values flat_map app map Math_abs ToNumber].
  fold (magnitudes values). fold (number_values values). now rewrite IH.
Qed.

(** The maximum of the magnitudes, floored at 1. *)
Lemma Math_max_relative (values : list number) :
  Forall (fun x => Number.isNaN x = false) values ->
  relative_max values (Math_max (map Number.abs values ++ [Number.one])).
Proof.
  intros N.
  assert (F : Forall is_magnitude (map Number.abs values)).
  { apply Forall_map. eapply Forall_impl; [|exact N].
    intros x. apply abs_is_magnitude. }
  destruct (Math_max_magnitudes _ F) as (_ & G & I).
  rewrite Forall_forall in G. repeat split.
  - apply G. apply in_or_app. right. now left.
  - intros v Iv. apply G. apply in_or_app. left. now apply in_map.
  - apply in_app_or in I as [I | [<- | []]].
    + right. apply in_map_iff in I as (v & <- & I). now exists v.
    + now left.
Qed.

End MathMax.

Section Loops.

Lemma bind_Ok {A B} (m : M A) (k : A -> M B) (p p' : Page) (a : A) :
  m p = Ok a p' -> bind m k p = k a p'.
Proof. intros H. unfold bind. now rewrite H. Qed.

Lemma bind_Throw {A B} (m : M A) (k : A -> M B) (p p' : Page) (e : exn) :
  m p = Throw e p' -> bind m k p = Throw e p'.
Proof. intros H. unfold bind. now rewrite H. Qed.

Lemma advance_0 (p : Page) : advance 0 [] p = p.
Proof.
  destruct p. unfold advance, set_timers, set_next_id. cbn.
  now rewrite app_nil_r.
Qed.

Lemma advance_advance (n m : nat) (ts us : list Timer) (p : Page) :
  advance m us (advance n ts p) = advance (n + m) (ts ++ us) p.
Proof.
  destruct p. unfold advance, set_timers, set_next_id. cbn.
  f_equal; [lia | now rewrite app_assoc].
Qed.

(** An element was created and no timer scheduled. *)
Lemma advance_created (p : Page) :
  set_next_id (S (next_id p)) p = advance 1 [] p.
Proof.
  destruct p. unfold advance, set_timers, set_next_id. cbn.
  now rewrite app_nil_r.
Qed.

Lemma samples_periods (perf : PeriodPerformance) :
  samples_of_periods (periods_of perf) = samples perf.
Proof.
  unfold samples_of_periods, periods_of, samples.
  cbn [flat_map period_className period_value]. now rewrite app_nil_r.
Qed.

Lemma numbers_app (ss us : list (string * anyNumber)) :
  numbers (ss ++ us) = (numbers ss ++ numbers us)%list.
Proof. apply flat_map_app. Qed.

Lemma timers_from_app (m : number) (id0 : nat) (ss us : list (string * number)) :
  timers_from m id0 (ss ++ us) =
  (timers_from m id0 ss ++ timers_from m (List.length ss + id0) us)%list.
Proof.
  revert id0; induction ss as [|s ss IH]; intros id0; simpl.
  - reflexivity.
  - rewrite IH. now rewrite Nat.add_succ_r.
Qed.

Lemma sector_className_number (x : number) (c : string) :
  sector_className (IsNumber x) c = inr (sector_bar_class x c).
Proof. reflexivity. Qed.

Lemma sector_className_error (v : anyNumber) (c : string) (e : exn) :
  sector_className v c = inl e -> exn_name e = "TypeError".
Proof.
  destruct v as [x| |[y|]]; cbn; try discriminate. now intros [= <-].
Qed.

Lemma mwpl_className_number (x : number) (c : string) :
  mwpl_className (IsNumber x) c = inr (mwpl_bar_class x c).
Proof. reflexivity. Qed.

Lemma mwpl_className_error (v : anyNumber) (c : string) (e : exn) :
  mwpl_className v c = inl e -> exn_name e = "TypeError".
Proof. discriminate. Qed.

Section Bars.

Variable className : anyNumber -> string -> exn + string.
Variable cls : number -> string -> string.
Hypothesis className_number :
  forall x c, className (IsNumber x) c = inr (cls x c).
Hypothesis className_error :
  forall v c e, className v c = inl e -> exn_name e = "TypeError".

(** The bar of a value that is a number. *)
Lemma renderBar_run (digits : nat) (m : number) (c : string) (x : number)
    (p : Page) :
  renderBar className digits m c (IsNumber x) p =
  Ok (mkBarWrapper "chart-bar-wrapper"
        (mkBar (next_id p) (cls x c) (mkFixedPercent x digits) None))
     (advance 1 [mkTimer (next_id p) (bar_width x m)] p).
Proof.
  unfold renderBar, bind, createBar. rewrite className_number. reflexivity.
Qed.

(** The bar of a value that is there and is not a number: the element is
    created, and line 130 or line 132 throws before a timer is scheduled. *)
Lemma renderBar_not_number (digits : nat) (m : number) (c : string)
    (v : anyNumber) (p : Page) :
  (forall x, v <> IsNumber x) ->
  exists e,
    renderBar className digits m c v p = Throw e (advance 1 [] p) /\
    exn_name e = "TypeError".
Proof.
  intros N. rewrite <- advance_created.
  unfold renderBar, bind, createBar.
  destruct (className v c) as [e | s] eqn:C.
  - exists e. split; [reflexivity | now apply (className_error v c)].
  - destruct v as [x| |t]; [now elim (N x)| |]; eexists; split; reflexivity.
Qed.

(** The loop over the periods of one item whose period values are
    numbers. *)
Lemma forPeriods_run (digits : nat) (m : number) (periods : list Period)
    (p : Page) :
  numeric (map snd (samples_of_periods periods)) ->
  let ss := numbers (samples_of_periods periods) in
  forPeriods (renderBar className digits m) periods p =
  Ok (bars_from cls digits (next_id p) ss)
     (advance (List.length ss) (timers_from m (next_id p) ss) p).
Proof.
  revert p; induction periods as [|pd periods IH]; intros p N.
  - cbn. now rewrite advance_0.
  - cbn [forPeriods samples_of_periods flat_map] in *.
    fold (samples_of_periods periods) in *.
    destruct (period_value pd) as [v|]; cbn [present map app] in *.
    + inversion N as [|? ? (x & ->) N']; subst.
      rewrite (bind_Ok _ _ _ _ _ (renderBar_run _ _ _ _ _)).
      rewrite (bind_Ok _ _ _ _ _ (IH _ N')).
      unfold ret. rewrite advance_advance. reflexivity.
    + now apply IH.
Qed.

(** The loop returns or throws; a page it leaves is the page it found
    but for the elements created and the timers scheduled, it returns
    only if the period values are numbers, and what it throws is a
    [TypeError]. *)
Lemma forPeriods_cases (digits : nat) (m : number) (periods : list Period)
    (p : Page) :
  (numeric (map snd (samples_of_periods periods)) /\
   exists ws n ts,
     forPeriods (renderBar className digits m) periods p =
     Ok ws (advance n ts p)) \/
  (~ numeric (map snd (samples_of_periods periods)) /\
   exists e n ts,
     forPeriods (renderBar className digits m) periods p =
     Throw e (advance n ts p) /\
     exn_name e = "TypeError").
Proof.
  revert p; induction periods as [|pd periods IH]; intros p.
  - left. split; [constructor|]. exists [], 0, []. cbn. now rewrite advance_0.
  - cbn [forPeriods samples_of_periods flat_map].
    fold (samples_of_periods periods).
    destruct (period_value pd) as [v|]; cbn [present map app]; [|apply IH].
    destruct v as [x| |t].
    + rewrite (bind_Ok _ _ _ _ _ (renderBar_run _ _ _ _ _)).
      destruct (IH (advance 1 [mkTimer (next_id p) (bar_width x m)] p))
        as [(N & ws & n & ts & E) | (N & e & n & ts & E & T)].
      * left. split; [constructor; [now exists x | exact N]|].
        rewrite (bind_Ok _ _ _ _ _ E). unfold ret.
        rewrite advance_advance. now do 3 eexists.
      * right. split; [intros F; apply N; now inversion F|].
        rewrite (bind_Throw _ _ _ _ _ E).
        rewrite advance_advance. now do 3 eexists.
    + right. split; [intros F; inversion F as [|? ? (x & Hx) _]; discriminate Hx|].
      destruct (renderBar_not_number digits m (period_className pd) IsNull p)
        as (e & E & T); [discriminate|].
      rewrite (bind_Throw _ _ _ _ _ E). now exists e, 1, [].
    + right. split; [intros F; inversion F as [|? ? (x & Hx) _]; discriminate Hx|].
      destruct (renderBar_not_number digits m (period_className pd)
                  (NotANumber t) p) as (e & E & T); [discriminate|].
      rewrite (bind_Throw _ _ _ _ _ E). now exists e, 1, [].
Qed.

End Bars.

(** The loop over the items: each item is built out of its row. *)
Lemma forEach_rows {A} (f : A -> M ItemContainer) (row : A -> Row)
    (cls : number -> string -> string) (digits : nat) (m : number)
    (data : list A) :
  (forall d p, In d data ->
     f d p =
     Ok (mkItemContainer "chart-bar-container" (fst (row d))
           (mkBarsGroup "chart-bars-group"
              (bars_from cls digits (next_id p) (snd (row d)))))
        (advance (List.length (snd (row d)))
                 (timers_from m (next_id p) (snd (row d))) p)) ->
  forall p,
    forEach f data p =
    Ok (items_from cls digits (next_id p) (map row data))
       (advance (List.length (row_samples (map row data)))
                (timers_from m (next_id p) (row_samples (map row data))) p).
Proof.
  induction data as [|d data IH]; intros F p.
  - cbn. now rewrite advance_0.
  - cbn [forEach].
    rewrite (bind_Ok _ _ _ _ _ (F d p (or_introl eq_refl))).
    rewrite (bind_Ok _ _ _ _ _ (IH (fun d' p' I => F d' p' (or_intror I)) _)).
    unfold ret. rewrite advance_advance.
    cbn [map items_from row_samples flat_map].
    fold (row_samples (map row data)).
    rewrite length_app, timers_from_app.
    reflexivity.
Qed.

(** A loop over items whose callback leaves the page it found but for
    the elements created and the timers scheduled: so does the loop; it
    returns only if the callback returns on every item, and it throws
    what the callback throws. *)
Lemma forEach_cases {A B} (f : A -> M B) (P : A -> Prop) (data : list A) :
  (forall d p,
      (P d /\ exists b n ts, f d p = Ok b (advance n ts p)) \/
      (~ P d /\ exists e n ts,
          f d p = Throw e (advance n ts p) /\ exn_name e = "TypeError")) ->
  forall p,
    (Forall P data /\ exists bs n ts, forEach f data p = Ok bs (advance n ts p)) \/
    (~ Forall P data /\ exists e n ts,
        forEach f data p = Throw e (advance n ts p) /\
        exn_name e = "TypeError").
Proof.
  intros H. induction data as [|d data IH]; intros p.
  - left. split; [constructor|]. exists [], 0, []. cbn. now rewrite advance_0.
  - cbn [forEach].
    destruct (H d p) as [(Pd & b & n & ts & E) | (Pd & e & n & ts & E & T)].
    + rewrite (bind_Ok _ _ _ _ _ E).
      destruct (IH (advance n ts p))
        as [(F & bs & n' & ts' & E') | (F & e & n' & ts' & E' & T)].
      * left. split; [now constructor|].
        rewrite (bind_Ok _ _ _ _ _ E'). unfold ret.
        rewrite advance_advance. now do 3 eexists.
      * right. split; [intros G; apply F; now inversion G|].
        rewrite (bind_Throw _ _ _ _ _ E'). rewrite advance_advance.
        now do 3 eexists.
    + right. split; [intros G; apply Pd; now inversion G|].
      rewrite (bind_Throw _ _ _ _ _ E). now do 3 eexists.
Qed.

End Loops.
(* ================================================================== *)
(** * The timers of the bars fire *)

Section Timers.

Lemma fire_bar_other (t : Timer) (b : Bar) :
  timer_bar t <> bar_id b -> fire_bar t b = b.
Proof.
  intros N. unfold fire_bar.
  destruct (Nat.eqb_spec (bar_id b) (timer_bar t)) as [E|_]; [|reflexivity].
  now elim N.
Qed.

Lemma settle_bar_app (ts us : list Timer) (b : Bar) :
  settle_bar (ts ++ us) b = settle_bar us (settle_bar ts b).
Proof. apply fold_left_app. Qed.

(** Timers of other bars leave a bar as it is. *)
Lemma settle_bar_others (ts : list Timer) (b : Bar) :
  Forall (fun t => timer_bar t <> bar_id b) ts -> settle_bar ts b = b.
Proof.
  induction 1 as [|t ts N _ IH]; [reflexivity|].
  unfold settle_bar in *. cbn [fold_left]. now rewrite (fire_bar_other _ _ N).
Qed.

Lemma timers_from_ids (m : number) (id0 : nat) (ss : list (string * number)) :
  Forall (fun t => id0 <= timer_bar t < List.length ss + id0)
         (timers_from m id0 ss).
Proof.
  revert id0; induction ss as [|s ss IH]; intros id0; cbn; constructor.
  - cbn. lia.
  - eapply Forall_impl; [|apply IH]. cbn. intros t. lia.
Qed.

Lemma set_style_width_unset (w : number) (id : nat) (cn : string)
    (tx : FixedPercent) :
  set_style_width w (mkBar id cn tx None) = mkBar id cn tx (applied_width w).
Proof.
  unfold set_style_width, applied_width. now destruct (valid_width w).
Qed.

(** The bar created for the sample after [pre] gets the width computed
    for that sample, whatever older timers are pending. *)
Lemma bar_settles (m : number) (old : list Timer) (s0 : nat)
    (pre post : list (string * number)) (s : string * number)
    (cn : string) (tx : FixedPercent) :
  Forall (fun t => timer_bar t < s0) old ->
  settle_bar (old ++ timers_from m s0 (pre ++ s :: post))
             (mkBar (List.length pre + s0) cn tx None) =
  mkBar (List.length pre + s0) cn tx (applied_width (bar_width (snd s) m)).
Proof.
  intros Old.
  rewrite settle_bar_app, timers_from_app, settle_bar_app.
  rewrite (settle_bar_others old).
  2:{ eapply Forall_impl; [|exact Old]. cbn. intros t. lia. }
  rewrite (settle_bar_others (timers_from m s0 pre)).
  2:{ eapply Forall_impl; [|apply timers_from_ids]. cbn. intros t. lia. }
  cbn [timers_from]. unfold settle_bar at 1. cbn [fold_left].
  unfold fire_bar at 2. cbn [bar_id timer_bar]. rewrite Nat.eqb_refl.
  cbn [timer_barWidth]. rewrite set_style_width_unset.
  apply (settle_bar_others _ (mkBar _ _ _ _)).
  eapply Forall_impl; [|apply timers_from_ids]. cbn. intros t. lia.
Qed.

Lemma bars_settle (cls : number -> string -> string) (digits : nat) (m : number)
    (old : list Timer) (s0 : nat) (post ss pre : list (string * number)) :
  Forall (fun t => timer_bar t < s0) old ->
  Forall2 (bar_drawn cls digits m) ss
    (map (settle_bar (old ++ timers_from m s0 (pre ++ ss ++ post)))
         (map wrapper_bar (bars_from cls digits (List.length pre + s0) ss))).
Proof.
  intros Old. revert pre; induction ss as [|s ss IH]; intros pre.
  - constructor.
  - cbn [bars_from map wrapper_bar]. constructor.
    + cbn [app]. rewrite (bar_settles m old s0 pre (ss ++ post) s _ _ Old).
      now repeat split.
    + specialize (IH (pre ++ [s])%list).
      rewrite length_app, <- app_assoc in IH. cbn [List.length app] in IH.
      rewrite Nat.add_1_r in IH. exact IH.
Qed.

Lemma bars_of_fire (t : Timer) (i : ItemContainer) :
  bars_of (fire_item t i) = map (fire_bar t) (bars_of i).
Proof. unfold bars_of, fire_item. cbn. now rewrite !map_map. Qed.

Lemma settle_item_fields (ts : list Timer) (i : ItemContainer) :
  item_className (settle_item ts i) = item_className i /\
  item_label (settle_item ts i) = item_label i /\
  group_className (item_barsGroup (settle_item ts i)) =
    group_className (item_barsGroup i) /\
  bars_of (settle_item ts i) = map (settle_bar ts) (bars_of i).
Proof.
  revert i; induction ts as [|t ts IH]; intros i.
  - cbn. repeat split. now rewrite map_id.
  - unfold settle_item, settle_bar in *. cbn [fold_left].
    destruct (IH (fire_item t i)) as (A & B & C & D).
    rewrite A, B, C, D, bars_of_fire, map_map. now repeat split.
Qed.

Lemma items_settle (cls : number -> string -> string) (digits : nat) (m : number)
    (old : list Timer) (s0 : nat) (post : list (string * number))
    (rows : list Row) (pre : list (string * number)) :
  Forall (fun t => timer_bar t < s0) old ->
  Forall2 (item_drawn cls digits m) rows
    (map (settle_item (old ++ timers_from m s0 (pre ++ row_samples rows ++ post)))
         (items_from cls digits (List.length pre + s0) rows)).
Proof.
  intros Old. revert pre; induction rows as [|r rows IH]; intros pre.
  - constructor.
  - cbn [items_from map row_samples flat_map]. fold (row_samples rows).
    constructor.
    + destruct (settle_item_fields
                  (old ++ timers_from m s0 (pre ++ (snd r ++ row_samples rows) ++ post))
                  (mkItemContainer "chart-bar-container" (fst r)
                     (mkBarsGroup "chart-bars-group"
                        (bars_from cls digits (List.length pre + s0) (snd r)))))
        as (A & B & C & D).
      unfold item_drawn. rewrite A, B, C, D. repeat split.
      unfold bars_of. cbn [item_barsGroup group_children].
      rewrite <- app_assoc. now apply bars_settle.
    + specialize (IH (pre ++ snd r)%list).
      rewrite length_app, <- !app_assoc in IH. rewrite <- app_assoc.
      replace (List.length (snd r) + (List.length pre + s0))
        with (List.length pre + List.length (snd r) + s0) by lia.
      exact IH.
Qed.

Lemma items_of_fire (t : Timer) (c : Container) :
  items_of (fire_container t c) = map (fire_item t) (items_of c).
Proof.
  unfold items_of, fire_container. cbn [children].
  induction (children c) as [|n ns IH]; [reflexivity|].
  cbn [map flat_map]. rewrite IH. now destruct n.
Qed.

Lemma fired_items (ts : list Timer) (p : Page) :
  items_of (performanceContainer (fold_left (fun p t => fire t p) ts p)) =
    map (settle_item ts) (items_of (performanceContainer p)) /\
  items_of (mwplContainer (fold_left (fun p t => fire t p) ts p)) =
    map (settle_item ts) (items_of (mwplContainer p)).
Proof.
  revert p; induction ts as [|t ts IH]; intros p.
  - cbn. now rewrite !map_id.
  - cbn [fold_left]. destruct (IH (fire t p)) as [A B]. rewrite A, B.
    unfold fire. cbn [performanceContainer mwplContainer upd_mwplContainer
                      upd_performanceContainer].
    rewrite !items_of_fire, !map_map. now split.
Qed.

(** The items of the two charts once the pending timers have fired. *)
Lemma runTimers_items (p : Page) :
  items_of (performanceContainer (runTimers p)) =
    map (settle_item (timers p)) (items_of (performanceContainer p)) /\
  items_of (mwplContainer (runTimers p)) =
    map (settle_item (timers p)) (items_of (mwplContainer p)).
Proof. exact (fired_items (timers p) p). Qed.

Lemma items_of_app (ns : list Node) (items : list ItemContainer)
    (d : string) :
  (forall n, In n ns -> match n with ItemNode _ => False | _ => True end) ->
  items_of (mkContainer (ns ++ map ItemNode items) d) = items.
Proof.
  intros H. unfold items_of. cbn [children]. rewrite flat_map_app.
  replace (flat_map _ ns) with (@nil ItemContainer).
  - cbn. induction items as [|i items IH]; [reflexivity|]. cbn. now f_equal.
  - induction ns as [|n ns IH]; [reflexivity|]. cbn.
    rewrite <- IH by (intros n' I; apply H; now right).
    specialize (H n (or_introl eq_refl)). now destruct n.
Qed.

End Timers.
(* ================================================================== *)
(** * What the two renderers leave on the page *)

Section Renderers.

Lemma Forall2_map_left {A B C} (R : B -> C -> Prop) (f : A -> B)
    (l : list A) (l' : list C) :
  Forall2 R (map f l) l' -> Forall2 (fun a c => R (f a) c) l l'.
Proof.
  revert l'; induction l as [|a l IH]; intros l' H; inversion H; subst;
    constructor; auto.
Qed.

(** Line 103: an item without its period object stops the chart before
    any item is built. *)
Lemma sector_allValues_cases (data : list SectorPerformance) :
  (Forall (fun d => performance d <> None) data /\
   sector_allValues data = inr (sector_values data)) \/
  (~ Forall (fun d => performance d <> None) data /\
   sector_allValues data =
   inl (TypeError "Cannot convert undefined or null to object")).
Proof.
  induction data as [|d data IH].
  - left. split; [constructor | reflexivity].
  - cbn [sector_allValues sector_values flat_map].
    fold (sector_values data).
    destruct (performance d) as [perf|] eqn:E.
    + destruct IH as [[F ->] | [F ->]].
      * left. split; [constructor; [now rewrite E | exact F] | reflexivity].
      * right. split; [intros G; apply F; now inversion G | reflexivity].
    + right. split; [|reflexivity].
      intros G. inversion G as [|? ? N _]; subst. now rewrite E in N.
Qed.

(** Line 104: a value that cannot be converted stops the chart too. *)
Lemma map_Math_abs_cases (values : list anyNumber) :
  (Forall convertible values /\
   map_Math_abs values = inr (magnitudes values)) \/
  (~ Forall convertible values /\
   map_Math_abs values =
   inl (TypeError "Cannot convert object to primitive value")).
Proof.
  induction values as [|v values IH].
  - left. split; [constructor | reflexivity].
  - cbn [map_Math_abs magnitudes flat_map]. fold (magnitudes values).
    destruct v as [x| |[y|]]; cbn [Math_abs ToNumber app].
    1-3: destruct IH as [[F ->] | [F ->]];
         [left; split; [constructor; [discriminate | exact F] | reflexivity]
         |right; split; [intros G; apply F; now inversion G | reflexivity]].
    right. split; [|reflexivity].
    intros G. inversion G as [|? ? N _]; subst. now apply N.
Qed.

Lemma sector_values_convertible (data : list SectorPerformance) :
  Forall sector_item_shaped data -> Forall convertible (sector_values data).
Proof.
  induction 1 as [|d data (perf & E & C & _) _ IH]; [constructor|].
  cbn [sector_values flat_map]. rewrite E. apply Forall_app. now split.
Qed.

(** The shape of the sector section, by the three places that rely on
    it: line 103, line 104 and the loop over the items. *)
Lemma sector_shaped_by_parts (data : list SectorPerformance) :
  Forall (fun d => performance d <> None) data ->
  Forall convertible (sector_values data) ->
  Forall sector_item_periods data ->
  Forall sector_item_shaped data.
Proof.
  induction data as [|d data IH]; intros O C P; [constructor|].
  inversion O as [|? ? _ O']; inversion P as [|? ? (perf & E & N) P']; subst.
  cbn [sector_values flat_map] in C. rewrite E in C.
  apply Forall_app in C as [C1 C2].
  constructor; [now exists perf | now apply IH].
Qed.

Lemma sector_shaped_periods (data : list SectorPerformance) :
  Forall sector_item_shaped data -> Forall sector_item_periods data.
Proof.
  apply Forall_impl. intros d (perf & E & _ & N). now exists perf.
Qed.

Lemma sector_shaped_objects (data : list SectorPerformance) :
  Forall sector_item_shaped data ->
  Forall (fun d => performance d <> None) data.
Proof.
  apply Forall_impl. intros d (perf & E & _). now rewrite E.
Qed.

Lemma renderSectorItem_run (m : number) (d : SectorPerformance) (p : Page) :
  sector_item_periods d ->
  renderSectorItem m d p =
  Ok (mkItemContainer "chart-bar-container"
        (mkLabel "chart-label" (LabelText (sector d)))
        (mkBarsGroup "chart-bars-group"
           (bars_from sector_bar_class 2 (next_id p)
                      (period_samples (performance d)))))
     (advance (List.length (period_samples (performance d)))
              (timers_from m (next_id p) (period_samples (performance d))) p).
Proof.
  intros (perf & E & N). unfold renderSectorItem. rewrite E.
  rewrite <- samples_periods in N.
  rewrite (bind_Ok _ _ _ _ _
             (forPeriods_run _ _ sector_className_number 2 m _ p N)).
  cbn [period_samples]. now rewrite samples_periods.
Qed.

Lemma renderSectorItem_cases (m : number) (d : SectorPerformance) (p : Page) :
  (sector_item_periods d /\
   exists item n ts, renderSectorItem m d p = Ok item (advance n ts p)) \/
  (~ sector_item_periods d /\
   exists e n ts,
     renderSectorItem m d p = Throw e (advance n ts p) /\
     exn_name e = "TypeError").
Proof.
  unfold renderSectorItem, sector_item_periods.
  destruct (performance d) as [perf|].
  - destruct (forPeriods_cases _ _ sector_className_number
                sector_className_error 2 m (periods_of perf) p)
      as [(N & ws & n & ts & E) | (N & e & n & ts & E & T)];
      rewrite samples_periods in N.
    + left. split; [now exists perf|].
      rewrite (bind_Ok _ _ _ _ _ E). now do 3 eexists.
    + right. split; [now intros (perf' & [= <-] & N')|].
      rewrite (bind_Throw _ _ _ _ _ E). now do 3 eexists.
  - right. split; [now intros (perf' & [=] & _)|].
    exists (TypeError "Cannot read properties of undefined (reading 'current')"),
           0, [].
    rewrite advance_0. now split.
Qed.

Lemma renderMWPLItem_run (d : MWPLStockPerformance) (p : Page) :
  mwpl_item_shaped d ->
  renderMWPLItem d p =
  Ok (mkItemContainer "chart-bar-container" (mwpl_label d)
        (mkBarsGroup "chart-bars-group"
           (bars_from mwpl_bar_class 1 (next_id p) (period_samples (mwpl d)))))
     (advance (List.length (period_samples (mwpl d)))
              (timers_from Number.hundred (next_id p)
                           (period_samples (mwpl d))) p).
Proof.
  intros (perf & E & N). unfold renderMWPLItem. rewrite E.
  rewrite <- samples_periods in N.
  rewrite (bind_Ok _ _ _ _ _
             (forPeriods_run _ _ mwpl_className_number 1 Number.hundred _ p N)).
  cbn [period_samples]. now rewrite samples_periods.
Qed.

Lemma renderMWPLItem_cases (d : MWPLStockPerformance) (p : Page) :
  (mwpl_item_shaped d /\
   exists item n ts, renderMWPLItem d p = Ok item (advance n ts p)) \/
  (~ mwpl_item_shaped d /\
   exists e n ts,
     renderMWPLItem d p = Throw e (advance n ts p) /\
     exn_name e = "TypeError").
Proof.
  unfold renderMWPLItem, mwpl_item_shaped.
  destruct (mwpl d) as [perf|].
  - destruct (forPeriods_cases _ _ mwpl_className_number
                mwpl_className_error 1 Number.hundred (periods_of perf) p)
      as [(N & ws & n & ts & E) | (N & e & n & ts & E & T)];
      rewrite samples_periods in N.
    + left. split; [now exists perf|].
      rewrite (bind_Ok _ _ _ _ _ E). now do 3 eexists.
    + right. split; [now intros (perf' & [= <-] & N')|].
      rewrite (bind_Throw _ _ _ _ _ E). now do 3 eexists.
  - right. split; [now intros (perf' & [=] & _)|].
    exists (TypeError "Cannot read properties of undefined (reading 'current')"),
           0, [].
    rewrite advance_0. now split.
Qed.

(** The sector chart on a section of the shape it relies on. *)
Lemma renderSectorGraphs_run (data : list SectorPerformance) (p : Page) :
  sector_shaped (IsArray data) ->
  let m := sector_max data in
  let rows := sector_rows data in
  renderSectorGraphs (IsArray data) p =
  Ok tt
     (mkPage (fetchBtn_disabled p) (loader_display p) (newsContainer p)
        (mkContainer
           ([Markup "<h2>Sector Performance (%)</h2>";
             LegendNode (mkLegend "chart-legend"
                           (legend_markup "current" "one-week" "two-weeks"))]
            ++ map ItemNode (items_from sector_bar_class 2 (next_id p) rows))
           "block")
        (mwplContainer p) (sourcesList p) (sourcesContainer_display p)
        (errorMessage_textContent p) (errorMessage_display p)
        (List.length (row_samples rows) + next_id p)
        (timers p ++ timers_from m (next_id p) (row_samples rows))
        (requests p)).
Proof.
  intros F m rows. cbn [sector_shaped] in F. unfold renderSectorGraphs.
  unfold bind at 1, exec at 1. unfold bind at 1, exec at 1.
  destruct (sector_allValues_cases data) as [[_ ->] | [N _]];
    [|now elim N; apply sector_shaped_objects].
  destruct (map_Math_abs_cases (sector_values data)) as [[_ ->] | [N _]];
    [|now elim N; apply sector_values_convertible].
  fold (sector_max data). fold m.
  erewrite bind_Ok.
  2:{ apply (forEach_rows (renderSectorItem m)
               (fun d => (mkLabel "chart-label" (LabelText (sector d)),
                          period_samples (performance d)))
               sector_bar_class 2 m).
      intros d q I. apply renderSectorItem_run.
      apply sector_shaped_periods in F.
      rewrite Forall_forall in F. now apply F. }
  reflexivity.
Qed.

(** The sector chart after the heading and the legend. *)
Lemma renderSectorGraphs_opened (data : list SectorPerformance) (p : Page) :
  renderSectorGraphs (IsArray data) p =
  match sector_allValues data with
  | inl e => Throw e (sector_opened p)
  | inr allValues =>
      match map_Math_abs allValues with
      | inl e => Throw e (sector_opened p)
      | inr magnitudes =>
          (chartFragment <-
             forEach (renderSectorItem
                        (Math_max (magnitudes ++ [Number.one]))) data ;;
           exec (upd_performanceContainer
                   (appendChildren (map ItemNode chartFragment))) ;;;
           exec (upd_performanceContainer (set_display "block")))
            (sector_opened p)
      end
  end.
Proof.
  unfold renderSectorGraphs, sector_opened.
  unfold bind at 1, exec at 1. unfold bind at 1, exec at 1.
  destruct (sector_allValues data) as [e | vs]; [reflexivity|].
  destruct (map_Math_abs vs); reflexivity.
Qed.

(** The sector chart returns exactly on a section of that shape; on any
    other it throws a [TypeError], with its container holding the heading
    and the legend. *)
Lemma renderSectorGraphs_cases (a : anyArray SectorPerformance) (p : Page) :
  (sector_shaped a /\ exists p', renderSectorGraphs a p = Ok tt p') \/
  (~ sector_shaped a /\
   exists e n ts,
     renderSectorGraphs a p = Throw e (advance n ts (sector_opened p)) /\
     exn_name e = "TypeError").
Proof.
  destruct a as [|data].
  - right. split; [intros []|].
    exists (TypeError "performanceData.flatMap is not a function"), 0, [].
    rewrite advance_0. split; reflexivity.
  - rewrite renderSectorGraphs_opened. cbn [sector_shaped].
    destruct (sector_allValues_cases data) as [[O ->] | [O ->]].
    2:{ right. split; [intros F; now apply O, sector_shaped_objects|].
        exists (TypeError "Cannot convert undefined or null to object"), 0, [].
        rewrite advance_0. split; reflexivity. }
    destruct (map_Math_abs_cases (sector_values data)) as [[C ->] | [C ->]].
    2:{ right. split; [intros F; now apply C, sector_values_convertible|].
        exists (TypeError "Cannot convert object to primitive value"), 0, [].
        rewrite advance_0. split; reflexivity. }
    destruct (forEach_cases
                (renderSectorItem
                   (Math_max (magnitudes (sector_values data) ++ [Number.one])))
                sector_item_periods data
                (renderSectorItem_cases _) (sector_opened p))
      as [(F & bs & n & ts & E) | (F & e & n & ts & E & T)].
    + left. split; [now apply sector_shaped_by_parts|].
      rewrite (bind_Ok _ _ _ _ _ E). eexists. reflexivity.
    + right. split; [intros G; now apply F, sector_shaped_periods|].
      rewrite (bind_Throw _ _ _ _ _ E). now do 3 eexists.
Qed.

(** The MWPL chart on a section of the shape it relies on. *)
Lemma renderMWPLChart_run (data : list MWPLStockPerformance) (p : Page) :
  mwpl_shaped (IsArray data) ->
  let rows := mwpl_rows data in
  renderMWPLChart (IsArray data) p =
  Ok tt
     (mkPage (fetchBtn_disabled p) (loader_display p) (newsContainer p)
        (performanceContainer p)
        (mkContainer
           ([Markup "<h2>Top 10 Stocks by MWPL (%)</h2>";
             LegendNode (mkLegend "chart-legend"
                           (legend_markup "mwpl-current" "mwpl-one-week"
                                          "mwpl-two-weeks"))]
            ++ map ItemNode (items_from mwpl_bar_class 1 (next_id p) rows))
           "block")
        (sourcesList p) (sourcesContainer_display p)
        (errorMessage_textContent p) (errorMessage_display p)
        (List.length (row_samples rows) + next_id p)
        (timers p ++ timers_from Number.hundred (next_id p) (row_samples rows))
        (requests p)).
Proof.
  intros F rows. cbn [mwpl_shaped] in F. unfold renderMWPLChart.
  unfold bind at 1, exec at 1. unfold bind at 1, exec at 1.
  erewrite bind_Ok.
  2:{ apply (forEach_rows renderMWPLItem
               (fun d => (mwpl_label d, period_samples (mwpl d)))
               mwpl_bar_class 1 Number.hundred).
      intros d q I. apply renderMWPLItem_run.
      rewrite Forall_forall in F. now apply F. }
  reflexivity.
Qed.

Lemma renderMWPLChart_opened (data : list MWPLStockPerformance) (p : Page) :
  renderMWPLChart (IsArray data) p =
  (chartFragment <- forEach renderMWPLItem data ;;
   exec (upd_mwplContainer (appendChildren (map ItemNode chartFragment))) ;;;
   exec (upd_mwplContainer (set_display "block"))) (mwpl_opened p).
Proof. reflexivity. Qed.

Lemma renderMWPLChart_cases (a : anyArray MWPLStockPerformance) (p : Page) :
  (mwpl_shaped a /\ exists p', renderMWPLChart a p = Ok tt p') \/
  (~ mwpl_shaped a /\
   exists e n ts,
     renderMWPLChart a p = Throw e (advance n ts (mwpl_opened p)) /\
     exn_name e = "TypeError").
Proof.
  destruct a as [|data].
  - right. split; [intros []|].
    exists (TypeError "mwplData.forEach is not a function"), 0, [].
    rewrite advance_0. split; reflexivity.
  - rewrite renderMWPLChart_opened. cbn [mwpl_shaped].
    destruct (forEach_cases renderMWPLItem mwpl_item_shaped data
                renderMWPLItem_cases (mwpl_opened p))
      as [(F & bs & n & ts & E) | (F & e & n & ts & E & T)].
    + left. split; [exact F|].
      rewrite (bind_Ok _ _ _ _ _ E). eexists. reflexivity.
    + right. split; [exact F|].
      rewrite (bind_Throw _ _ _ _ _ E). now do 3 eexists.
Qed.

(** What a renderer that throws leaves: a [TypeError], and its container
    with the heading and the legend, its [display] as it was. *)
Lemma renderSectorGraphs_throws (a : anyArray SectorPerformance)
    (p p' : Page) (e : exn) :
  renderSectorGraphs a p = Throw e p' ->
  ~ sector_shaped a /\
  exn_name e = "TypeError" /\
  children (performanceContainer p') =
    [Markup "<h2>Sector Performance (%)</h2>";
     LegendNode (mkLegend "chart-legend"
                          (legend_markup "current" "one-week" "two-weeks"))] /\
  style_display (performanceContainer p') =
    style_display (performanceContainer p).
Proof.
  intros H.
  destruct (renderSectorGraphs_cases a p)
    as [(_ & q & E) | (N & e' & n & ts & E & T)]; rewrite E in H;
    [discriminate H|].
  injection H as <- <-. now repeat split.
Qed.

Lemma renderMWPLChart_throws (a : anyArray MWPLStockPerformance)
    (p p' : Page) (e : exn) :
  renderMWPLChart a p = Throw e p' ->
  ~ mwpl_shaped a /\
  exn_name e = "TypeError" /\
  children (mwplContainer p') =
    [Markup "<h2>Top 10 Stocks by MWPL (%)</h2>";
     LegendNode (mkLegend "chart-legend"
                          (legend_markup "mwpl-current" "mwpl-one-week"
                                         "mwpl-two-weeks"))] /\
  style_display (mwplContainer p') = style_display (mwplContainer p).
Proof.
  intros H.
  destruct (renderMWPLChart_cases a p)
    as [(_ & q & E) | (N & e' & n & ts & E & T)]; rewrite E in H;
    [discriminate H|].
  injection H as <- <-. now repeat split.
Qed.

(** The bars as they are created, before any timer fires. *)
Lemma bars_created (cls : number -> string -> string) (digits : nat)
    (ss : list (string * number)) (id0 : nat) :
  Forall2 (fun s b => bar_className b = cls (snd s) (fst s) /\
                      bar_textContent b = mkFixedPercent (snd s) digits /\
                      bar_style_width b = None)
          ss (map wrapper_bar (bars_from cls digits id0 ss)).
Proof.
  revert id0; induction ss as [|s ss IH]; intros id0; cbn; constructor; auto.
Qed.

Lemma items_created (cls : number -> string -> string) (digits : nat)
    (rows : list Row) (id0 : nat) :
  Forall2 (fun r i =>
             group_className (item_barsGroup i) = "chart-bars-group" /\
             Forall2 (fun s b => bar_className b = cls (snd s) (fst s) /\
                                 bar_textContent b = mkFixedPercent (snd s) digits /\
                                 bar_style_width b = None)
                     (snd r) (bars_of i))
          rows (items_from cls digits id0 rows).
Proof.
  revert id0; induction rows as [|r rows IH]; intros id0; cbn; constructor.
  - split; [reflexivity | apply bars_created].
  - apply IH.
Qed.

End Renderers.
(* ================================================================== *)
(** * The properties of the charts *)

Section ChartClaims.

Lemma sector_class_of_sign (v : number) (c : string) :
  (Number.ge v Number.zero = true ->
   sector_bar_class v c = "chart-bar positive " ++ c) /\
  (Number.ge v Number.zero = false ->
   sector_bar_class v c = "chart-bar negative " ++ c).
Proof.
  unfold sector_bar_class.
  destruct (Number.ge v Number.zero); split; intros H;
    (reflexivity || discriminate H).
Qed.

Lemma applied_width_cases (w : number) (o : option number) :
  o = applied_width w ->
  (valid_width w = true -> o = Some w) /\
  (valid_width w = false -> o = None).
Proof.
  intros ->. unfold applied_width.
  destruct (valid_width w); split; intros H; (reflexivity || discriminate H).
Qed.

Lemma Object_get_In (key : string) (perf : PeriodPerformance) (v : anyNumber) :
  Object_get key perf = Some v -> In v (Object_values perf).
Proof.
  induction perf as [|[k w] perf IH]; [discriminate|].
  cbn [Object_get Object_values map snd].
  destruct (String.eqb k key); [intros [= ->]; now left|].
  intros H. right. now apply IH.
Qed.

(** The values under the period keys are values of the object. *)
Lemma samples_values (perf : PeriodPerformance) :
  incl (map snd (samples perf)) (Object_values perf).
Proof.
  intros v. unfold samples. rewrite !map_app, !map_map. cbn [snd].
  rewrite !map_id. unfold current, oneWeekAgo, twoWeeksAgo.
  intros I. repeat (apply in_app_or in I as [I | I]);
    match type of I with
    | In _ (present ?o) =>
        destruct o as [w|] eqn:E; [|destruct I];
        destruct I as [<- | []]; now apply Object_get_In in E
    end.
Qed.

Lemma sector_numbers_shaped (data : list SectorPerformance) :
  Forall sector_item_numbers data -> Forall sector_item_shaped data.
Proof.
  apply Forall_impl. intros d (perf & E & N).
  exists perf. split; [exact E|]. rewrite Forall_forall in N. split.
  - apply Forall_forall. intros v I. destruct (N v I) as (x & -> & _).
    discriminate.
  - apply Forall_forall. intros v I. apply samples_values in I.
    destruct (N v I) as (x & -> & _). now exists x.
Qed.

Lemma sector_numbers_values (data : list SectorPerformance) :
  Forall sector_item_numbers data ->
  numeric (sector_values data) /\
  Forall (fun x => Number.isNaN x = false)
         (number_values (sector_values data)).
Proof.
  induction 1 as [|d data (perf & E & N) _ [IH1 IH2]];
    [split; constructor|].
  cbn [sector_values flat_map]. rewrite E. fold (sector_values data).
  unfold number_values. rewrite flat_map_app. fold (number_values (sector_values data)).
  split.
  - apply Forall_app. split; [|exact IH1].
    eapply Forall_impl; [|exact N]. intros v (x & -> & _). now exists x.
  - apply Forall_app. split; [|exact IH2].
    clear E. induction N as [|v vs (x & -> & Hx) _ IH]; [constructor|].
    cbn. now constructor.
Qed.

(** The numbers of samples that are all numbers are all the samples. *)
Lemma Forall2_numbers {B} (R : string * number -> B -> Prop)
    (ss : list (string * anyNumber)) (l : list B) :
  numeric (map snd ss) ->
  Forall2 R (numbers ss) l ->
  Forall2 (fun s b => exists x, snd s = IsNumber x /\ R (fst s, x) b) ss l.
Proof.
  intros N. revert l. induction ss as [|[c v] ss IH]; intros l H.
  - inversion H. constructor.
  - cbn [map snd] in N. inversion N as [|? ? (x & E) N']. subst.
    cbn [numbers flat_map snd fst app] in H. fold (numbers ss) in H.
    inversion H; subst. constructor; [now exists x | now apply IH].
Qed.

Lemma Forall2_and_left {A B} (P : A -> Prop) (R : A -> B -> Prop)
    (l : list A) (l' : list B) :
  Forall P l -> Forall2 R l l' -> Forall2 (fun a b => P a /\ R a b) l l'.
Proof.
  intros F H. induction H as [|a b l l' H _ IH]; [constructor|].
  inversion F; subst. constructor; [now split | now apply IH].
Qed.

(** A period value that is not a number makes the section misshaped. *)
Lemma not_number_misshapes (perf : PeriodPerformance) (c : string)
    (v : anyNumber) :
  In (c, v) (samples perf) -> (forall x, v <> IsNumber x) ->
  ~ numeric (map snd (samples perf)).
Proof.
  intros I N F. unfold numeric in F. rewrite Forall_forall in F.
  destruct (F v) as (x & E); [|now apply (N x)].
  apply in_map_iff. now exists (c, v).
Qed.

(** C2, as the code has it.  For every list of sector items whose period
    objects hold numbers, rendered on a page whose pending timers belong
    to older elements: the chart is rendered; the denominator [m] is the
    largest magnitude among the values of every key of every period
    object, the three period keys and any other key, floored at 1; and
    once the timers have fired, the bars of each item are, in order, those
    of its period values, each with the width [(|value| / m) * 100]
    percent, computed in doubles and held by the bar when it is finite,
    and with the positive class when its value is at least 0, the negative
    class otherwise. *)
Theorem sector_bars_scaled_to_relative_max
    (data : list SectorPerformance) (p : Page) :
  timers_fresh p ->
  Forall sector_item_numbers data ->
  exists (m : number) (p' : Page),
    renderSectorGraphs (IsArray data) p = Ok tt p' /\
    relative_max (number_values (sector_values data)) m /\
    Forall2
      (fun d item =>
         Forall2
           (fun s bar =>
              let barWidth :=
                Number.mul (Number.div (Number.abs (snd s)) m)
                           Number.hundred in
              (valid_width barWidth = true ->
               bar_style_width bar = Some barWidth) /\
              (valid_width barWidth = false -> bar_style_width bar = None) /\
              (Number.ge (snd s) Number.zero = true ->
               bar_className bar = "chart-bar positive " ++ fst s) /\
              (Number.ge (snd s) Number.zero = false ->
               bar_className bar = "chart-bar negative " ++ fst s))
           (period_samples (performance d)) (bars_of item))
      data (items_of (performanceContainer (runTimers p'))).
Proof.
  intros Fresh N.
  pose proof (sector_numbers_shaped data N) as F.
  destruct (sector_numbers_values data N) as [Nu Nn].
  exists (sector_max data). eexists.
  split; [apply (renderSectorGraphs_run data p F)|].
  split.
  { unfold sector_max. rewrite (magnitudes_numbers _ Nu).
    now apply Math_max_relative. }
  rewrite (proj1 (runTimers_items _)).
  cbn [timers performanceContainer]. rewrite items_of_app.
  2:{ intros n [<- | [<- | []]]; exact I. }
  pose proof (items_settle sector_bar_class 2 (sector_max data)
                (timers p) (next_id p) [] (sector_rows data) [] Fresh) as S.
  cbn [app List.length Nat.add] in S. rewrite app_nil_r in S.
  apply Forall2_map_left in S.
  eapply Forall2_impl; [|exact S].
  intros d item (_ & _ & _ & B). cbn [snd] in B.
  eapply Forall2_impl; [|exact B].
  intros s bar (C & _ & W). cbv zeta.
  destruct (applied_width_cases _ _ W) as [W1 W2].
  split; [exact W1|]. split; [exact W2|].
  rewrite C. apply sector_class_of_sign.
Qed.

Lemma sector_bars_scaled_to_relative_max_witness :
  exists (m : number) (p' : Page),
    renderSectorGraphs (IsArray sector_sample) initialPage = Ok tt p' /\
    relative_max (number_values (sector_values sector_sample)) m /\
    Forall2
      (fun d item =>
         Forall2
           (fun s bar =>
              let barWidth :=
                Number.mul (Number.div (Number.abs (snd s)) m)
                           Number.hundred in
              (valid_width barWidth = true ->
               bar_style_width bar = Some barWidth) /\
              (valid_width barWidth = false -> bar_style_width bar = None) /\
              (Number.ge (snd s) Number.zero = true ->
               bar_className bar = "chart-bar positive " ++ fst s) /\
              (Number.ge (snd s) Number.zero = false ->
               bar_className bar = "chart-bar negative " ++ fst s))
           (period_samples (performance d)) (bars_of item))
      sector_sample (items_of (performanceContainer (runTimers p'))).
Proof.
  apply (sector_bars_scaled_to_relative_max sector_sample initialPage).
  - constructor.
  - repeat constructor; eexists; (split; [reflexivity|]);
      repeat constructor; eexists; split; reflexivity.
Defined.

(** The widths of the example: 50, 100 and 25 percent. *)
Example sector_sample_widths :
  let p' := runTimers (page_of (renderSectorGraphs (IsArray sector_sample)
                                                   initialPage)) in
  map (fun i => map bar_style_width (bars_of i))
      (items_of (performanceContainer p')) =
  [[Some (Number.of_Z 50); Some (Number.of_Z 100)]; [Some (Number.of_Z 25)]] /\
  map (fun i => map bar_className (bars_of i))
      (items_of (performanceContainer p')) =
  [["chart-bar positive current"; "chart-bar negative two-weeks"];
   ["chart-bar positive one-week"]].
Proof. vm_compute. split; reflexivity. Qed.

(** C2 as stated fails on a period object with one more key: the value
    10 is the only period value, so that the denominator of the claim is
    10 and its width 100 percent; the value 50 of the other key enters the
    denominator of the code, and the bar is drawn at 20 percent. *)
Lemma extra_key_enters_denominator :
  let data :=
    [ mkSectorPerformance "NIFTY IT"
        (Some [("current", IsNumber (Number.of_Z 10));
               ("oneMonthAgo", IsNumber (Number.of_Z 50))]) ] in
  let p' := runTimers (page_of (renderSectorGraphs (IsArray data)
                                                   initialPage)) in
  map snd (period_samples (performance (mkSectorPerformance "NIFTY IT"
        (Some [("current", IsNumber (Number.of_Z 10));
               ("oneMonthAgo", IsNumber (Number.of_Z 50))])))) =
    [Number.of_Z 10] /\
  relative_max [Number.of_Z 10] (Number.of_Z 10) /\
  Number.mul (Number.div (Number.abs (Number.of_Z 10)) (Number.of_Z 10))
             Number.hundred = Number.of_Z 100 /\
  map (fun i => map bar_style_width (bars_of i))
      (items_of (performanceContainer p')) = [[Some (Number.of_Z 20)]].
Proof.
  split; [reflexivity|]. split.
  - split; [reflexivity|]. split.
    + intros v [<- | []]. reflexivity.
    + right. exists (Number.of_Z 10). split; [now left | reflexivity].
  - split; vm_compute; reflexivity.
Qed.

(** The value 1 against the denominator 3 is drawn at 33.33333333333333
    percent, the double that the quotient and the product round to. *)
Example sector_width_is_rounded :
  let data :=
    [ mkSectorPerformance "NIFTY IT"
        (Some [("current", IsNumber (Number.of_Z 1));
               ("oneWeekAgo", IsNumber (Number.of_Z (-3)))]) ] in
  let p' := runTimers (page_of (renderSectorGraphs (IsArray data)
                                                   initialPage)) in
  map (fun i => map bar_style_width (bars_of i))
      (items_of (performanceContainer p')) =
  [[Some (S754_finite false 4691249611844266 (-47)); Some (Number.of_Z 100)]].
Proof. vm_compute. reflexivity. Qed.

(** A literal that overflows is read as infinity and becomes the
    denominator: its own width is NaN, which the bar does not take, and
    the other bars are drawn at 0 percent. *)
Example sector_overflow_gives_no_width :
  let data :=
    [ mkSectorPerformance "NIFTY IT"
        (Some [("current", IsNumber (Number.of_Z (10 ^ 400)));
               ("oneWeekAgo", IsNumber (Number.of_Z 5))]) ] in
  let p' := runTimers (page_of (renderSectorGraphs (IsArray data)
                                                   initialPage)) in
  map (fun i => map bar_style_width (bars_of i))
      (items_of (performanceContainer p')) = [[None; Some Number.zero]] /\
  map (fun t => timer_barWidth t)
      (timers (page_of (renderSectorGraphs (IsArray data) initialPage))) =
  [Number.NaN; Number.zero].
Proof. vm_compute. split; reflexivity. Qed.

(** C3, as the code has it.  In both charts, on a section of the shape
    the renderer relies on: every item gets its container with its group
    of bars, and the bars of the group are exactly one for each of the
    three period keys that is there in the period object of the item, in
    the order current, one week ago, two weeks ago, each showing the number
    under its key; a key that is missing gives no bar, and an item with
    none of the three keys gives an empty group.  A value that is there
    under a period key and is not a number ([null], a string) is not
    skipped: the renderer throws a [TypeError] and attaches no item. *)
Theorem bars_follow_present_periods :
  (forall (data : list SectorPerformance) (p : Page),
      sector_shaped (IsArray data) ->
      exists p',
        renderSectorGraphs (IsArray data) p = Ok tt p' /\
        Forall2
          (fun d item =>
             group_className (item_barsGroup item) = "chart-bars-group" /\
             exists perf,
               performance d = Some perf /\
               Forall2
                 (fun s bar =>
                    snd s = IsNumber (fp_value (bar_textContent bar)) /\
                    (bar_className bar = "chart-bar positive " ++ fst s \/
                     bar_className bar = "chart-bar negative " ++ fst s))
                 (samples perf) (bars_of item))
          data (items_of (performanceContainer p'))) /\
  (forall (data : list MWPLStockPerformance) (p : Page),
      mwpl_shaped (IsArray data) ->
      exists p',
        renderMWPLChart (IsArray data) p = Ok tt p' /\
        Forall2
          (fun d item =>
             group_className (item_barsGroup item) = "chart-bars-group" /\
             exists perf,
               mwpl d = Some perf /\
               Forall2
                 (fun s bar =>
                    snd s = IsNumber (fp_value (bar_textContent bar)) /\
                    bar_className bar = "chart-bar " ++ fst s)
                 (samples perf) (bars_of item))
          data (items_of (mwplContainer p'))) /\
  (forall (data : list SectorPerformance) (p : Page)
          (d : SectorPerformance) (perf : PeriodPerformance)
          (c : string) (v : anyNumber),
      In d data -> performance d = Some perf -> In (c, v) (samples perf) ->
      (forall x, v <> IsNumber x) ->
      exists e p',
        renderSectorGraphs (IsArray data) p = Throw e p' /\
        exn_name e = "TypeError" /\
        items_of (performanceContainer p') = []) /\
  (forall (data : list MWPLStockPerformance) (p : Page)
          (d : MWPLStockPerformance) (perf : PeriodPerformance)
          (c : string) (v : anyNumber),
      In d data -> mwpl d = Some perf -> In (c, v) (samples perf) ->
      (forall x, v <> IsNumber x) ->
      exists e p',
        renderMWPLChart (IsArray data) p = Throw e p' /\
        exn_name e = "TypeError" /\
        items_of (mwplContainer p') = []).
Proof.
  split; [|split; [|split]].
  - intros data p F. eexists.
    split; [apply (renderSectorGraphs_run data p F)|].
    cbn [performanceContainer]. rewrite items_of_app.
    2:{ intros n [<- | [<- | []]]; exact I. }
    pose proof (items_created sector_bar_class 2 (sector_rows data) (next_id p))
      as S.
    apply Forall2_map_left in S. cbn [sector_shaped] in F.
    apply (Forall2_and_left _ _ _ _ F) in S.
    eapply Forall2_impl; [|exact S].
    intros d item ((perf & E & _ & N) & G & B). split; [exact G|].
    exists perf. split; [exact E|]. cbn [snd] in B. rewrite E in B.
    cbn [period_samples] in B. apply (Forall2_numbers _ _ _ N) in B.
    eapply Forall2_impl; [|exact B].
    intros s bar (x & Es & C & T & _). cbn [fst snd] in C, T.
    rewrite T, C, Es. split; [reflexivity|].
    destruct (Number.ge x Number.zero) eqn:Z.
    + left. now apply sector_class_of_sign.
    + right. now apply sector_class_of_sign.
  - intros data p F. eexists.
    split; [apply (renderMWPLChart_run data p F)|].
    cbn [mwplContainer]. rewrite items_of_app.
    2:{ intros n [<- | [<- | []]]; exact I. }
    pose proof (items_created mwpl_bar_class 1 (mwpl_rows data) (next_id p))
      as S.
    apply Forall2_map_left in S. cbn [mwpl_shaped] in F.
    apply (Forall2_and_left _ _ _ _ F) in S.
    eapply Forall2_impl; [|exact S].
    intros d item ((perf & E & N) & G & B). split; [exact G|].
    exists perf. split; [exact E|]. cbn [snd] in B. rewrite E in B.
    cbn [period_samples] in B. apply (Forall2_numbers _ _ _ N) in B.
    eapply Forall2_impl; [|exact B].
    intros s bar (x & Es & C & T & _). cbn [fst snd] in C, T.
    rewrite T, C, Es. now split.
  - intros data p d perf c v I E Iv N.
    destruct (renderSectorGraphs_cases (IsArray data) p)
      as [(F & _) | (_ & e & n & ts & R & T)].
    + cbn [sector_shaped] in F. rewrite Forall_forall in F.
      destruct (F d I) as (perf' & E' & _ & Nu).
      rewrite E in E'. injection E' as <-.
      now elim (not_number_misshapes perf c v Iv N).
    + exists e. eexists. split; [exact R|]. split; [exact T | reflexivity].
  - intros data p d perf c v I E Iv N.
    destruct (renderMWPLChart_cases (IsArray data) p)
      as [(F & _) | (_ & e & n & ts & R & T)].
    + cbn [mwpl_shaped] in F. rewrite Forall_forall in F.
      destruct (F d I) as (perf' & E' & Nu).
      rewrite E in E'. injection E' as <-.
      now elim (not_number_misshapes perf c v Iv N).
    + exists e. eexists. split; [exact R|]. split; [exact T | reflexivity].
Qed.

(** One item with only its value of one week ago, one item with none of
    the three keys. *)
Lemma bars_follow_present_periods_witness :
  let data :=
    [ mkSectorPerformance "NIFTY IT"
        (Some [("oneWeekAgo", IsNumber (Number.of_Z 3))]);
      mkSectorPerformance "NIFTY FMCG" (Some []) ] in
  exists p',
    renderSectorGraphs (IsArray data) initialPage = Ok tt p' /\
    Forall2
      (fun d item =>
         group_className (item_barsGroup item) = "chart-bars-group" /\
         exists perf,
           performance d = Some perf /\
           Forall2
             (fun s bar =>
                snd s = IsNumber (fp_value (bar_textContent bar)) /\
                (bar_className bar = "chart-bar positive " ++ fst s \/
                 bar_className bar = "chart-bar negative " ++ fst s))
             (samples perf) (bars_of item))
      data (items_of (performanceContainer p')).
Proof.
  apply (proj1 bars_follow_present_periods).
  repeat constructor; eexists; (split; [reflexivity|]);
    split; repeat constructor; (discriminate || (eexists; reflexivity)).
Defined.

Example absent_periods_give_no_bar :
  map (fun i => map bar_className (bars_of i))
      (items_of (performanceContainer (page_of (renderSectorGraphs
         (IsArray [ mkSectorPerformance "NIFTY IT"
                      (Some [("oneWeekAgo", IsNumber (Number.of_Z 3))]);
                    mkSectorPerformance "NIFTY FMCG" (Some []) ])
         initialPage)))) =
  [["chart-bar positive one-week"]; []].
Proof. reflexivity. Qed.

(** C3 as stated fails on a period value that is [null]: with [null]
    under [current] and 3 under [oneWeekAgo], the claim has the item drawn
    with one bar; either renderer throws instead, and its container holds
    no item at all. *)
Lemma null_period_value_is_not_skipped :
  let perf := [("current", IsNull); ("oneWeekAgo", IsNumber (Number.of_Z 3))] in
  let sectors :=
    renderSectorGraphs (IsArray [mkSectorPerformance "NIFTY IT" (Some perf)])
                       initialPage in
  let stocks :=
    renderMWPLChart (IsArray [mkMWPLStockPerformance "RBLBANK" None (Some perf)])
                    initialPage in
  (exists p',
      sectors =
      Throw (TypeError "Cannot read properties of null (reading 'toFixed')") p' /\
      items_of (performanceContainer p') = [] /\
      style_display (performanceContainer p') = "") /\
  (exists p',
      stocks =
      Throw (TypeError "Cannot read properties of null (reading 'toFixed')") p' /\
      items_of (mwplContainer p') = [] /\
      style_display (mwplContainer p') = "").
Proof.
  split.
  - exists (advance 1 [] (sector_opened initialPage)).
    split; [vm_compute; reflexivity|]. split; reflexivity.
  - exists (advance 1 [] (mwpl_opened initialPage)).
    split; [vm_compute; reflexivity|]. split; reflexivity.
Qed.

(** The same with a string where a number is declared. *)
Example string_period_value_is_not_skipped :
  renderMWPLChart
    (IsArray [mkMWPLStockPerformance "RBLBANK" None
                (Some [("current", NotANumber (Some (Number.of_Z 45)))])])
    initialPage =
  Throw (TypeError "period.value.toFixed is not a function")
        (advance 1 [] (mwpl_opened initialPage)).
Proof. reflexivity. Qed.

(** C5, as the code has it.  For every list of stocks of the shape the
    renderer relies on, rendered on a page whose pending timers belong to
    older elements: the chart is rendered, and once the timers have fired
    the bars of each stock are those of its period values, each with the
    class of its period alone, no class of sign, and with the width
    [(|value| / 100) * 100] percent, computed in doubles, the quotient
    first, and the same whatever the value, above 100 as below; the bar
    holds that width when it is finite, and none when it is not. *)
Theorem mwpl_bars_scaled_to_100
    (data : list MWPLStockPerformance) (p : Page) :
  timers_fresh p ->
  mwpl_shaped (IsArray data) ->
  exists p',
    renderMWPLChart (IsArray data) p = Ok tt p' /\
    Forall2
      (fun d item =>
         Forall2
           (fun s bar =>
              let barWidth :=
                Number.mul (Number.div (Number.abs (snd s)) Number.hundred)
                           Number.hundred in
              bar_className bar = "chart-bar " ++ fst s /\
              (valid_width barWidth = true ->
               bar_style_width bar = Some barWidth) /\
              (valid_width barWidth = false -> bar_style_width bar = None))
           (period_samples (mwpl d)) (bars_of item))
      data (items_of (mwplContainer (runTimers p'))).
Proof.
  intros Fresh F. eexists.
  split; [apply (renderMWPLChart_run data p F)|].
  rewrite (proj2 (runTimers_items _)).
  cbn [timers mwplContainer]. rewrite items_of_app.
  2:{ intros n [<- | [<- | []]]; exact I. }
  pose proof (items_settle mwpl_bar_class 1 Number.hundred
                (timers p) (next_id p) [] (mwpl_rows data) [] Fresh) as S.
  cbn [app List.length Nat.add] in S. rewrite app_nil_r in S.
  apply Forall2_map_left in S.
  eapply Forall2_impl; [|exact S].
  intros d item (_ & _ & _ & B). cbn [snd] in B.
  eapply Forall2_impl; [|exact B].
  intros s bar (C & _ & W). cbv zeta. split; [exact C|].
  exact (applied_width_cases _ _ W).
Qed.

Lemma mwpl_bars_scaled_to_100_witness :
  exists p',
    renderMWPLChart (IsArray mwpl_sample) initialPage = Ok tt p' /\
    Forall2
      (fun d item =>
         Forall2
           (fun s bar =>
              let barWidth :=
                Number.mul (Number.div (Number.abs (snd s)) Number.hundred)
                           Number.hundred in
              bar_className bar = "chart-bar " ++ fst s /\
              (valid_width barWidth = true ->
               bar_style_width bar = Some barWidth) /\
              (valid_width barWidth = false -> bar_style_width bar = None))
           (period_samples (mwpl d)) (bars_of item))
      mwpl_sample (items_of (mwplContainer (runTimers p'))).
Proof.
  apply (mwpl_bars_scaled_to_100 mwpl_sample initialPage).
  - constructor.
  - repeat constructor; eexists; (split; [reflexivity|]);
      repeat constructor; eexists; reflexivity.
Defined.

(** The value 45 is drawn at 45 percent, the value 150 at 150 percent. *)
Example mwpl_sample_widths :
  let p' := runTimers (page_of (renderMWPLChart (IsArray mwpl_sample)
                                                initialPage)) in
  map (fun i => map bar_style_width (bars_of i)) (items_of (mwplContainer p')) =
  [[Some (Number.of_Z 45); Some (Number.of_Z 150)]] /\
  map (fun i => map bar_className (bars_of i)) (items_of (mwplContainer p')) =
  [["chart-bar current"; "chart-bar two-weeks"]].
Proof. vm_compute. split; reflexivity. Qed.

(** The value 28.3 is drawn at 28.300000000000004 percent, the double
    that follows 28.3: the quotient by 100 and the product by 100 each
    round. *)
Example mwpl_width_is_rounded :
  let v := Number.decimal 283 1 in
  let p' := runTimers (page_of (renderMWPLChart
              (IsArray [mkMWPLStockPerformance "RBLBANK" None
                          (Some [("current", IsNumber v)])]) initialPage)) in
  v = S754_finite false 7965741840911565 (-48) /\
  map (fun i => map bar_style_width (bars_of i)) (items_of (mwplContainer p')) =
  [[Some (S754_finite false 7965741840911566 (-48))]].
Proof. vm_compute. split; reflexivity. Qed.

(** C5 as stated fails on two values that a response can carry.  The
    literal [1e400] is read as infinity, a value above 100: the width
    computed for it is infinity, which is no valid width, and the bar is
    left without any.  The value [null] is present, and is not skipped:
    line 207 throws, and no bar is drawn at all. *)
Lemma mwpl_value_without_width :
  let v := Number.of_Z (10 ^ 400) in
  let overflowing :=
    runTimers (page_of (renderMWPLChart
      (IsArray [mkMWPLStockPerformance "RBLBANK" None
                  (Some [("current", IsNumber v)])]) initialPage)) in
  let null :=
    renderMWPLChart
      (IsArray [mkMWPLStockPerformance "RBLBANK" None
                  (Some [("current", IsNull)])]) initialPage in
  (v = S754_infinity false /\
   Number.gt v Number.hundred = true /\
   Number.mul (Number.div (Number.abs v) Number.hundred) Number.hundred =
     S754_infinity false /\
   map (fun i => map bar_style_width (bars_of i))
       (items_of (mwplContainer overflowing)) = [[None]]) /\
  (null =
     Throw (TypeError "Cannot read properties of null (reading 'toFixed')")
           (advance 1 [] (mwpl_opened initialPage)) /\
   all_bars (mwplContainer (runTimers (page_of null))) = []).
Proof. vm_compute. repeat split; reflexivity. Qed.

End ChartClaims.
(* ================================================================== *)
(** * The sources: a serialized pair is read back as the same pair *)

Section JsonRoundTrip.

Import Json.

Lemma unquote_from_unfold_char (c : ascii) (rest : string) :
  unquote_from (quote_char c ++ rest) =
  match unquote_from rest with
  | Some (t, k) => Some (String c t, k)
  | None => None
  end.
Proof.
  destruct c as [[] [] [] [] [] [] [] []]; reflexivity.
Qed.

Lemma unquote_from_quote_chars (s rest : string) :
  unquote_from (quote_chars s ++ DQ ++ rest) = Some (s, rest).
Proof.
  induction s as [|c s IH]; [reflexivity|].
  cbn [quote_chars]. rewrite append_assoc, unquote_from_unfold_char.
  now rewrite IH.
Qed.

Lemma unquote_quote (s rest : string) :
  unquote (quote s ++ rest) = Some (s, rest).
Proof.
  unfold unquote, quote. cbn [DQ append Str.strip_prefix Ascii.eqb Bool.eqb].
  rewrite append_assoc. apply unquote_from_quote_chars.
Qed.

Lemma strip_uri_key (x : string) :
  Str.strip_prefix ("{" ++ quote "uri" ++ ":")
                   ("{" ++ quote "uri" ++ ":" ++ x) = Some x.
Proof. reflexivity. Qed.

Lemma strip_title_key (x : string) :
  Str.strip_prefix ("," ++ quote "title" ++ ":")
                   ("," ++ quote "title" ++ ":" ++ x) = Some x.
Proof. reflexivity. Qed.

(** [JSON.parse(JSON.stringify({uri, title}))] is [{uri, title}]. *)
Lemma parse_stringify_source (u : string) (t : option string) :
  parse_source (stringify_source u t) = Some (mkSource u t).
Proof.
  unfold parse_source, stringify_source.
  rewrite strip_uri_key, unquote_quote.
  destruct t as [t|]; [|reflexivity].
  rewrite !append_assoc.
  replace (String.eqb ("," ++ quote "title" ++ ":" ++ quote t ++ "}") "}")
    with false by reflexivity.
  rewrite strip_title_key, unquote_quote. reflexivity.
Qed.

(** Two pairs with the same serialization are the same pair. *)
Lemma stringify_source_inj (u u' : string) (t t' : option string) :
  stringify_source u t = stringify_source u' t' -> u = u' /\ t = t'.
Proof.
  intros H. pose proof (parse_stringify_source u t) as P.
  rewrite H, parse_stringify_source in P. now injection P as -> ->.
Qed.

End JsonRoundTrip.
(* ================================================================== *)
(** * The sources: kept, deduplicated and displayed *)

Section Sources.

Lemma pair_eqb_spec (a b : string * option string) :
  pair_eqb a b = true <-> a = b.
Proof.
  destruct a as [u [t|]], b as [u' [t'|]]; unfold pair_eqb; cbn [fst snd].
  - rewrite andb_true_iff, !String.eqb_eq.
    split; [intros [-> ->]; reflexivity | intros [= -> ->]; now split].
  - rewrite andb_false_r. split; discriminate.
  - rewrite andb_false_r. split; discriminate.
  - rewrite andb_true_r, String.eqb_eq.
    split; [intros ->; reflexivity | intros [= ->]; reflexivity].
Qed.

Lemma truthy_spec (s : string) : Str.truthy s = true <-> s <> "".
Proof. destruct s; cbn; split; congruence. Qed.

Lemma stringify_eqb (a b : string * option string) :
  String.eqb (stringify_pair a) (stringify_pair b) = pair_eqb a b.
Proof.
  apply eq_true_iff_eq. rewrite String.eqb_eq, pair_eqb_spec.
  unfold stringify_pair. split; [|now intros ->].
  intros H. apply stringify_source_inj in H as [U T].
  destruct a, b; cbn in *; congruence.
Qed.

Lemma existsb_stringify (a : string * option string)
    (pairs : list (string * option string)) :
  existsb (String.eqb (stringify_pair a)) (map stringify_pair pairs) =
  existsb (pair_eqb a) pairs.
Proof.
  induction pairs as [|b pairs IH]; [reflexivity|].
  cbn [map existsb]. now rewrite IH, stringify_eqb.
Qed.

Lemma add_source_pairs (pairs : list (string * option string))
    (c : GroundingChunk) :
  add_source (map stringify_pair pairs) c = map stringify_pair (add_pair pairs c).
Proof.
  unfold add_source, add_pair.
  destruct (web c) as [[[u|] t]|]; cbn [uri title]; try reflexivity.
  destruct (Str.truthy u); [|reflexivity].
  unfold Set_add.
  change (Json.stringify_source u t) with (stringify_pair (u, t)).
  rewrite existsb_stringify.
  destruct (existsb (pair_eqb (u, t)) pairs); [reflexivity|].
  now rewrite map_app.
Qed.

(** The set of strings is the image of the list of pairs. *)
Lemma collect_sources_pairs (chunks : list GroundingChunk) :
  collect_sources chunks = map stringify_pair (kept_pairs chunks).
Proof.
  unfold collect_sources, kept_pairs.
  change (@nil string) with (map stringify_pair []).
  generalize (@nil (string * option string)).
  induction chunks as [|c chunks IH]; intros pairs; [reflexivity|].
  cbn [fold_left]. now rewrite add_source_pairs, IH.
Qed.

Lemma link_text_pair (s : string * option string) :
  mkAnchor (fst s) (link_text (Json.mkSource (fst s) (snd s)))
           "_blank" "noopener noreferrer" = source_link s.
Proof. destruct s as [u [[|c t]|]]; reflexivity. Qed.

Lemma renderSource_run (s : string * option string) (p : Page) :
  renderSource (stringify_pair s) p =
  Ok tt (set_sourcesList (sourcesList p ++ [source_link s]) p).
Proof.
  unfold renderSource, stringify_pair.
  rewrite parse_stringify_source. cbn [Json.source_uri].
  now rewrite link_text_pair.
Qed.

Lemma forEach_renderSource (pairs : list (string * option string)) (p : Page) :
  exists units,
    forEach renderSource (map stringify_pair pairs) p =
    Ok units (set_sourcesList (sourcesList p ++ map source_link pairs) p).
Proof.
  revert p; induction pairs as [|s pairs IH]; intros p.
  - exists []. cbn. rewrite app_nil_r. now destruct p.
  - destruct (IH (set_sourcesList (sourcesList p ++ [source_link s]) p))
      as [units E].
    exists (tt :: units). cbn [map forEach].
    rewrite (bind_Ok _ _ _ _ _ (renderSource_run s p)).
    rewrite (bind_Ok _ _ _ _ _ E). unfold ret. f_equal.
    destruct p; cbn. now rewrite <- app_assoc.
Qed.

(** Displaying the sources never throws. *)
Lemma displaySources_run (chunks : option (list GroundingChunk)) (p : Page) :
  displaySources chunks p = Ok tt (sources_page chunks p).
Proof.
  destruct chunks as [cs|]; [|reflexivity].
  unfold displaySources, sources_page.
  unfold bind at 1, exec at 1.
  rewrite collect_sources_pairs.
  destruct (kept_pairs cs) as [|s pairs]; [reflexivity|].
  destruct (forEach_renderSource (s :: pairs) (set_sourcesList [] p))
    as [units E].
  cbn [map] in *. rewrite (bind_Ok _ _ _ _ _ E). reflexivity.
Qed.

Lemma add_pair_In (pairs : list (string * option string))
    (c : GroundingChunk) (x : string * option string) :
  In x (add_pair pairs c) <->
  In x pairs \/ (fst x <> "" /\ carries c (fst x) (snd x)).
Proof.
  unfold add_pair, carries. destruct x as [xu xt]. cbn [fst snd].
  destruct (web c) as [[[u|] t]|]; cbn [uri title].
  - destruct (Str.truthy u) eqn:T.
    + apply truthy_spec in T.
      destruct (existsb (pair_eqb (u, t)) pairs) eqn:E.
      * apply existsb_exists in E as (y & I & E).
        apply pair_eqb_spec in E. subst y.
        split; [now left|]. intros [H | [_ [= -> ->]]]; [exact H | exact I].
      * rewrite in_app_iff. cbn [In]. split.
        -- intros [H | [[= -> ->] | []]]; [now left | right]. now split.
        -- intros [H | [_ [= -> ->]]]; [now left | right; now left].
    + split; [now left|]. intros [H | [N [= -> _]]]; [exact H|].
      destruct xu; [now elim N | discriminate T].
  - split; [now left|]. intros [H | [_ [=]]]. exact H.
  - split; [now left|]. intros [H | [_ [=]]]. exact H.
Qed.

Lemma add_pair_NoDup (pairs : list (string * option string))
    (c : GroundingChunk) :
  NoDup pairs -> NoDup (add_pair pairs c).
Proof.
  intros N. unfold add_pair.
  destruct (web c) as [[[u|] t]|]; cbn [uri title]; try exact N.
  destruct (Str.truthy u); [|exact N].
  destruct (existsb (pair_eqb (u, t)) pairs) eqn:E; [exact N|].
  apply NoDup_app; [exact N | repeat constructor; intros [] | ].
  intros y I [<- | []].
  assert (X : existsb (pair_eqb (u, t)) pairs = true); [|congruence].
  apply existsb_exists. exists (u, t). split; [exact I|].
  now apply pair_eqb_spec.
Qed.

Lemma kept_pairs_spec (chunks : list GroundingChunk) :
  NoDup (kept_pairs chunks) /\
  forall u t,
    In (u, t) (kept_pairs chunks) <->
    u <> "" /\ exists c, In c chunks /\ carries c u t.
Proof.
  unfold kept_pairs.
  assert (G : forall acc,
             NoDup acc ->
             NoDup (fold_left add_pair chunks acc) /\
             forall x, In x (fold_left add_pair chunks acc) <->
                       In x acc \/
                       (fst x <> "" /\
                        exists c, In c chunks /\ carries c (fst x) (snd x))).
  { induction chunks as [|c chunks IH]; intros acc N.
    - cbn. split; [exact N|]. intros x. split; [now left|].
      intros [H | (_ & c & [] & _)]. exact H.
    - cbn [fold_left].
      destruct (IH (add_pair acc c) (add_pair_NoDup _ _ N)) as [N' I].
      split; [exact N'|]. intros x. rewrite I, add_pair_In. split.
      + intros [[H | [H1 H2]] | (H1 & c' & H2 & H3)].
        * now left.
        * right. split; [exact H1|]. exists c. split; [now left | exact H2].
        * right. split; [exact H1|]. exists c'. split; [now right | exact H3].
      + intros [H | (H1 & c' & [<- | H2] & H3)].
        * now left; left.
        * left; right. now split.
        * right. split; [exact H1|]. now exists c'. }
  destruct (G [] (NoDup_nil _)) as [N I]. split; [exact N|].
  intros u t. rewrite (I (u, t)). cbn [fst snd In]. tauto.
Qed.

(** C6, as the code has it. For every list of candidates, displayed on a
    page whose sources container is hidden, as it is during a cycle: the
    links shown are those of a list of pairs without repetition, holding
    exactly the pairs [(uri, title)] of the candidates that carry a web
    reference with a uri that is present and not empty, so that two
    candidates with one uri and two titles give two links and two
    candidates equal in both give one; each link points to the uri and
    shows the title when there is one that is not empty, the uri
    otherwise; and the container is shown exactly when that list is not
    empty. *)
Theorem sources_kept_once_per_pair (chunks : list GroundingChunk) (p : Page) :
  sourcesContainer_display p = "none" ->
  exists (pairs : list (string * option string)) (p' : Page),
    displaySources (Some chunks) p = Ok tt p' /\
    NoDup pairs /\
    (forall u t,
        In (u, t) pairs <->
        u <> "" /\ exists c, In c chunks /\ carries c u t) /\
    sourcesList p' = map source_link pairs /\
    (forall s, In s pairs ->
       a_href (source_link s) = fst s /\
       (forall t, snd s = Some t -> t <> "" -> a_textContent (source_link s) = t) /\
       (snd s = None \/ snd s = Some "" ->
        a_textContent (source_link s) = fst s)) /\
    (pairs = [] -> sourcesContainer_display p' = "none") /\
    (pairs <> [] -> sourcesContainer_display p' = "block").
Proof.
  intros Hidden. exists (kept_pairs chunks), (sources_page (Some chunks) p).
  split; [apply displaySources_run|].
  destruct (kept_pairs_spec chunks) as [N I].
  split; [exact N|]. split; [exact I|].
  unfold sources_page.
  split; [now destruct (kept_pairs chunks)|].
  split.
  { intros [u [[|c t]|]] _;
      cbn [source_link fst snd a_href a_textContent];
      (split; [reflexivity|]); split.
    - intros t0 [= <-] N'. now elim N'.
    - reflexivity.
    - now intros t0 [= <-] _.
    - intros [H | H]; discriminate H.
    - intros t0 [=].
    - reflexivity. }
  split.
  - intros E. rewrite E. exact Hidden.
  - intros E. destruct (kept_pairs chunks); [now elim E | reflexivity].
Qed.

End Sources.

(** The candidates of the specification: one uri under two titles, and
    one of them twice. *)
Lemma sources_kept_once_per_pair_witness :
  let chunks :=
    [ mkGroundingChunk (Some (mkWeb (Some "https://a") (Some "A")));
      mkGroundingChunk (Some (mkWeb (Some "https://a") (Some "B")));
      mkGroundingChunk (Some (mkWeb (Some "https://a") (Some "A"))) ] in
  exists (pairs : list (string * option string)) (p' : Page),
    displaySources (Some chunks) (fetchNews_loading initialPage) = Ok tt p' /\
    NoDup pairs /\
    (forall u t,
        In (u, t) pairs <->
        u <> "" /\ exists c, In c chunks /\ carries c u t) /\
    sourcesList p' = map source_link pairs /\
    (forall s, In s pairs ->
       a_href (source_link s) = fst s /\
       (forall t, snd s = Some t -> t <> "" -> a_textContent (source_link s) = t) /\
       (snd s = None \/ snd s = Some "" ->
        a_textContent (source_link s) = fst s)) /\
    (pairs = [] -> sourcesContainer_display p' = "none") /\
    (pairs <> [] -> sourcesContainer_display p' = "block").
Proof.
  apply (sources_kept_once_per_pair _ (fetchNews_loading initialPage)).
  reflexivity.
Defined.

Example same_uri_two_titles :
  map a_textContent
      (sourcesList (page_of (displaySources
         (Some [ mkGroundingChunk (Some (mkWeb (Some "https://a") (Some "A")));
                 mkGroundingChunk (Some (mkWeb (Some "https://a") (Some "B")));
                 mkGroundingChunk (Some (mkWeb (Some "https://a") (Some "A")));
                 mkGroundingChunk (Some (mkWeb (Some "https://b") None));
                 mkGroundingChunk (Some (mkWeb None (Some "C")));
                 mkGroundingChunk None ])
         (fetchNews_loading initialPage)))) =
  ["A"; "B"; "https://b"].
Proof. reflexivity. Qed.

(** C6 as stated fails on the empty string: a candidate whose uri is
    present and empty is not kept, and a title that is present and empty
    is not what the link shows. *)
Lemma empty_uri_and_empty_title :
  let dropped := mkGroundingChunk (Some (mkWeb (Some "") (Some "A"))) in
  let untitled := mkGroundingChunk (Some (mkWeb (Some "https://a") (Some ""))) in
  (web dropped <> None /\ (forall w, web dropped = Some w -> uri w <> None)) /\
  sourcesList (page_of (displaySources (Some [dropped])
                                       (fetchNews_loading initialPage))) = [] /\
  (forall w, web untitled = Some w -> title w = Some "") /\
  map a_textContent
      (sourcesList (page_of (displaySources (Some [untitled])
                                            (fetchNews_loading initialPage)))) =
  ["https://a"].
Proof.
  repeat split; try discriminate.
  - intros w [= <-]. discriminate.
  - now intros w [= <-].
Qed.
(* ================================================================== *)
(** * The sections of a response *)

Section Sections.

Variable JSON_parse : string -> string + anyData.

(** The summary section: rendered when present, and never an error. *)
Lemma summary_step (o : option Summary) (q : Page) :
  exists q',
    when o renderSummary q = Ok tt q' /\
    errorMessage_display q' = errorMessage_display q /\
    performanceContainer q' = performanceContainer q /\
    mwplContainer q' = mwplContainer q /\
    (o = None -> newsContainer q' = newsContainer q) /\
    (o <> None -> style_display (newsContainer q') = "block" /\
                  children (newsContainer q') <> []).
Proof.
  destruct o as [s|]; eexists; (split; [reflexivity|]); repeat split;
    try discriminate; try congruence.
Qed.



Lemma sources_page_frame (chunks : option (list GroundingChunk)) (q : Page) :
  errorMessage_display (sources_page chunks q) = errorMessage_display q /\
  newsContainer (sources_page chunks q) = newsContainer q /\
  performanceContainer (sources_page chunks q) = performanceContainer q /\
  mwplContainer (sources_page chunks q) = mwplContainer q.
Proof.
  destruct chunks as [cs|]; cbn; [|now repeat split].
  destruct (kept_pairs cs); now repeat split.
Qed.



End Sections.
(* ================================================================== *)
(** * Whole cycles *)



(** The same with a field that is absent: a stock without its [mwpl]
    object. *)
Example absent_period_object_is_fatal :
  let p' := fetchNews demo_parse (Some client)
                      (Fulfilled (fenced_response stock_without_mwpl_json))
                      initialPage in
  errorMessage_display p' = "block" /\
  errorMessage_textContent p' =
    "An error occurred while fetching news: TypeError: Cannot read properties of undefined (reading 'current')" /\
  style_display (newsContainer p') = "none" /\
  style_display (mwplContainer p') = "none".
Proof. repeat split. Qed.

(** A response with the three sections and three citations, two of them
    equal: the page once the cycle is done and the timers have fired. *)
Example scenario_three_sections :
  let result :=
    mkResponse
      (Some ("```json" ++ Str.LF ++ three_sections_json ++ Str.LF ++ "```"))
      (Some [ mkGroundingChunk (Some (mkWeb (Some "https://a") (Some "A")));
              mkGroundingChunk (Some (mkWeb (Some "https://a") (Some "B")));
              mkGroundingChunk (Some (mkWeb (Some "https://a") (Some "A"))) ]) in
  let p' := runTimers (fetchNews demo_parse (Some client) (Fulfilled result)
                                 initialPage) in
  errorMessage_display p' = "none" /\
  fetchBtn_disabled p' = false /\ loader_display p' = "none" /\
  style_display (newsContainer p') = "block" /\
  style_display (performanceContainer p') = "block" /\
  style_display (mwplContainer p') = "block" /\
  sourcesContainer_display p' = "block" /\
  map a_textContent (sourcesList p') = ["A"; "B"] /\
  map (fun i => map bar_style_width (bars_of i))
      (items_of (performanceContainer p')) =
  [[Some (Number.of_Z 50); Some (Number.of_Z 100)]; [Some (Number.of_Z 25)]] /\
  map (fun i => map bar_style_width (bars_of i)) (items_of (mwplContainer p')) =
  [[Some (Number.of_Z 45); Some (Number.of_Z 150)]] /\
  map item_label (items_of (mwplContainer p')) =
  [mkLabel "chart-label"
     (LabelLink (mkAnchor "https://www.moneycontrol.com/rbl" "RBLBANK"
                          "_blank" "noopener noreferrer"))].
Proof.
  vm_compute. repeat split.
Qed.

(** The text [no json here]: the cycle fails with the error of line 307. *)
Example scenario_no_json :
  let p' := fetchNews demo_parse (Some client)
                      (Fulfilled (mkResponse (Some "no json here") None))
                      initialPage in
  errorMessage_display p' = "block" /\
  errorMessage_textContent p' =
    "An error occurred while fetching news: Error: Could not find a valid JSON block in the response." /\
  fetchBtn_disabled p' = false /\ loader_display p' = "none".
Proof. repeat split. Qed.

(** A rejected request: the cycle fails and the trigger is enabled again. *)
Example scenario_rejected :
  let p' := fetchNews demo_parse (Some client)
                      (Rejected (mkExn "ApiError" "quota exceeded"))
                      initialPage in
  errorMessage_display p' = "block" /\
  errorMessage_textContent p' =
    "An error occurred while fetching news: ApiError: quota exceeded" /\
  fetchBtn_disabled p' = false /\ loader_display p' = "none" /\
  requests p' = 1.
Proof. repeat split. Qed.

(** A response without text: [result.text.trim()] throws, and the trigger
    is enabled again. *)
Example scenario_no_text :
  let p' := fetchNews demo_parse (Some client)
                      (Fulfilled (mkResponse None None)) initialPage in
  errorMessage_display p' = "block" /\
  fetchBtn_disabled p' = false /\ loader_display p' = "none".
Proof. repeat split. Qed.
(* ================================================================== *)
(** * The pending timers always belong to elements that exist *)

Section Fresh.

Variable JSON_parse : string -> string + anyData.

Lemma keeps_fresh_ret {A} (a : A) : keeps_fresh (ret a).
Proof. intros p F. exact F. Qed.

Lemma keeps_fresh_throw {A} (e : exn) : keeps_fresh (@throw A e).
Proof. intros p F. exact F. Qed.

Lemma keeps_fresh_bind {A B} (m : M A) (k : A -> M B) :
  keeps_fresh m -> (forall a, keeps_fresh (k a)) -> keeps_fresh (bind m k).
Proof.
  intros Hm Hk p F. unfold bind. specialize (Hm p F).
  destruct (m p) as [a p' | e p']; cbn in *; [now apply Hk | exact Hm].
Qed.

(** An assignment that touches neither the timers nor the identities. *)
Lemma keeps_fresh_exec (f : Page -> Page) :
  (forall p, next_id (f p) = next_id p /\ timers (f p) = timers p) ->
  keeps_fresh (exec f).
Proof.
  intros H p F. unfold timers_fresh, exec, page_of in *.
  destruct (H p) as [-> ->]. exact F.
Qed.

Lemma keeps_fresh_forEach {A B} (f : A -> M B) (l : list A) :
  (forall a, keeps_fresh (f a)) -> keeps_fresh (forEach f l).
Proof.
  intros H. induction l as [|a l IH]; cbn [forEach].
  - apply keeps_fresh_ret.
  - apply keeps_fresh_bind; [apply H|]. intros b.
    apply keeps_fresh_bind; [exact IH|]. intros bs. apply keeps_fresh_ret.
Qed.

Lemma keeps_fresh_renderBar (className : anyNumber -> string -> exn + string)
    (digits : nat) (m : number) (c : string) (v : anyNumber) :
  keeps_fresh (renderBar className digits m c v).
Proof.
  intros p F.
  assert (Created : timers_fresh (set_next_id (S (next_id p)) p)).
  { unfold timers_fresh in *. cbn [timers next_id set_next_id].
    eapply Forall_impl; [|exact F]. cbn. intros t. lia. }
  unfold renderBar, bind, createBar, lift, throw, ret.
  destruct (className v c) as [e | s]; [exact Created|].
  destruct (toFixed v digits) as [e | tx]; [exact Created|].
  destruct (Math_abs v) as [e | a]; [exact Created|].
  unfold setTimeout, exec, page_of, timers_fresh in *.
  cbn [timers next_id set_timers set_next_id] in *.
  apply Forall_app. split; [exact Created|].
  constructor; [cbn; lia | constructor].
Qed.

Lemma keeps_fresh_forPeriods (className : anyNumber -> string -> exn + string)
    (digits : nat) (m : number) (periods : list Period) :
  keeps_fresh (forPeriods (renderBar className digits m) periods).
Proof.
  induction periods as [|pd periods IH]; cbn [forPeriods].
  - apply keeps_fresh_ret.
  - destruct (period_value pd) as [v|]; [|exact IH].
    apply keeps_fresh_bind; [apply keeps_fresh_renderBar|]. intros w.
    apply keeps_fresh_bind; [exact IH|]. intros ws. apply keeps_fresh_ret.
Qed.

Lemma keeps_fresh_renderSectorGraphs (a : anyArray SectorPerformance) :
  keeps_fresh (renderSectorGraphs a).
Proof.
  unfold renderSectorGraphs.
  apply keeps_fresh_bind; [now apply keeps_fresh_exec|]. intros _.
  apply keeps_fresh_bind; [now apply keeps_fresh_exec|]. intros _.
  destruct a as [|data]; [apply keeps_fresh_throw|].
  destruct (sector_allValues data) as [e | vs]; [apply keeps_fresh_throw|].
  destruct (map_Math_abs vs) as [e | ms]; [apply keeps_fresh_throw|].
  apply keeps_fresh_bind.
  - apply keeps_fresh_forEach. intros d. unfold renderSectorItem.
    destruct (performance d); [|apply keeps_fresh_throw].
    apply keeps_fresh_bind; [apply keeps_fresh_forPeriods|].
    intros bars. apply keeps_fresh_ret.
  - intros items.
    apply keeps_fresh_bind; [now apply keeps_fresh_exec|]. intros _.
    now apply keeps_fresh_exec.
Qed.

Lemma keeps_fresh_renderMWPLChart (a : anyArray MWPLStockPerformance) :
  keeps_fresh (renderMWPLChart a).
Proof.
  unfold renderMWPLChart.
  apply keeps_fresh_bind; [now apply keeps_fresh_exec|]. intros _.
  apply keeps_fresh_bind; [now apply keeps_fresh_exec|]. intros _.
  destruct a as [|data]; [apply keeps_fresh_throw|].
  apply keeps_fresh_bind.
  - apply keeps_fresh_forEach. intros d. unfold renderMWPLItem.
    destruct (mwpl d); [|apply keeps_fresh_throw].
    apply keeps_fresh_bind; [apply keeps_fresh_forPeriods|].
    intros bars. apply keeps_fresh_ret.
  - intros items.
    apply keeps_fresh_bind; [now apply keeps_fresh_exec|]. intros _.
    now apply keeps_fresh_exec.
Qed.

Lemma keeps_fresh_when {A} (o : option A) (f : A -> M unit) :
  (forall a, keeps_fresh (f a)) -> keeps_fresh (when o f).
Proof. intros H. destruct o; [apply H | apply keeps_fresh_ret]. Qed.

Lemma keeps_fresh_fetchNews_try (settled : Settled) :
  keeps_fresh (fetchNews_try JSON_parse settled).
Proof.
  unfold fetchNews_try.
  destruct settled as [result | e]; [|apply keeps_fresh_throw].
  destruct (text result) as [t|]; [|apply keeps_fresh_throw].
  destruct (locate_jsonString (Str.trim t)) as [e | js]; [apply keeps_fresh_throw|].
  destruct (JSON_parse js) as [msg | [|data]]; try apply keeps_fresh_throw.
  apply keeps_fresh_bind.
  { apply keeps_fresh_when. intros s. unfold renderSummary.
    apply keeps_fresh_bind; [now apply keeps_fresh_exec|]. intros _.
    now apply keeps_fresh_exec. }
  intros _. apply keeps_fresh_bind.
  { apply keeps_fresh_when, keeps_fresh_renderSectorGraphs. }
  intros _. apply keeps_fresh_bind.
  { apply keeps_fresh_when, keeps_fresh_renderMWPLChart. }
  intros _ p F. rewrite displaySources_run. cbn [page_of].
  unfold timers_fresh, sources_page in *.
  destruct (groundingChunks result) as [cs|]; [|exact F].
  destruct (kept_pairs cs); exact F.
Qed.

Lemma fetchNews_fresh (ai : option GoogleGenAI) (settled : Settled) (p : Page) :
  timers_fresh p -> timers_fresh (fetchNews JSON_parse ai settled p).
Proof.
  intros F. unfold fetchNews. destruct ai as [c|]; [|exact F].
  pose proof (keeps_fresh_fetchNews_try settled (fetchNews_loading p) F) as G.
  destruct (fetchNews_try JSON_parse settled (fetchNews_loading p)); exact G.
Qed.

Lemma runTimers_fresh (p : Page) : timers_fresh (runTimers p).
Proof. constructor. Qed.

(** Every page that the script reaches satisfies the assumption under
    which the widths of the bars are stated. *)
Lemma reachable_fresh (p : Page) : reachable JSON_parse p -> timers_fresh p.
Proof.
  induction 1 as [| ai settled p _ IH | p _ _].
  - constructor.
  - now apply fetchNews_fresh.
  - apply runTimers_fresh.
Qed.

End Fresh.
(* ================================================================== *)
(** * More on the located payload *)

Section LocatedPayload.

Import Fence.

Lemma trimStart_ws (w s : string) :
  all_ws w = true -> Str.trimStart (w ++ s) = Str.trimStart s.
Proof.
  induction w as [|c w IH]; cbn; [reflexivity|].
  intros H. apply andb_true_iff in H as [C W]. now rewrite C, IH.
Qed.

Lemma trimStart_all_ws (w : string) : all_ws w = true -> Str.trimStart w = "".
Proof.
  intros H. rewrite <- (append_nil_r w). now rewrite trimStart_ws.
Qed.

Lemma trimEnd_all_ws (w : string) : all_ws w = true -> Str.trimEnd w = "".
Proof.
  induction w as [|c w IH]; cbn; [reflexivity|].
  intros H. apply andb_true_iff in H as [C W]. now rewrite IH, C.
Qed.

Lemma trimEnd_ws (s w : string) :
  all_ws w = true -> Str.trimEnd (s ++ w) = Str.trimEnd s.
Proof.
  intros W. induction s as [|c s IH].
  - cbn. now apply trimEnd_all_ws.
  - cbn [append Str.trimEnd]. now rewrite IH.
Qed.

Lemma trim_start_then_end_ws (s w : string) :
  all_ws w = true ->
  Str.trimEnd (Str.trimStart (s ++ w)) = Str.trimEnd (Str.trimStart s).
Proof.
  intros W. induction s as [|c s IH].
  - cbn [append Str.trimStart]. now rewrite (trimStart_all_ws _ W).
  - cbn [append Str.trimStart]. destruct (Str.isWhiteSpace c); [exact IH|].
    now apply (trimEnd_ws (String c s)).
Qed.

(** [trim] absorbs the white space on both sides. *)
Lemma trim_ws (w1 s w2 : string) :
  all_ws w1 = true -> all_ws w2 = true ->
  Str.trim (w1 ++ s ++ w2) = Str.trim s.
Proof.
  intros W1 W2. unfold Str.trim.
  now rewrite trimStart_ws, trim_start_then_end_ws.
Qed.

(** X1. Whatever text is located, through a fenced block or through the
    fallback, is not empty and is a contiguous part of the trimmed
    response: [JSON.parse] is never handed the empty string, nor anything
    that the response does not contain. *)
Theorem located_payload_is_part_of_text (t j : string) :
  locate_jsonString t = inr j ->
  j <> "" /\ exists pre post, t = pre ++ j ++ post.
Proof.
  unfold locate_jsonString.
  assert (Fallback :
            (if Str.startsWith t "{" && Str.endsWith t "}"
             then inr t
             else inl (Error "Could not find a valid JSON block in the response."))
            = inr j ->
            j <> "" /\ exists pre post, t = pre ++ j ++ post).
  { destruct (Str.startsWith t "{") eqn:S; [|discriminate].
    destruct (Str.endsWith t "}"); [|discriminate].
    intros [= <-]. apply startsWith_spec in S as [r ->]. split; [discriminate|].
    exists "", "". cbn. now rewrite append_nil_r. }
  destruct (match_fence t) as [c|] eqn:M; [|exact Fallback].
  destruct c as [|a c]; [exact Fallback|].
  intros [= <-]. split; [discriminate|].
  apply match_fence_sound in M as (pre & post & E & _).
  exists (pre ++ opener), (closer ++ post). now rewrite append_assoc.
Qed.

Lemma located_payload_is_part_of_text_witness :
  let t := "Done. ```json" ++ Str.LF ++ "{}" ++ Str.LF ++ "```" in
  "{}" <> "" /\ exists pre post, t = pre ++ "{}" ++ post.
Proof.
  apply (located_payload_is_part_of_text _ "{}"). reflexivity.
Defined.

(** X2. The content taken out of a fenced block never holds the closing
    marker (a line feed and three backquotes): a located text that holds it
    is the whole trimmed response, returned by the fallback.  A payload in
    which the marker occurs is therefore cut at its first occurrence. *)
Theorem fenced_content_has_no_closing_marker (t j : string) :
  locate_jsonString t = inr j ->
  (exists a b, j = a ++ closer ++ b) ->
  j = t /\ (match_fence t = None \/ match_fence t = Some "").
Proof.
  unfold locate_jsonString. intros L (a & b & J).
  assert (Fallback :
            (if Str.startsWith t "{" && Str.endsWith t "}"
             then inr t
             else inl (Error "Could not find a valid JSON block in the response."))
            = inr j -> j = t).
  { destruct (Str.startsWith t "{" && Str.endsWith t "}"); [|discriminate].
    now intros [= <-]. }
  destruct (match_fence t) as [c|] eqn:M.
  - destruct c as [|x c]; [split; [now apply Fallback | now right]|].
    cbn [Str.truthy] in L. injection L as <-.
    apply match_fence_sound in M as (pre & post & E & Least).
    exfalso. rewrite J in E. rewrite !append_assoc in E.
    destruct (Least pre a (b ++ closer ++ post) E) as [H | [_ H]]; [lia|].
    rewrite J, !length_append in H. cbn in H. lia.
  - split; [now apply Fallback | now left].
Qed.

Lemma fenced_content_has_no_closing_marker_witness :
  let t := "{" ++ Str.LF ++ "```}" in
  t = t /\ (match_fence t = None \/ match_fence t = Some "").
Proof.
  apply (fenced_content_has_no_closing_marker ("{" ++ Str.LF ++ "```}")).
  - reflexivity.
  - exists "{", "}". reflexivity.
Defined.

(** A payload with a fenced block inside one of its strings is cut at the
    closing marker of that block. *)
Example inner_fence_cuts_payload :
  locate_jsonString
    ("```json" ++ Str.LF ++ "{" ++ DQ ++ "a" ++ DQ ++ ":" ++ DQ ++ "see" ++
     Str.LF ++ "``` below" ++ DQ ++ "}" ++ Str.LF ++ "```") =
  inr ("{" ++ DQ ++ "a" ++ DQ ++ ":" ++ DQ ++ "see").
Proof. reflexivity. Qed.

Variable JSON_parse : string -> string + anyData.

(** X3. White space around the text of a response never changes what a
    cycle does: the text is trimmed before anything is looked for in it. *)
Theorem surrounding_white_space_is_ignored
    (ai : option GoogleGenAI) (w1 t w2 : string)
    (chunks : option (list GroundingChunk)) (p : Page) :
  all_ws w1 = true -> all_ws w2 = true ->
  fetchNews JSON_parse ai
            (Fulfilled (mkResponse (Some (w1 ++ t ++ w2)) chunks)) p =
  fetchNews JSON_parse ai (Fulfilled (mkResponse (Some t) chunks)) p.
Proof.
  intros W1 W2. unfold fetchNews, fetchNews_try. cbn [text groundingChunks].
  now rewrite (trim_ws w1 t w2 W1 W2).
Qed.

End LocatedPayload.

Lemma surrounding_white_space_is_ignored_witness :
  fetchNews demo_parse (Some client)
            (Fulfilled (mkResponse
               (Some ((Str.LF ++ "  ") ++
                      ("```json" ++ Str.LF ++ summary_only_json ++ Str.LF ++ "```") ++
                      (" " ++ Str.LF)))
               None)) initialPage =
  fetchNews demo_parse (Some client)
            (Fulfilled (mkResponse
               (Some ("```json" ++ Str.LF ++ summary_only_json ++ Str.LF ++ "```"))
               None)) initialPage.
Proof.
  apply (surrounding_white_space_is_ignored demo_parse); reflexivity.
Defined.
(* ================================================================== *)
(** * What a cycle leaves alone *)

Section Keeps.

Context {T : Type} (f : Page -> T).

Lemma keeps_ret {A} (a : A) : keeps f (ret a).
Proof. intros p. reflexivity. Qed.

Lemma keeps_throw {A} (e : exn) : keeps f (@throw A e).
Proof. intros p. reflexivity. Qed.

Lemma keeps_bind {A B} (m : M A) (k : A -> M B) :
  keeps f m -> (forall a, keeps f (k a)) -> keeps f (bind m k).
Proof.
  intros Hm Hk p. unfold bind. specialize (Hm p).
  destruct (m p) as [a p' | e p']; cbn in *; [|exact Hm].
  now rewrite Hk.
Qed.

Lemma keeps_exec (g : Page -> Page) :
  (forall p, f (g p) = f p) -> keeps f (exec g).
Proof. intros H p. apply H. Qed.

Lemma keeps_forEach {A B} (h : A -> M B) (l : list A) :
  (forall a, keeps f (h a)) -> keeps f (forEach h l).
Proof.
  intros H. induction l as [|a l IH]; cbn [forEach].
  - apply keeps_ret.
  - apply keeps_bind; [apply H|]. intros b.
    apply keeps_bind; [exact IH|]. intros bs. apply keeps_ret.
Qed.

Lemma keeps_when {A} (o : option A) (h : A -> M unit) :
  (forall a, keeps f (h a)) -> keeps f (when o h).
Proof. intros H. destruct o; [apply H | apply keeps_ret]. Qed.

(** [f] reads nothing of what the run time keeps for the timers. *)
Hypothesis f_advance : forall n ts p, f (advance n ts p) = f p.

Lemma keeps_renderBar (className : anyNumber -> string -> exn + string)
    (digits : nat) (m : number) (c : string) (v : anyNumber) :
  keeps f (renderBar className digits m c v).
Proof.
  intros p. unfold renderBar, bind, createBar, lift, throw, ret.
  destruct (className v c) as [e | s]; cbn [page_of];
    [rewrite advance_created; apply f_advance|].
  destruct (toFixed v digits) as [e | tx]; cbn [page_of];
    [rewrite advance_created; apply f_advance|].
  destruct (Math_abs v) as [e | a]; cbn [page_of];
    [rewrite advance_created; apply f_advance|].
  apply (f_advance 1 [mkTimer (next_id p) _] p).
Qed.

Lemma keeps_forPeriods (className : anyNumber -> string -> exn + string)
    (digits : nat) (m : number) (periods : list Period) :
  keeps f (forPeriods (renderBar className digits m) periods).
Proof.
  induction periods as [|pd periods IH]; cbn [forPeriods].
  - apply keeps_ret.
  - destruct (period_value pd) as [v|]; [|exact IH].
    apply keeps_bind; [apply keeps_renderBar|]. intros w.
    apply keeps_bind; [exact IH|]. intros ws. apply keeps_ret.
Qed.

Lemma keeps_renderSectorGraphs (a : anyArray SectorPerformance) :
  (forall g p, f (upd_performanceContainer g p) = f p) ->
  keeps f (renderSectorGraphs a).
Proof.
  intros H. unfold renderSectorGraphs.
  apply keeps_bind; [now apply keeps_exec|]. intros _.
  apply keeps_bind; [now apply keeps_exec|]. intros _.
  destruct a as [|data]; [apply keeps_throw|].
  destruct (sector_allValues data) as [e | vs]; [apply keeps_throw|].
  destruct (map_Math_abs vs) as [e | ms]; [apply keeps_throw|].
  apply keeps_bind.
  - apply keeps_forEach. intros d. unfold renderSectorItem.
    destruct (performance d); [|apply keeps_throw].
    apply keeps_bind; [apply keeps_forPeriods|].
    intros bars. apply keeps_ret.
  - intros items.
    apply keeps_bind; [now apply keeps_exec|]. intros _.
    now apply keeps_exec.
Qed.

Lemma keeps_renderMWPLChart (a : anyArray MWPLStockPerformance) :
  (forall g p, f (upd_mwplContainer g p) = f p) ->
  keeps f (renderMWPLChart a).
Proof.
  intros H. unfold renderMWPLChart.
  apply keeps_bind; [now apply keeps_exec|]. intros _.
  apply keeps_bind; [now apply keeps_exec|]. intros _.
  destruct a as [|data]; [apply keeps_throw|].
  apply keeps_bind.
  - apply keeps_forEach. intros d. unfold renderMWPLItem.
    destruct (mwpl d); [|apply keeps_throw].
    apply keeps_bind; [apply keeps_forPeriods|].
    intros bars. apply keeps_ret.
  - intros items.
    apply keeps_bind; [now apply keeps_exec|]. intros _.
    now apply keeps_exec.
Qed.

Variable JSON_parse : string -> string + anyData.

(** The [try] block leaves alone whatever is neither a result container
    nor the list of sources nor kept for the timers. *)
Lemma keeps_fetchNews_try (settled : Settled) :
  (forall g p, f (upd_newsContainer g p) = f p) ->
  (forall g p, f (upd_performanceContainer g p) = f p) ->
  (forall g p, f (upd_mwplContainer g p) = f p) ->
  (forall l p, f (set_sourcesList l p) = f p) ->
  (forall d p, f (set_sourcesContainer_display d p) = f p) ->
  keeps f (fetchNews_try JSON_parse settled).
Proof.
  intros HN HP HM HL HD. unfold fetchNews_try.
  destruct settled as [result | e]; [|apply keeps_throw].
  destruct (text result) as [t|]; [|apply keeps_throw].
  destruct (locate_jsonString (Str.trim t)) as [e | js]; [apply keeps_throw|].
  destruct (JSON_parse js) as [msg | [|data]]; try apply keeps_throw.
  apply keeps_bind.
  { apply keeps_when. intros s. unfold renderSummary.
    apply keeps_bind; [now apply keeps_exec|]. intros _.
    now apply keeps_exec. }
  intros _. apply keeps_bind.
  { apply keeps_when. intros a. now apply keeps_renderSectorGraphs. }
  intros _. apply keeps_bind.
  { apply keeps_when. intros a. now apply keeps_renderMWPLChart. }
  intros _ p. rewrite displaySources_run. cbn [page_of].
  unfold sources_page.
  destruct (groundingChunks result) as [cs|]; [|reflexivity].
  destruct (kept_pairs cs); [apply HL|]. now rewrite HD, HL.
Qed.

End Keeps.

Section Cycle.

Variable JSON_parse : string -> string + anyData.

Lemma fetchNews_two_steps (c : GoogleGenAI) (settled : Settled) (p : Page) :
  fetchNews JSON_parse (Some c) settled p =
  fetchNews_settled JSON_parse settled (fetchNews_loading p).
Proof. reflexivity. Qed.

(** X4. With the client initialized, a call of [fetchNews] sends exactly
    one request, however it ends: nothing is sent again after a failure,
    and nothing is sent twice. *)
Theorem one_request_per_cycle (c : GoogleGenAI) (settled : Settled) (p : Page) :
  requests (fetchNews JSON_parse (Some c) settled p) = S (requests p).
Proof.
  unfold fetchNews.
  pose proof (keeps_fetchNews_try requests
                (fun n ts p => eq_refl) JSON_parse settled
                (fun g p => eq_refl) (fun g p => eq_refl) (fun g p => eq_refl)
                (fun l p => eq_refl) (fun d p => eq_refl)
                (fetchNews_loading p)) as K.
  destruct (fetchNews_try JSON_parse settled (fetchNews_loading p));
    cbn [page_of] in K; cbn; exact K.
Qed.

(** X5. At the end of a cycle the loader is hidden and the page is in one
    of two states.  Either the [try] block returned and the error banner
    is hidden; or it threw, and then the banner is shown with the text of
    the exception after a fixed prefix while the three result containers
    and the sources container are all hidden.  Results and the error are
    never shown together. *)
Theorem results_or_error_never_both (c : GoogleGenAI) (settled : Settled)
    (p : Page) :
  let p' := fetchNews JSON_parse (Some c) settled p in
  loader_display p' = "none" /\
  ((exists q,
       fetchNews_try JSON_parse settled (fetchNews_loading p) = Ok tt q /\
       errorMessage_display p' = "none") \/
   (exists e q,
       fetchNews_try JSON_parse settled (fetchNews_loading p) = Throw e q /\
       errorMessage_display p' = "block" /\
       errorMessage_textContent p' =
         "An error occurred while fetching news: " ++ exn_toString e /\
       style_display (newsContainer p') = "none" /\
       style_display (performanceContainer p') = "none" /\
       style_display (mwplContainer p') = "none" /\
       sourcesContainer_display p' = "none")).
Proof.
  intros p'. split; [reflexivity|]. unfold p', fetchNews.
  pose proof (keeps_fetchNews_try errorMessage_display
                (fun n ts p => eq_refl) JSON_parse settled
                (fun g p => eq_refl) (fun g p => eq_refl) (fun g p => eq_refl)
                (fun l p => eq_refl) (fun d p => eq_refl)
                (fetchNews_loading p)) as K.
  destruct (fetchNews_try JSON_parse settled (fetchNews_loading p))
    as [[] q | e q].
  - left. exists q. split; [reflexivity|]. exact K.
  - right. exists e, q. now repeat split.
Qed.

(** X6. A cycle starts from a clean page: what it leaves depends on the
    page it starts from only through the text of the last error (left in
    the hidden banner) and what the run time keeps (identities, timers,
    count of requests).  Nothing that an earlier cycle rendered, showed or
    hid survives. *)
Theorem earlier_results_do_not_survive (c : GoogleGenAI) (settled : Settled)
    (p q : Page) :
  errorMessage_textContent p = errorMessage_textContent q ->
  next_id p = next_id q ->
  timers p = timers q ->
  requests p = requests q ->
  fetchNews JSON_parse (Some c) settled p =
  fetchNews JSON_parse (Some c) settled q.
Proof.
  intros E N Ti R. rewrite !fetchNews_two_steps, !fetchNews_loading_page.
  now rewrite E, N, Ti, R.
Qed.

Lemma runTimers_controls (p : Page) :
  fetchBtn_disabled (runTimers p) = fetchBtn_disabled p /\
  loader_display (runTimers p) = loader_display p.
Proof.
  unfold runTimers. cbn [fetchBtn_disabled loader_display set_timers].
  generalize (timers p) as ts. intros ts. revert p.
  induction ts as [|t ts IH]; intros p; [now split|].
  cbn [fold_left]. destruct (IH (fire t p)) as [-> ->]. now split.
Qed.

(** X7. Over every sequence of clicks, settlements and timer firings from
    the page of the document: at most one call of [fetchNews] is suspended
    at its request; the trigger is disabled, and the loader shown, exactly
    while one is.  A click cannot start a second request while one is
    out. *)
Theorem at_most_one_request_in_flight
    (ai : option GoogleGenAI) (evs : list AppEvent) :
  let a := app_run JSON_parse ai evs initialApp in
  (app_inflight a = 0 /\ fetchBtn_disabled (app_page a) = false /\
   loader_display (app_page a) <> "block") \/
  (app_inflight a = 1 /\ fetchBtn_disabled (app_page a) = true /\
   loader_display (app_page a) = "block").
Proof.
  cbv zeta. unfold app_run.
  assert (G : forall a,
             (app_inflight a = 0 /\ fetchBtn_disabled (app_page a) = false /\
              loader_display (app_page a) <> "block") \/
             (app_inflight a = 1 /\ fetchBtn_disabled (app_page a) = true /\
              loader_display (app_page a) = "block") ->
             let a' := fold_left (app_step JSON_parse ai) evs a in
             (app_inflight a' = 0 /\ fetchBtn_disabled (app_page a') = false /\
              loader_display (app_page a') <> "block") \/
             (app_inflight a' = 1 /\ fetchBtn_disabled (app_page a') = true /\
              loader_display (app_page a') = "block")).
  { induction evs as [|ev evs IH]; intros a I; [exact I|].
    cbn [fold_left]. apply IH. clear IH.
    destruct a as [pg n]. cbn [app_page app_inflight] in I.
    destruct ev as [| settled |]; cbn [app_step app_page app_inflight].
    - destruct I as [(-> & D & L) | (-> & D & L)]; rewrite D.
      + destruct ai as [c|]; cbn [app_page app_inflight].
        * right. now repeat split.
        * left. now repeat split.
      + right. now repeat split.
    - destruct I as [(-> & D & L) | (-> & D & L)].
      + left. now repeat split.
      + left. cbn [app_page app_inflight]. repeat split. discriminate.
    - destruct (runTimers_controls pg) as [D' L'].
      rewrite D', L'. exact I. }
  apply G. left. repeat split. discriminate.
Qed.

(** A click and the settlement of its request are one call of
    [fetchNews]. *)
Example click_then_settle (settled : Settled) :
  app_page (app_run JSON_parse (Some client)
                    [FetchClick; RequestSettled settled] initialApp) =
  fetchNews JSON_parse (Some client) settled initialPage.
Proof. reflexivity. Qed.

End Cycle.

(** A click while the request is out is not delivered: one request. *)
Example click_while_loading :
  requests (app_page (app_run demo_parse (Some client)
                              [FetchClick; FetchClick; FetchClick;
                               RequestSettled (Rejected (Error "offline"))]
                              initialApp)) = 1.
Proof. reflexivity. Qed.

Lemma earlier_results_do_not_survive_witness :
  let p := fetchNews demo_parse (Some client)
                     (Fulfilled (fenced_response summary_only_json))
                     (mkPage false "" (mkContainer [] "") (mkContainer [] "")
                             (mkContainer [] "") [] "" "" "" 0 [] 1) in
  fetchNews demo_parse (Some client) (Rejected (Error "offline")) p =
  fetchNews demo_parse (Some client) (Rejected (Error "offline"))
            (mkPage false "" (mkContainer [] "") (mkContainer [] "")
                    (mkContainer [] "") [] "" "" "" 0 [] 2).
Proof.
  apply (earlier_results_do_not_survive demo_parse); reflexivity.
Defined.
(* ================================================================== *)
(** * More on the charts *)

Section ChartsMore.

Lemma Forall2_flat {A B C D} (R : C -> D -> Prop) (f : A -> list C)
    (g : B -> list D) (l : list A) (l' : list B) :
  Forall2 (fun a b => Forall2 R (f a) (g b)) l l' ->
  Forall2 R (flat_map f l) (flat_map g l').
Proof.
  induction 1 as [|a b l l' H _ IH]; cbn; [constructor|].
  now apply Forall2_app.
Qed.

Lemma Forall2_right {A B} (R : A -> B -> Prop) (l : list A) (l' : list B) :
  Forall2 R l l' -> Forall (fun b => exists a, In a l /\ R a b) l'.
Proof.
  induction 1 as [|a b l l' H _ IH]; constructor.
  - exists a. split; [now left | exact H].
  - eapply Forall_impl; [|exact IH]. intros b' (a' & I & H').
    exists a'. split; [now right | exact H'].
Qed.

Lemma items_from_labels (cls : number -> string -> string) (digits : nat)
    (rows : list Row) (id0 : nat) :
  map item_label (items_from cls digits id0 rows) = map fst rows.
Proof.
  revert id0; induction rows as [|r rows IH]; intros id0; cbn;
    [reflexivity | now rewrite IH].
Qed.

(** X9. The sector chart replaces whatever its container held: on a
    section of the shape the renderer relies on, which is when it returns,
    the container holds after the rendering the heading, the legend and
    one item for each datum, in the order of the data, each labelled with
    the plain text of its sector, and it is shown. *)
Theorem sector_chart_replaces_content
    (data : list SectorPerformance) (p : Page) :
  sector_shaped (IsArray data) ->
  exists p' legend items,
    renderSectorGraphs (IsArray data) p = Ok tt p' /\
    children (performanceContainer p') =
      Markup "<h2>Sector Performance (%)</h2>" :: LegendNode legend ::
      map ItemNode items /\
    legend_className legend = "chart-legend" /\
    map item_label items =
      map (fun d => mkLabel "chart-label" (LabelText (sector d))) data /\
    style_display (performanceContainer p') = "block".
Proof.
  intros F. do 3 eexists.
  split; [apply (renderSectorGraphs_run data p F)|].
  cbn [performanceContainer children style_display app].
  split; [reflexivity|]. split; [reflexivity|]. split; [|reflexivity].
  rewrite items_from_labels. unfold sector_rows. rewrite map_map. reflexivity.
Qed.

Lemma sector_chart_replaces_content_witness :
  exists p' legend items,
    renderSectorGraphs (IsArray sector_sample)
      (page_of (renderSectorGraphs (IsArray sector_sample) initialPage)) =
      Ok tt p' /\
    children (performanceContainer p') =
      Markup "<h2>Sector Performance (%)</h2>" :: LegendNode legend ::
      map ItemNode items /\
    legend_className legend = "chart-legend" /\
    map item_label items =
      map (fun d => mkLabel "chart-label" (LabelText (sector d)))
          sector_sample /\
    style_display (performanceContainer p') = "block".
Proof.
  apply (sector_chart_replaces_content sector_sample).
  repeat constructor; eexists; (split; [reflexivity|]);
    split; repeat constructor; (discriminate || (eexists; reflexivity)).
Defined.

(** Items whose labels are those computed from the data. *)
Lemma Forall2_by_label {A} (label : A -> Label) (P : A -> Label -> Prop)
    (data : list A) (items : list ItemContainer) :
  map item_label items = map label data ->
  (forall d, P d (label d)) ->
  Forall2 (fun d item => P d (item_label item)) data items.
Proof.
  intros E H. revert items E.
  induction data as [|d data IH]; intros [|i items] E; try discriminate;
    constructor.
  - injection E as -> _. apply H.
  - apply IH. now injection E.
Qed.

(** X10. The MWPL chart replaces whatever its container held, on a
    section of the shape the renderer relies on, which is when it returns,
    with one item for each stock in the order of the data.  The label of a
    stock that has a url that is not empty is a link to that url, with the
    ticker as its text, opening in a new browsing context with
    [rel="noopener noreferrer"]; the label of a stock without url, or with
    an empty one, is the plain text of the ticker. *)
Theorem mwpl_chart_labels_and_links
    (data : list MWPLStockPerformance) (p : Page) :
  mwpl_shaped (IsArray data) ->
  exists p' legend items,
    renderMWPLChart (IsArray data) p = Ok tt p' /\
    children (mwplContainer p') =
      Markup "<h2>Top 10 Stocks by MWPL (%)</h2>" :: LegendNode legend ::
      map ItemNode items /\
    style_display (mwplContainer p') = "block" /\
    Forall2
      (fun d item =>
         label_className (item_label item) = "chart-label" /\
         (forall u, url d = Some u -> u <> "" ->
            label_content (item_label item) =
            LabelLink (mkAnchor u (stock d) "_blank" "noopener noreferrer")) /\
         (url d = None \/ url d = Some "" ->
            label_content (item_label item) = LabelText (stock d)))
      data items.
Proof.
  intros F. do 3 eexists.
  split; [apply (renderMWPLChart_run data p F)|].
  cbn [mwplContainer children style_display app].
  split; [reflexivity|]. split; [reflexivity|].
  apply (Forall2_by_label mwpl_label
           (fun d lbl =>
              label_className lbl = "chart-label" /\
              (forall u, url d = Some u -> u <> "" ->
                 label_content lbl =
                 LabelLink (mkAnchor u (stock d) "_blank" "noopener noreferrer")) /\
              (url d = None \/ url d = Some "" ->
                 label_content lbl = LabelText (stock d)))).
  - rewrite items_from_labels. unfold mwpl_rows. now rewrite map_map.
  - intros d. unfold mwpl_label. cbn [label_className label_content].
    split; [reflexivity|]. split.
    + intros u -> N. destruct u; [now elim N | reflexivity].
    + intros [-> | ->]; reflexivity.
Qed.

Lemma mwpl_chart_labels_and_links_witness :
  exists p' legend items,
    renderMWPLChart (IsArray mwpl_sample) initialPage = Ok tt p' /\
    children (mwplContainer p') =
      Markup "<h2>Top 10 Stocks by MWPL (%)</h2>" :: LegendNode legend ::
      map ItemNode items /\
    style_display (mwplContainer p') = "block" /\
    Forall2
      (fun d item =>
         label_className (item_label item) = "chart-label" /\
         (forall u, url d = Some u -> u <> "" ->
            label_content (item_label item) =
            LabelLink (mkAnchor u (stock d) "_blank" "noopener noreferrer")) /\
         (url d = None \/ url d = Some "" ->
            label_content (item_label item) = LabelText (stock d)))
      mwpl_sample items.
Proof.
  apply (mwpl_chart_labels_and_links mwpl_sample).
  repeat constructor; eexists; (split; [reflexivity|]);
    repeat constructor; eexists; reflexivity.
Defined.

End ChartsMore.
(* ================================================================== *)
(** * A chart that fails, and the charts of a whole cycle *)

Section FailedChart.

(** X11. A chart is attached whole or not at all.  When a renderer
    throws, the exception is a [TypeError], its container holds the heading
    and the legend and no item, whatever number of items had been built,
    and the container is not shown by the renderer: its [display] is what
    it was. *)
Theorem failed_chart_attaches_no_item :
  (forall (a : anyArray SectorPerformance) (p p' : Page) (e : exn),
      renderSectorGraphs a p = Throw e p' ->
      exn_name e = "TypeError" /\
      (exists legend,
          children (performanceContainer p') =
          [Markup "<h2>Sector Performance (%)</h2>"; LegendNode legend]) /\
      style_display (performanceContainer p') =
      style_display (performanceContainer p)) /\
  (forall (a : anyArray MWPLStockPerformance) (p p' : Page) (e : exn),
      renderMWPLChart a p = Throw e p' ->
      exn_name e = "TypeError" /\
      (exists legend,
          children (mwplContainer p') =
          [Markup "<h2>Top 10 Stocks by MWPL (%)</h2>"; LegendNode legend]) /\
      style_display (mwplContainer p') = style_display (mwplContainer p)).
Proof.
  split; intros a p p' e H.
  - destruct (renderSectorGraphs_throws a p p' e H) as (_ & T & C & D).
    split; [exact T|]. split; [eexists; exact C | exact D].
  - destruct (renderMWPLChart_throws a p p' e H) as (_ & T & C & D).
    split; [exact T|]. split; [eexists; exact C | exact D].
Qed.

End FailedChart.

(** Two stocks built, the third without its [mwpl] object: nothing is
    attached. *)
Lemma failed_chart_attaches_no_item_witness :
  let data :=
    [ mkMWPLStockPerformance "RBLBANK" None
        (Some [("current", IsNumber (Number.of_Z 45))]);
      mkMWPLStockPerformance "SAIL" None
        (Some [("current", IsNumber (Number.of_Z 80));
               ("oneWeekAgo", IsNumber (Number.of_Z 75))]);
      mkMWPLStockPerformance "IDEA" None None ] in
  let r := renderMWPLChart (IsArray data) initialPage in
  (exists legend,
      children (mwplContainer (page_of r)) =
      [Markup "<h2>Top 10 Stocks by MWPL (%)</h2>"; LegendNode legend]) /\
  style_display (mwplContainer (page_of r)) =
  style_display (mwplContainer initialPage).
Proof.
  cbv zeta.
  destruct (renderMWPLChart _ initialPage) as [u q | e q] eqn:R.
  - vm_compute in R. discriminate R.
  - destruct (proj2 failed_chart_attaches_no_item _ _ _ _ R) as (_ & C & D).
    cbn [page_of]. split; [exact C | exact D].
Defined.

(** The bars of the two stocks that were built had their timers scheduled;
    they fire on elements that are in no document. *)
Example failed_chart_leaves_timers :
  let r := renderMWPLChart
             (IsArray
                [ mkMWPLStockPerformance "RBLBANK" None
                    (Some [("current", IsNumber (Number.of_Z 45))]);
                  mkMWPLStockPerformance "SAIL" None
                    (Some [("current", IsNumber (Number.of_Z 80));
                           ("oneWeekAgo", IsNumber (Number.of_Z 75))]);
                  mkMWPLStockPerformance "IDEA" None None ]) initialPage in
  List.length (timers (page_of r)) = 3 /\
  mwplContainer (runTimers (page_of r)) = mwplContainer (page_of r).
Proof. vm_compute. split; reflexivity. Qed.

(* ------------------------------------------------------------------ *)

Section CycleCharts.

Variable JSON_parse : string -> string + anyData.

Lemma bar_settles_later (m : number) (old later : list Timer) (s0 : nat)
    (pre post : list (string * number)) (s : string * number)
    (cn : string) (tx : FixedPercent) :
  Forall (fun t => timer_bar t < s0) old ->
  Forall (fun t => List.length (pre ++ s :: post) + s0 <= timer_bar t) later ->
  settle_bar ((old ++ timers_from m s0 (pre ++ s :: post)) ++ later)
             (mkBar (List.length pre + s0) cn tx None) =
  mkBar (List.length pre + s0) cn tx (applied_width (bar_width (snd s) m)).
Proof.
  intros Old Later. rewrite settle_bar_app, (bar_settles _ _ _ _ _ _ _ _ Old).
  apply settle_bar_others. eapply Forall_impl; [|exact Later].
  cbn [bar_id]. intros t. rewrite length_app. cbn [List.length]. lia.
Qed.

Lemma bars_settle_later (cls : number -> string -> string) (digits : nat) (m : number)
    (old later : list Timer) (s0 : nat) (post ss pre : list (string * number)) :
  Forall (fun t => timer_bar t < s0) old ->
  Forall (fun t => List.length (pre ++ ss ++ post) + s0 <= timer_bar t) later ->
  Forall2 (bar_drawn cls digits m) ss
    (map (settle_bar ((old ++ timers_from m s0 (pre ++ ss ++ post)) ++ later))
         (map wrapper_bar (bars_from cls digits (List.length pre + s0) ss))).
Proof.
  intros Old. revert pre; induction ss as [|s ss IH]; intros pre Later.
  - constructor.
  - cbn [bars_from map wrapper_bar app] in *. constructor.
    + rewrite (bar_settles_later m old later s0 pre (ss ++ post) s _ _ Old Later).
      now repeat split.
    + specialize (IH (pre ++ [s])%list).
      replace (List.length (pre ++ [s]) + s0) with (S (List.length pre + s0))
        in IH by (rewrite length_app; cbn; lia).
      replace ((pre ++ [s]) ++ ss ++ post)%list with (pre ++ s :: ss ++ post)%list
        in IH by (now rewrite <- app_assoc).
      apply IH. exact Later.
Qed.

Lemma items_settle_later (cls : number -> string -> string) (digits : nat) (m : number)
    (old later : list Timer) (s0 : nat) (post : list (string * number))
    (rows : list Row) (pre : list (string * number)) :
  Forall (fun t => timer_bar t < s0) old ->
  Forall (fun t => List.length (pre ++ row_samples rows ++ post) + s0
                   <= timer_bar t) later ->
  Forall2 (item_drawn cls digits m) rows
    (map (settle_item
            ((old ++ timers_from m s0 (pre ++ row_samples rows ++ post)) ++ later))
         (items_from cls digits (List.length pre + s0) rows)).
Proof.
  intros Old. revert pre; induction rows as [|r rows IH]; intros pre Later.
  - constructor.
  - cbn [items_from map row_samples flat_map] in *. fold (row_samples rows) in *.
    rewrite <- (app_assoc (snd r)) in *.
    constructor.
    + destruct (settle_item_fields
                  ((old ++ timers_from m s0
                             (pre ++ snd r ++ row_samples rows ++ post)) ++ later)
                  (mkItemContainer "chart-bar-container" (fst r)
                     (mkBarsGroup "chart-bars-group"
                        (bars_from cls digits (List.length pre + s0) (snd r)))))
        as (A & B & C & D).
      unfold item_drawn. rewrite A, B, C, D. repeat split.
      unfold bars_of. cbn [item_barsGroup group_children].
      now apply bars_settle_later.
    + specialize (IH (pre ++ snd r)%list).
      replace (List.length (pre ++ snd r) + s0)
        with (List.length (snd r) + (List.length pre + s0))
        in IH by (rewrite length_app; lia).
      replace ((pre ++ snd r) ++ row_samples rows ++ post)%list
        with (pre ++ snd r ++ row_samples rows ++ post)%list
        in IH by (now rewrite <- app_assoc).
      apply IH. exact Later.
Qed.

Lemma items_from_unset (cls : number -> string -> string) (digits : nat)
    (rows : list Row) (id0 : nat) :
  Forall (fun b => bar_style_width b = None)
         (flat_map bars_of (items_from cls digits id0 rows)).
Proof.
  pose proof (items_created cls digits rows id0) as C.
  assert (F : Forall2 (fun s b => bar_className b = cls (snd s) (fst s) /\
                                  bar_textContent b = mkFixedPercent (snd s) digits /\
                                  bar_style_width b = None)
                      (flat_map snd rows)
                      (flat_map bars_of (items_from cls digits id0 rows))).
  { apply Forall2_flat. eapply Forall2_impl; [|exact C]. now intros r i [_ B]. }
  eapply Forall_impl; [|apply (Forall2_right _ _ _ F)].
  now intros b (s & _ & _ & _ & W).
Qed.

(** The sector section of a cycle, from a page whose sector container
    holds no item. *)
Lemma sector_section_run (o : option (anyArray SectorPerformance)) (q : Page) :
  (forall a, o = Some a -> sector_shaped a) ->
  items_of (performanceContainer q) = [] ->
  exists q',
    when o renderSectorGraphs q = Ok tt q' /\
    items_of (performanceContainer q') =
      items_from sector_bar_class 2 (next_id q) (sector_section_rows o) /\
    next_id q' = List.length (row_samples (sector_section_rows o)) + next_id q /\
    timers q' =
      (timers q ++
       timers_from (sector_section_max o)
                   (next_id q) (row_samples (sector_section_rows o)))%list /\
    mwplContainer q' = mwplContainer q.
Proof.
  intros S E. destruct o as [[|data]|].
  - elim (S _ eq_refl).
  - eexists. split; [apply (renderSectorGraphs_run data q (S _ eq_refl))|].
    cbn [sector_section_rows sector_section_max performanceContainer next_id
         timers mwplContainer].
    rewrite items_of_app.
    2:{ intros n [<- | [<- | []]]; exact I. }
    now repeat split.
  - exists q. cbn [sector_section_rows row_samples flat_map timers_from
                   items_from List.length Nat.add].
    rewrite app_nil_r. now repeat split.
Qed.

Lemma mwpl_section_run (o : option (anyArray MWPLStockPerformance)) (q : Page) :
  (forall a, o = Some a -> mwpl_shaped a) ->
  items_of (mwplContainer q) = [] ->
  exists q',
    when o renderMWPLChart q = Ok tt q' /\
    items_of (mwplContainer q') =
      items_from mwpl_bar_class 1 (next_id q) (mwpl_section_rows o) /\
    timers q' =
      (timers q ++
       timers_from Number.hundred (next_id q)
                   (row_samples (mwpl_section_rows o)))%list /\
    performanceContainer q' = performanceContainer q.
Proof.
  intros S E. destruct o as [[|data]|].
  - elim (S _ eq_refl).
  - eexists. split; [apply (renderMWPLChart_run data q (S _ eq_refl))|].
    cbn [mwpl_section_rows performanceContainer next_id timers mwplContainer].
    rewrite items_of_app.
    2:{ intros n [<- | [<- | []]]; exact I. }
    now repeat split.
  - exists q. cbn [mwpl_section_rows row_samples flat_map timers_from items_from].
    rewrite app_nil_r. now repeat split.
Qed.

(** The denominator of the sector section, when it holds numbers only. *)
Lemma sector_section_relative (o : option (anyArray SectorPerformance)) :
  (forall a, o = Some a -> sector_shaped a) ->
  (forall l, o = Some (IsArray l) -> Forall sector_item_numbers l) ->
  relative_max (number_values (sector_section_values o)) (sector_section_max o).
Proof.
  intros S N. destruct o as [[|data]|].
  - elim (S _ eq_refl).
  - cbn [sector_section_values sector_section_max].
    destruct (sector_numbers_values data (N _ eq_refl)) as [Nu Nn].
    unfold sector_max. rewrite (magnitudes_numbers _ Nu).
    now apply Math_max_relative.
  - cbn. split; [reflexivity|]. split; [intros v []|now left].
Qed.

(** X12. The charts of a whole cycle.  For a response that is located,
    parsed and well shaped, on a page whose pending timers belong to older
    elements: when [fetchNews] is done no bar has a width yet, the widths
    being left to the timers; once the timers have fired, every item of
    the sector chart is drawn against the denominator of the section, which
    is the largest magnitude of its values floored at 1 when the period
    objects hold numbers only, and every item of the MWPL chart against
    100, the later steps of the cycle and the timers of the other chart
    having changed nothing of them.  A bar is drawn with the width
    [(|value| / denominator) * 100] computed in doubles, which it holds
    when that is finite. *)
Theorem charts_of_a_cycle
    (result : GenerateContentResponse) (t jsonString : string) (data : Data)
    (p : Page) :
  timers_fresh p ->
  text result = Some t ->
  locate_jsonString (Str.trim t) = inr jsonString ->
  JSON_parse jsonString = inr (DataValue data) ->
  well_shaped data ->
  let p' := fetchNews JSON_parse (Some client) (Fulfilled result) p in
  let sectors := sector_section_rows (sectorPerformance data) in
  let stocks := mwpl_section_rows (mwplPerformance data) in
  Forall (fun b => bar_style_width b = None)
         (all_bars (performanceContainer p') ++ all_bars (mwplContainer p')) /\
  exists m,
    ((forall l, sectorPerformance data = Some (IsArray l) ->
                Forall sector_item_numbers l) ->
     relative_max
       (number_values (sector_section_values (sectorPerformance data))) m) /\
    Forall2 (item_drawn sector_bar_class 2 m) sectors
            (items_of (performanceContainer (runTimers p'))) /\
    Forall2 (item_drawn mwpl_bar_class 1 Number.hundred) stocks
            (items_of (mwplContainer (runTimers p'))).
Proof.
  intros Fresh T L P [WS WM] p' sectors stocks.
  destruct (summary_step (summary data) (fetchNews_loading p))
    as (q1 & S1 & _ & P1 & M1 & _).
  assert (K1 : next_id q1 = next_id p /\ timers q1 = timers p).
  { destruct (summary data); cbn [when] in S1;
      unfold renderSummary, bind, exec, ret in S1;
      injection S1 as <-; now split. }
  destruct K1 as [N1 T1].
  destruct (sector_section_run (sectorPerformance data) q1 WS)
    as (q2 & S2 & I2 & N2 & T2 & M2); [now rewrite P1|].
  destruct (mwpl_section_run (mwplPerformance data) q2 WM)
    as (q3 & S3 & I3 & T3 & P3); [now rewrite M2, M1|].
  fold sectors in I2, N2, T2. fold stocks in I3, T3.
  destruct (sources_page_frame (groundingChunks result) q3)
    as (_ & _ & P4 & M4).
  assert (T4 : timers (sources_page (groundingChunks result) q3) = timers q3).
  { unfold sources_page. destruct (groundingChunks result) as [cs|];
      [destruct (kept_pairs cs)|]; reflexivity. }
  assert (E : p' = setLoading false (sources_page (groundingChunks result) q3)).
  { apply fetchNews_ok. unfold fetchNews_try. rewrite T, L, P.
    rewrite (bind_Ok _ _ _ _ _ S1), (bind_Ok _ _ _ _ _ S2),
            (bind_Ok _ _ _ _ _ S3).
    apply displaySources_run. }
  assert (EP : items_of (performanceContainer p') =
               items_from sector_bar_class 2 (next_id p) sectors).
  { rewrite E. cbn [setLoading performanceContainer set_fetchBtn_disabled
                    set_loader_display].
    now rewrite P4, P3, I2, N1. }
  assert (EM : items_of (mwplContainer p') =
               items_from mwpl_bar_class 1
                          (List.length (row_samples sectors) + next_id p) stocks).
  { rewrite E. cbn [setLoading mwplContainer set_fetchBtn_disabled
                    set_loader_display].
    now rewrite M4, I3, N2, N1. }
  set (m := sector_section_max (sectorPerformance data)) in *.
  assert (ET : timers p' =
               ((timers p ++ timers_from m (next_id p) (row_samples sectors)) ++
                timers_from Number.hundred
                            (List.length (row_samples sectors) + next_id p)
                            (row_samples stocks))%list).
  { rewrite E. cbn [setLoading timers set_fetchBtn_disabled set_loader_display].
    now rewrite T4, T3, T2, N2, T1, N1. }
  split.
  - unfold all_bars. rewrite EP, EM. apply Forall_app.
    split; apply items_from_unset.
  - exists m. split; [now apply sector_section_relative|].
    destruct (runTimers_items p') as [RP RM]. rewrite RP, RM, EP, EM, ET.
    split.
    + pose proof (items_settle_later sector_bar_class 2 m (timers p)
                    (timers_from Number.hundred
                                 (List.length (row_samples sectors) + next_id p)
                                 (row_samples stocks))
                    (next_id p) [] sectors [] Fresh) as S.
      cbn [app List.length Nat.add] in S. rewrite app_nil_r in S.
      apply S. eapply Forall_impl; [|apply timers_from_ids].
      cbn. intros x. lia.
    + pose proof (items_settle mwpl_bar_class 1 Number.hundred
                    (timers p ++ timers_from m (next_id p) (row_samples sectors))
                    (List.length (row_samples sectors) + next_id p)
                    [] stocks []) as S.
      cbn [app List.length Nat.add] in S. rewrite app_nil_r in S.
      apply S. apply Forall_app. split.
      * eapply Forall_impl; [|exact Fresh]. cbn. intros x. lia.
      * eapply Forall_impl; [|apply timers_from_ids]. cbn. intros x. lia.
Qed.

End CycleCharts.

Lemma charts_of_a_cycle_witness :
  let p' := fetchNews demo_parse (Some client)
                      (Fulfilled (fenced_response three_sections_json))
                      initialPage in
  Forall (fun b => bar_style_width b = None)
         (all_bars (performanceContainer p') ++ all_bars (mwplContainer p')) /\
  exists m,
    relative_max (number_values (sector_values sector_sample)) m /\
    Forall2 (item_drawn sector_bar_class 2 m) (sector_rows sector_sample)
            (items_of (performanceContainer (runTimers p'))) /\
    Forall2 (item_drawn mwpl_bar_class 1 Number.hundred) (mwpl_rows mwpl_sample)
            (items_of (mwplContainer (runTimers p'))).
Proof.
  destruct (charts_of_a_cycle demo_parse
              (fenced_response three_sections_json)
              ("Here is the summary. ```json" ++ Str.LF ++ three_sections_json ++
               Str.LF ++ "```")
              three_sections_json
              (mkData (Some demo_summary) (Some (IsArray sector_sample))
                      (Some (IsArray mwpl_sample)))
              initialPage) as [Unset (m & Max & Sectors & Stocks)].
  - constructor.
  - reflexivity.
  - vm_compute. reflexivity.
  - vm_compute. reflexivity.
  - split; intros a [= <-].
    + repeat constructor; eexists; (split; [reflexivity|]);
        split; repeat constructor; (discriminate || (eexists; reflexivity)).
    + repeat constructor; eexists; (split; [reflexivity|]);
        repeat constructor; eexists; reflexivity.
  - split; [exact Unset|]. exists m. split; [|now split].
    apply Max. intros l [= <-].
    repeat constructor; eexists; (split; [reflexivity|]);
      repeat constructor; eexists; split; reflexivity.
Defined.
(* ================================================================== *)
(** * More on the sources *)

Section SourcesMore.

(** X13. The key under which a source is kept in the set is read back as
    the same uri and the same title, whatever characters they hold
    (quotes, backslashes, control characters) and whether or not there is
    a title; so two sources have one key only if they are equal in both. *)
Theorem source_key_round_trip :
  (forall u t,
      Json.parse_source (Json.stringify_source u t) = Some (Json.mkSource u t)) /\
  (forall u t u' t',
      Json.stringify_source u t = Json.stringify_source u' t' ->
      u = u' /\ t = t').
Proof.
  split; [exact parse_stringify_source|].
  intros u t u' t' E. now apply stringify_source_inj.
Qed.

Example source_key_with_quotes :
  let u := "https://a/?q=" ++ DQ ++ "x" ++ DQ ++ "\" ++ Str.LF in
  Json.stringify_source u None =
    "{" ++ DQ ++ "uri" ++ DQ ++ ":" ++ DQ ++ "https://a/?q=\" ++ DQ ++ "x\" ++
    DQ ++ "\\\n" ++ DQ ++ "}" /\
  Json.parse_source (Json.stringify_source u None) = Some (Json.mkSource u None).
Proof. split; reflexivity. Qed.

Lemma sources_page_list (chunks : list GroundingChunk) (p : Page) :
  sourcesList (page_of (displaySources (Some chunks) p)) =
  map source_link (kept_pairs chunks).
Proof.
  rewrite displaySources_run. cbn [page_of sources_page].
  now destruct (kept_pairs chunks).
Qed.

Lemma kept_pairs_snoc (chunks : list GroundingChunk) (c : GroundingChunk) :
  kept_pairs (chunks ++ [c])%list = add_pair (kept_pairs chunks) c.
Proof. unfold kept_pairs. now rewrite fold_left_app. Qed.

(** X14. The links come in the order in which their pairs first occur
    among the candidates: a further candidate adds its link after all the
    others when it carries a pair with a uri that is not empty and that no
    earlier candidate carries, and changes nothing otherwise. *)
Theorem sources_in_order_of_first_occurrence
    (chunks : list GroundingChunk) (c : GroundingChunk) (p : Page) :
  let before := sourcesList (page_of (displaySources (Some chunks) p)) in
  let after :=
    sourcesList (page_of (displaySources (Some (chunks ++ [c])%list) p)) in
  (forall u t,
      carries c u t -> u <> "" ->
      (forall c', In c' chunks -> ~ carries c' u t) ->
      after = (before ++ [source_link (u, t)])%list) /\
  ((forall u t,
       carries c u t ->
       u = "" \/ exists c', In c' chunks /\ carries c' u t) ->
   after = before).
Proof.
  cbv zeta. rewrite !sources_page_list, kept_pairs_snoc.
  destruct (kept_pairs_spec chunks) as [_ Spec].
  unfold add_pair, carries. split.
  - intros u t C N Fresh. rewrite C. cbn [uri title].
    apply truthy_spec in N. rewrite N.
    destruct (existsb (pair_eqb (u, t)) (kept_pairs chunks)) eqn:E.
    + apply existsb_exists in E as (y & I & E).
      apply pair_eqb_spec in E. subst y.
      apply Spec in I as (_ & c' & I & C'). now elim (Fresh c' I).
    + now rewrite map_app.
  - intros Seen.
    destruct (web c) as [[[u|] t]|]; cbn [uri title]; try reflexivity.
    destruct (Str.truthy u) eqn:Tr; [|reflexivity].
    apply truthy_spec in Tr.
    destruct (Seen u t eq_refl) as [-> | (c' & I & C')]; [now elim Tr|].
    assert (E : existsb (pair_eqb (u, t)) (kept_pairs chunks) = true).
    { apply existsb_exists. exists (u, t). split; [|now apply pair_eqb_spec].
      apply Spec. split; [exact Tr|]. now exists c'. }
    now rewrite E.
Qed.

End SourcesMore.

Lemma sources_in_order_of_first_occurrence_witness :
  let chunks :=
    [ mkGroundingChunk (Some (mkWeb (Some "https://b") (Some "B")));
      mkGroundingChunk (Some (mkWeb (Some "https://a") None)) ] in
  let c := mkGroundingChunk (Some (mkWeb (Some "https://b") (Some "B2"))) in
  sourcesList (page_of (displaySources (Some (chunks ++ [c])%list) initialPage)) =
  (sourcesList (page_of (displaySources (Some chunks) initialPage)) ++
   [source_link ("https://b", Some "B2")])%list.
Proof.
  apply (proj1 (sources_in_order_of_first_occurrence _ _ initialPage)).
  - reflexivity.
  - discriminate.
  - intros c' [<- | [<- | []]]; discriminate.
Defined.
(* ================================================================== *)
(** * The installation banner *)

Section InstallBanner.

(** The click listeners that resume leave everything but the variable and
    the console as it is; the variable holds [null] as soon as one of them
    has resumed. *)
Lemma resumed_listeners (outcome : string) (l : list nat) (s : Install) :
  let s' := fold_left (fun s _ => install_resume outcome s) l s in
  installBanner_display s' = installBanner_display s /\
  prevented s' = prevented s /\
  prompted s' = prompted s /\
  awaiting s' = awaiting s /\
  unhandled s' = unhandled s /\
  deferredPrompt s' = match l with [] => deferredPrompt s | _ => StashNull end.
Proof.
  revert s; induction l as [|x l IH]; intros s; [now repeat split|].
  cbn [fold_left]. destruct (IH (install_resume outcome s))
    as (A & B & C & D & E & F).
  cbv zeta. rewrite A, B, C, D, E, F. repeat split.
  now destruct l.
Qed.

(** X15. Over every sequence of events, in any order: [prompt()] is only
    ever called on an event that the listener of [beforeinstallprompt]
    was given and on which it called [preventDefault()]; the same holds of
    the event that the variable holds, and a click listener only awaits
    the choice of an event that it prompted. *)
Theorem only_stashed_events_are_prompted (evs : list InstallEvent) :
  let s := install_run evs initialInstall in
  incl (prompted s) (prevented s) /\
  (forall e, deferredPrompt s = StashEvent e -> In e (prevented s)) /\
  incl (awaiting s) (prompted s).
Proof.
  cbv zeta. unfold install_run.
  assert (G : forall s,
             (incl (prompted s) (prevented s) /\
              (forall e, deferredPrompt s = StashEvent e -> In e (prevented s)) /\
              incl (awaiting s) (prompted s)) ->
             let s' := fold_left install_step evs s in
             incl (prompted s') (prevented s') /\
             (forall e, deferredPrompt s' = StashEvent e -> In e (prevented s')) /\
             incl (awaiting s') (prompted s')).
  { induction evs as [|ev evs IH]; intros s I; [exact I|].
    cbn [fold_left]. apply IH. clear IH. destruct I as (A & B & C).
    destruct ev as [e | | e outcome | |]; cbn [install_step].
    - unfold on_beforeinstallprompt.
      cbn [prompted prevented deferredPrompt awaiting]. repeat split.
      + intros x I. apply in_or_app. left. now apply A.
      + intros x [= <-]. apply in_or_app. right. now left.
      + exact C.
    - unfold on_install_click. destruct (deferredPrompt s) as [| | e] eqn:D;
        cbn [prompted prevented deferredPrompt awaiting];
        try (repeat split; [exact A | intros x [=] | exact C]).
      repeat split.
      + intros x I. apply in_app_or in I as [I | [<- | []]];
          [now apply A | now apply B].
      + intros x [= <-]. now apply B.
      + intros x I. apply in_app_or in I as [I | [<- | []]]; apply in_or_app;
          [left; now apply C | right; now left].
    - unfold on_userChoice.
      destruct (resumed_listeners outcome (filter (Nat.eqb e) (awaiting s)) s)
        as (_ & P & Q & R & _ & D).
      cbv zeta in *. cbn [prompted prevented deferredPrompt awaiting].
      rewrite P, Q, R, D. repeat split.
      + exact A.
      + intros x. destruct (filter (Nat.eqb e) (awaiting s)); [apply B | discriminate].
      + intros x I. apply C. now apply filter_In in I.
    - unfold on_dismiss_click.
      cbn [prompted prevented deferredPrompt awaiting]. now repeat split.
    - unfold on_appinstalled.
      cbn [prompted prevented deferredPrompt awaiting].
      repeat split; [exact A | intros x [=] | exact C]. }
  apply G. repeat split; [intros x [] | intros e [=] | intros x []].
Qed.

(** X16. An event is used once.  From any state, after an event has been
    stashed, a click has prompted it and the user has chosen, the variable
    holds [null] and the banner is hidden; a further click, with no new
    [beforeinstallprompt] in between, prompts nothing: its listener throws
    a [TypeError], which nobody handles. *)
Theorem stashed_event_is_used_once (e : nat) (outcome : string) (s : Install) :
  let s1 := install_run [BeforeInstallPrompt e; InstallClick;
                         UserChoice e outcome] s in
  let s2 := install_step s1 InstallClick in
  deferredPrompt s1 = StashNull /\
  installBanner_display s1 = "none" /\
  prompted s1 = (prompted s ++ [e])%list /\
  unhandled s1 = unhandled s /\
  prompted s2 = prompted s1 /\
  unhandled s2 =
    (unhandled s1 ++
     [TypeError "Cannot read properties of null (reading 'prompt')"])%list.
Proof.
  cbv zeta. cbn [install_run fold_left install_step].
  unfold on_userChoice.
  set (s0 := on_install_click (on_beforeinstallprompt e s)).
  destruct (resumed_listeners outcome (filter (Nat.eqb e) (awaiting s0)) s0)
    as (A & _ & C & _ & E & D).
  cbv zeta in *.
  assert (F : filter (Nat.eqb e) (awaiting s0) <> []).
  { unfold s0, on_install_click, on_beforeinstallprompt.
    cbn [deferredPrompt awaiting]. rewrite filter_app. cbn [filter].
    rewrite Nat.eqb_refl. now destruct (filter (Nat.eqb e) (awaiting s)). }
  assert (D' : deferredPrompt
                 (fold_left (fun s _ => install_resume outcome s)
                            (filter (Nat.eqb e) (awaiting s0)) s0) = StashNull).
  { rewrite D. now destruct (filter (Nat.eqb e) (awaiting s0)). }
  unfold on_install_click at 1 2. cbn [deferredPrompt]. rewrite D'.
  cbn [deferredPrompt installBanner_display prompted unhandled].
  rewrite A, C, E. now repeat split.
Qed.

(** X17. When no other event comes between a click that prompts and the
    choice that it awaits, the banner is only ever shown with an event in
    the variable, over every sequence of events from the start: no click
    listener is left suspended, and a click on a banner that is shown
    prompts and does not throw. *)
Theorem shown_banner_has_an_event (fs : list Flow) :
  let s := flow_run fs initialInstall in
  awaiting s = [] /\
  (installBanner_display s = "flex" ->
   (exists e, deferredPrompt s = StashEvent e /\
              prompted (install_step s InstallClick) = (prompted s ++ [e])%list) /\
   unhandled (install_step s InstallClick) = unhandled s).
Proof.
  cbv zeta. unfold flow_run.
  assert (G : forall s,
             (awaiting s = [] /\
              (installBanner_display s = "flex" ->
               exists e, deferredPrompt s = StashEvent e)) ->
             let s' := fold_left flow_step fs s in
             awaiting s' = [] /\
             (installBanner_display s' = "flex" ->
              exists e, deferredPrompt s' = StashEvent e)).
  { induction fs as [|f fs IH]; intros s I; [exact I|].
    cbn [fold_left]. apply IH. clear IH. destruct I as [A B].
    destruct f as [e | outcome | |]; cbn [flow_step install_step].
    - split; [exact A|]. intros _. now exists e.
    - destruct (deferredPrompt s) as [| | e] eqn:D.
      + unfold on_install_click. rewrite D. split; [exact A | discriminate].
      + unfold on_install_click. rewrite D. split; [exact A | discriminate].
      + unfold on_userChoice.
        set (s0 := on_install_click s).
        destruct (resumed_listeners outcome (filter (Nat.eqb e) (awaiting s0)) s0)
          as (Ba & _ & _ & Aw & _ & _).
        cbv zeta in *. cbn [awaiting installBanner_display]. rewrite Ba, Aw.
        unfold s0, on_install_click. rewrite D.
        cbn [awaiting installBanner_display]. rewrite A. cbn [app filter].
        rewrite Nat.eqb_refl. cbn [negb]. split; [reflexivity | discriminate].
    - split; [exact A | discriminate].
    - split; [exact A | discriminate]. }
  destruct (G initialInstall) as [A B].
  { split; [reflexivity | discriminate]. }
  split; [exact A|]. intros Shown. destruct (B Shown) as [e D].
  cbn [install_step]. unfold on_install_click. rewrite D.
  split; [now exists e | reflexivity].
Qed.

End InstallBanner.

Lemma shown_banner_has_an_event_witness :
  let s := flow_run [FlowBeforeInstallPrompt 7] initialInstall in
  installBanner_display s = "flex" /\
  unhandled (install_step s InstallClick) = [].
Proof.
  cbv zeta.
  destruct (shown_banner_has_an_event [FlowBeforeInstallPrompt 7]) as [_ H].
  destruct (H eq_refl) as [_ U].
  split; [reflexivity | exact U].
Defined.

(** With a second [beforeinstallprompt] between a click and the choice it
    awaits, the listener that resumes clears the event that was stashed
    last: the banner is shown with [null] in the variable, and the next
    click throws. *)
Example interleaved_prompt_is_lost :
  let s := install_run [BeforeInstallPrompt 1; InstallClick;
                        BeforeInstallPrompt 2; UserChoice 1 "dismissed"]
                       initialInstall in
  installBanner_display s = "flex" /\
  deferredPrompt s = StashNull /\
  unhandled (install_step s InstallClick) =
    [TypeError "Cannot read properties of null (reading 'prompt')"].
Proof. repeat split. Qed.

(** Dismissing the banner keeps the event, [appinstalled] discards it. *)
Example dismiss_keeps_the_event :
  let s := install_run [BeforeInstallPrompt 1] initialInstall in
  prompted (install_run [DismissClick; InstallClick] s) = [1] /\
  prompted (install_run [AppInstalled; InstallClick] s) = [] /\
  unhandled (install_run [AppInstalled; InstallClick] s) =
    [TypeError "Cannot read properties of null (reading 'prompt')"].
Proof. repeat split. Qed.

(** A click before any [beforeinstallprompt]: the variable is
    [undefined]. *)
Example click_before_any_event :
  unhandled (install_step initialInstall InstallClick) =
  [TypeError "Cannot read properties of undefined (reading 'prompt')"] /\
  installBanner_display (install_step initialInstall InstallClick) = "none".
Proof. split; reflexivity. Qed.
(* ================================================================== *)
(** * The dashboard without a client *)

Section NoClient.

Variable JSON_parse : string -> string + anyData.

Lemma no_client_run (evs : list AppEvent) (m : string) :
  app_run JSON_parse None evs (mkApp (displayError m initialPage) 0) =
  mkApp (displayError
           (if existsb is_FetchClick evs
            then "AI client is not initialized." else m)
           initialPage) 0.
Proof.
  unfold app_run. revert m.
  induction evs as [|ev evs IH]; intros m; [reflexivity|].
  cbn [fold_left existsb]. destruct ev as [| settled |].
  - cbn [app_step app_page app_inflight is_FetchClick orb].
    change (fetchBtn_disabled (displayError m initialPage)) with false.
    cbv iota.
    change (displayError "AI client is not initialized."
              (displayError m initialPage))
      with (displayError "AI client is not initialized." initialPage).
    rewrite IH. now destruct (existsb is_FetchClick evs).
  - cbn [app_step app_page app_inflight is_FetchClick orb]. apply IH.
  - cbn [app_step app_page app_inflight is_FetchClick orb].
    change (runTimers (displayError m initialPage))
      with (displayError m initialPage).
    apply IH.
Qed.

(** X18. When the constructor of the client throws, nothing is ever
    fetched.  Over every sequence of clicks, settlements and timer firings
    after the failed initialization, no request is sent and no call is
    suspended, the trigger stays enabled, and the page is the page of the
    document with the error banner shown: with the text of the failed
    initialization until the first click, with the text of the missing
    client from then on. *)
Theorem without_a_client_nothing_is_fetched (e : exn) (evs : list AppEvent) :
  let ai_p := initialize (inl e) initialPage in
  let a := app_run JSON_parse (fst ai_p) evs (mkApp (snd ai_p) 0) in
  app_inflight a = 0 /\
  requests (app_page a) = 0 /\
  fetchBtn_disabled (app_page a) = false /\
  app_page a =
    displayError
      (if existsb is_FetchClick evs
       then "AI client is not initialized."
       else "Failed to initialize the AI client. Please ensure the API key is set correctly.")
      initialPage.
Proof.
  cbv zeta. cbn [initialize fst snd]. rewrite no_client_run.
  now repeat split.
Qed.

End NoClient.
